(** * DevWeb project generator: the transactional generation engine

    A shallow embedding of [index.js]: [Validator.sanitizePath], the
    [FileSystemManager] (ledger of created files and directories, rollback),
    [PackageManager.installDependencies] (one [npm] child process guarded by
    a timer) and the [ProjectGenerator] pipeline
    (createStructure, generateFiles, installDependencies, postGeneration).

    The generator is effectful JavaScript.  Effects are modelled by a state
    and exception monad over a [World] that holds the disk, the fields of the
    long-lived objects, the log and a trace of the calls made to [fs] and
    [child_process].  What the outside world decides (permission errors, how
    a child process behaves, the clock, the text of the templates) is read
    from an [Env] record.

    What is left out: file modes and encodings; the console and the log
    file, of which the list [logged] keeps the level and message of each
    line; what [npm] itself writes to the disk; and whatever a child does
    after the promise waiting for it has settled. *)

From Stdlib Require Import Ascii String DecimalString DecimalN.
From stdpp Require Import gmap strings list fin_maps.

Local Open Scope string_scope.
Local Open Scope list_scope.

(** ** Strings as JavaScript uses them *)

Module Str.

(** [s.includes(needle)] *)
Fixpoint includes (needle s : string) : bool :=
  String.prefix needle s ||
  match s with
  | EmptyString => false
  | String _ rest => includes needle rest
  end.

(** [s.split('/')]: never the empty list; the empty string gives one
    empty segment. *)
Fixpoint split (s : string) : list string :=
  match s with
  | EmptyString => [EmptyString]
  | String c rest =>
      if Ascii.eqb c "/" then EmptyString :: split rest
      else match split rest with
           | [] => [String c EmptyString]
           | seg :: segs => String c seg :: segs
           end
  end.

(** [s.charCodeAt(0) === CHAR_FORWARD_SLASH] *)
Definition starts_with_slash (s : string) : bool :=
  match s with
  | String c _ => Ascii.eqb c "/"
  | EmptyString => false
  end.

(** [s.charCodeAt(s.length - 1) === CHAR_FORWARD_SLASH] *)
Fixpoint ends_with_slash (s : string) : bool :=
  match s with
  | EmptyString => false
  | String c EmptyString => Ascii.eqb c "/"
  | String _ rest => ends_with_slash rest
  end.

(** Template literal interpolation of a number. *)
Definition of_nat (n : nat) : string :=
  NilEmpty.string_of_uint (Nat.to_uint n).
Definition of_N (n : N) : string :=
  NilEmpty.string_of_uint (N.to_uint n).

End Str.

(** ** Node's [path] module, POSIX flavour

    [path.normalize], [path.join] and [path.dirname] belong to the platform,
    not to the repository; they are transcribed from Node's [lib/path.js].
    [normalizeString] scans characters there; the scan acts segment by
    segment, which is how it is written here. *)

Module Path.

(** One separator met by [normalizeString]: [res] is the result so far,
    last segment first. *)
Definition norm_step (allowAboveRoot : bool) (res : list string) (seg : string)
  : list string :=
  if String.eqb seg EmptyString || String.eqb seg "." then res
  else if String.eqb seg ".." then
    match res with
    | last :: res' =>
        if String.eqb last ".." then (if allowAboveRoot then ".." :: res else res)
        else res'
    | [] => if allowAboveRoot then [".."] else []
    end
  else seg :: res.

(** A segment that stays: neither empty nor [.]. *)
Definition plain (seg : string) : bool :=
  negb (String.eqb seg EmptyString || String.eqb seg ".").

Definition normalizeSegs (allowAboveRoot : bool) (segs : list string) : list string :=
  rev (fold_left (norm_step allowAboveRoot) segs []).

Definition normalizeString (path : string) (allowAboveRoot : bool) : string :=
  String.concat "/" (normalizeSegs allowAboveRoot (Str.split path)).

Definition normalize (path : string) : string :=
  if String.eqb path EmptyString then "."
  else
    let isAbsolute := Str.starts_with_slash path in
    let trailingSeparator := Str.ends_with_slash path in
    let p := normalizeString path (negb isAbsolute) in
    if String.eqb p EmptyString then
      (if isAbsolute then "/" else if trailingSeparator then "./" else ".")
    else
      let p := if trailingSeparator then p +:+ "/" else p in
      if isAbsolute then "/" +:+ p else p.

(** [path.join(a, b)] *)
Definition join (a b : string) : string :=
  if String.eqb a EmptyString then (if String.eqb b EmptyString then "." else normalize b)
  else if String.eqb b EmptyString then normalize a
  else normalize (a +:+ "/" +:+ b).

(** The loop of [path.dirname], [i] running from [path.length - 1] down to 1. *)
Fixpoint dirname_scan (path : string) (i : nat) (matchedSlash : bool) : option nat :=
  match i with
  | 0 => None
  | S i' =>
      match String.get i path with
      | Some c =>
          if Ascii.eqb c "/" then
            (if matchedSlash then dirname_scan path i' matchedSlash else Some i)
          else dirname_scan path i' false
      | None => dirname_scan path i' matchedSlash
      end
  end.

Definition dirname (path : string) : string :=
  if String.eqb path EmptyString then "."
  else
    let hasRoot := Str.starts_with_slash path in
    match dirname_scan path (String.length path - 1) true with
    | None => if hasRoot then "/" else "."
    | Some e => if hasRoot && Nat.eqb e 1 then "//" else String.substring 0 e path
    end.

(** How the operating system reads a path handed to [fs]: relative to the
    working directory, as the list of names from the root. *)
Definition resolve (cwd p : string) : list string :=
  if Str.starts_with_slash p then normalizeSegs false (Str.split p)
  else normalizeSegs false (Str.split cwd ++ Str.split p).

End Path.

(** ** Values, errors and the world *)

(** The JavaScript values that cross the interfaces modelled here. *)
Inductive JsVal :=
| JsUndefined
| JsBool (b : bool)
| JsNumber (n : nat)
| JsString (s : string)
| JsObject (fields : list (string * string)).

(** [Boolean(v)] *)
Definition truthy (v : JsVal) : bool :=
  match v with
  | JsUndefined => false
  | JsBool b => b
  | JsNumber n => negb (Nat.eqb n 0)
  | JsString s => negb (String.eqb s EmptyString)
  | JsObject _ => true
  end.

(** [new Error(message)]; every error of the program is a plain [Error]. *)
Record JsError := Error { message : string }.

Inductive Res (A : Type) :=
| Ok (a : A)
| Throw (e : JsError).
Arguments Ok {A} a.
Arguments Throw {A} e.

Inductive Level := ERROR | WARN | INFO | SUCCESS | DEBUG.

(** One line written by [Logger.log]; the [data] argument is left out. *)
Record LogEntry := Log { level : Level; text : string }.

Inductive Node :=
| Dir
| File (content : string).

(** The calls made to [fs] and [child_process], in the order they are made. *)
Inductive Call :=
| ExistsSync (p : string)
| MkdirSync (p : string)
| WriteFileSync (p : string)
| UnlinkSync (p : string)
| ReaddirSync (p : string)
| RmdirSync (p : string)
| Spawn (cmd : string) (args : list string) (dir : string)
| ExecSync (cmd : string) (dir : string).

Inductive ChildStatus :=
| Running
| Exited (code : nat)
| SpawnFailed.

Record Child := mkChild {
  child_args : list string;
  child_dir : string;
  child_status : ChildStatus }.

(** What a child process does, as seen by the handlers registered on it,
    with the moment the installation timer runs out placed among them. *)
Inductive ChildEvent :=
| StdoutData (s : string)
| StderrData (s : string)
| Close (code : nat)
| ErrorEvent (msg : string)
| TimerElapsed.

(** The disk maps an absolute path (the names from the root) to what is
    there; the root itself is always a directory. *)
Record World := mkWorld {
  disk : gmap (list string) Node;
  createdFiles : list string;       (* FileSystemManager.createdFiles *)
  createdDirs : list string;        (* FileSystemManager.createdDirs *)
  installedPackages : list string;  (* PackageManager.installedPackages *)
  children : list Child;
  logged : list LogEntry;
  calls : list Call }.

Inductive FsOp := OpMkdir | OpWrite | OpUnlink | OpReaddir | OpRmdir.

Record Config := mkConfig {
  projectName : string;
  useEjs : string;
  useDB : string;
  port : string;
  features_authentication : bool;
  features_linter : bool;
  initGit : bool }.

(** The generated texts; what they contain plays no role here. *)
Inductive Template :=
| AppJs | ServerJs | PackageJson | EnvFile | Gitignore | Readme | Routes
| DatabaseConfig | AuthMiddleware | IndexView | View404 | HeaderView
| FooterView | IndexHtml | StyleCss | MainJs.

(** What the environment decides. *)
Record Env := mkEnv {
  cwd : string;                                   (* process.cwd() *)
  refuses : FsOp -> list string -> bool;          (* the OS refuses (EACCES) *)
  child_events : nat -> list string -> list ChildEvent; (* the n-th child *)
  git_init_fails : bool;
  render : Template -> Config -> string;
  duration : string }.                            (* elapsed seconds, printed *)

Module CONFIG.
Definition TIMEOUT : N := 300000.
Definition MAX_PROJECT_NAME_LENGTH : nat := 50.
End CONFIG.

(** ** The state and exception monad *)

Definition M (A : Type) : Type := World -> Res A * World.

Definition ret {A} (a : A) : M A := fun w => (Ok a, w).

Definition bind {A B} (m : M A) (k : A -> M B) : M B :=
  fun w => match m w with
           | (Ok a, w') => k a w'
           | (Throw e, w') => (Throw e, w')
           end.

Definition throw {A} (e : JsError) : M A := fun w => (Throw e, w).

(** [try { m } catch (error) { h error }] *)
Definition try_catch {A} (m : M A) (h : JsError -> M A) : M A :=
  fun w => match m w with
           | (Ok a, w') => (Ok a, w')
           | (Throw e, w') => h e w'
           end.

Definition lift {A} (r : Res A) : M A := fun w => (r, w).

Declare Scope js_scope.
Delimit Scope js_scope with js.
Notation "x <- c1 ;; c2" := (bind c1 (fun x => c2))
  (at level 100, c1 at next level, right associativity) : js_scope.
Notation "c1 ;; c2" := (bind c1 (fun _ => c2))
  (at level 100, right associativity) : js_scope.
Local Open Scope js_scope.

(** [for (const x of l) body], with the local variables the body updates
    passed along. *)
Fixpoint forOf {A S} (l : list A) (body : A -> S -> M S) (acc : S) : M S :=
  match l with
  | [] => ret acc
  | x :: l' => acc' <- body x acc ;; forOf l' body acc'
  end.

Definition set_disk (d : gmap (list string) Node) (w : World) : World :=
  mkWorld d (createdFiles w) (createdDirs w) (installedPackages w)
          (children w) (logged w) (calls w).
Definition set_createdFiles (l : list string) (w : World) : World :=
  mkWorld (disk w) l (createdDirs w) (installedPackages w)
          (children w) (logged w) (calls w).
Definition set_createdDirs (l : list string) (w : World) : World :=
  mkWorld (disk w) (createdFiles w) l (installedPackages w)
          (children w) (logged w) (calls w).
Definition set_installedPackages (l : list string) (w : World) : World :=
  mkWorld (disk w) (createdFiles w) (createdDirs w) l
          (children w) (logged w) (calls w).
Definition set_children (l : list Child) (w : World) : World :=
  mkWorld (disk w) (createdFiles w) (createdDirs w) (installedPackages w)
          l (logged w) (calls w).
Definition set_logged (l : list LogEntry) (w : World) : World :=
  mkWorld (disk w) (createdFiles w) (createdDirs w) (installedPackages w)
          (children w) l (calls w).
Definition set_calls (l : list Call) (w : World) : World :=
  mkWorld (disk w) (createdFiles w) (createdDirs w) (installedPackages w)
          (children w) (logged w) l.

Definition called (c : Call) : M unit :=
  fun w => (Ok tt, set_calls (calls w ++ [c]) w).

(** [this.logger.log(level, message)] *)
Definition logger (l : Level) (msg : string) : M unit :=
  fun w => (Ok tt, set_logged (logged w ++ [Log l msg]) w).

(** ** The [fs] module over the modelled disk *)

Module Fs.

Definition node_at (d : gmap (list string) Node) (k : list string) : option Node :=
  match k with
  | [] => Some Dir
  | _ => d !! k
  end.

(** The name of [k'] inside [k] when [k'] lies directly in [k]. *)
Definition child_name (k k' : list string) : option string :=
  match last k' with
  | Some name => if decide (k' = k ++ [name]) then Some name else None
  | None => None
  end.

(** The names [readdirSync] lists for the directory [k]. *)
Definition entries (d : gmap (list string) Node) (k : list string) : list string :=
  omap (fun kv => child_name k (fst kv)) (map_to_list d).

(** Node's message for a failed system call. *)
Definition sys_error (code what syscall p : string) : JsError :=
  Error (code +:+ ": " +:+ what +:+ ", " +:+ syscall +:+ " '" +:+ p +:+ "'").

Section WithEnv.
Variable E : Env.

Definition at_path (p : string) : list string := Path.resolve (cwd E) p.

(** [fs.existsSync(p)]: never throws. *)
Definition existsSync (p : string) : M bool :=
  called (ExistsSync p) ;;
  fun w => (Ok (match node_at (disk w) (at_path p) with
                | Some _ => true
                | None => false
                end), w).

(** [mkdir -p]: walks down from the root, creating what is missing; stops
    at the first name that is a file or that the OS refuses to create,
    leaving in place what it created before. *)
Fixpoint mkdir_walk (p : string) (done rest : list string)
    (d : gmap (list string) Node) : Res unit * gmap (list string) Node :=
  match rest with
  | [] => (Ok tt, d)
  | name :: rest' =>
      let k := done ++ [name] in
      match d !! k with
      | Some Dir => mkdir_walk p k rest' d
      | Some (File _) =>
          (Throw (match rest' with
                  | [] => sys_error "EEXIST" "file already exists" "mkdir" p
                  | _ => sys_error "ENOTDIR" "not a directory" "mkdir" p
                  end), d)
      | None =>
          if refuses E OpMkdir k
          then (Throw (sys_error "EACCES" "permission denied" "mkdir" p), d)
          else mkdir_walk p k rest' (<[k := Dir]> d)
      end
  end.

(** [mkdir] of one directory whose parent must be there. *)
Definition mkdir_one (p : string) (k : list string)
    (d : gmap (list string) Node) : Res unit * gmap (list string) Node :=
  match node_at d k with
  | Some _ => (Throw (sys_error "EEXIST" "file already exists" "mkdir" p), d)
  | None =>
      match node_at d (removelast k) with
      | Some Dir =>
          if refuses E OpMkdir k
          then (Throw (sys_error "EACCES" "permission denied" "mkdir" p), d)
          else (Ok tt, <[k := Dir]> d)
      | Some (File _) => (Throw (sys_error "ENOTDIR" "not a directory" "mkdir" p), d)
      | None => (Throw (sys_error "ENOENT" "no such file or directory" "mkdir" p), d)
      end
  end.

(** What [mkdir] makes of the disk of [w]. *)
Definition mkdir_result (p : string) (recursive : bool) (w : World)
  : Res unit * gmap (list string) Node :=
  if recursive then mkdir_walk p [] (at_path p) (disk w)
  else mkdir_one p (at_path p) (disk w).

(** [fs.mkdirSync(p, { recursive, mode: 0o755 })]; modes are not modelled. *)
Definition mkdirSync (p : string) (recursive : bool) : M unit :=
  called (MkdirSync p) ;;
  fun w => let (r, d) := mkdir_result p recursive w in (r, set_disk d w).

(** [fs.writeFileSync(p, content, { flag: 'w' })] *)
Definition writeFileSync (p content : string) : M unit :=
  called (WriteFileSync p) ;;
  fun w =>
    let k := at_path p in
    match k with
    | [] => (Throw (sys_error "EISDIR" "illegal operation on a directory" "open" p), w)
    | _ =>
        match node_at (disk w) (removelast k) with
        | None => (Throw (sys_error "ENOENT" "no such file or directory" "open" p), w)
        | Some (File _) => (Throw (sys_error "ENOTDIR" "not a directory" "open" p), w)
        | Some Dir =>
            match disk w !! k with
            | Some Dir =>
                (Throw (sys_error "EISDIR" "illegal operation on a directory" "open" p), w)
            | _ =>
                if refuses E OpWrite k
                then (Throw (sys_error "EACCES" "permission denied" "open" p), w)
                else (Ok tt, set_disk (<[k := File content]> (disk w)) w)
            end
        end
    end.

(** [fs.unlinkSync(p)] *)
Definition unlinkSync (p : string) : M unit :=
  called (UnlinkSync p) ;;
  fun w =>
    let k := at_path p in
    match disk w !! k with
    | Some (File _) =>
        if refuses E OpUnlink k
        then (Throw (sys_error "EACCES" "permission denied" "unlink" p), w)
        else (Ok tt, set_disk (delete k (disk w)) w)
    | Some Dir => (Throw (sys_error "EISDIR" "illegal operation on a directory" "unlink" p), w)
    | None =>
        match k with
        | [] => (Throw (sys_error "EISDIR" "illegal operation on a directory" "unlink" p), w)
        | _ => (Throw (sys_error "ENOENT" "no such file or directory" "unlink" p), w)
        end
    end.

(** [fs.readdirSync(p)] *)
Definition readdirSync (p : string) : M (list string) :=
  called (ReaddirSync p) ;;
  fun w =>
    let k := at_path p in
    match node_at (disk w) k with
    | Some Dir =>
        if refuses E OpReaddir k
        then (Throw (sys_error "EACCES" "permission denied" "scandir" p), w)
        else (Ok (entries (disk w) k), w)
    | Some (File _) => (Throw (sys_error "ENOTDIR" "not a directory" "scandir" p), w)
    | None => (Throw (sys_error "ENOENT" "no such file or directory" "scandir" p), w)
    end.

(** [fs.rmdirSync(p)]: only an empty directory goes. *)
Definition rmdirSync (p : string) : M unit :=
  called (RmdirSync p) ;;
  fun w =>
    let k := at_path p in
    match disk w !! k with
    | Some Dir =>
        match entries (disk w) k with
        | [] =>
            if refuses E OpRmdir k
            then (Throw (sys_error "EACCES" "permission denied" "rmdir" p), w)
            else (Ok tt, set_disk (delete k (disk w)) w)
        | _ => (Throw (sys_error "ENOTEMPTY" "directory not empty" "rmdir" p), w)
        end
    | Some (File _) => (Throw (sys_error "ENOTDIR" "not a directory" "rmdir" p), w)
    | None =>
        match k with
        | [] => (Throw (sys_error "EBUSY" "resource busy or locked" "rmdir" p), w)
        | _ => (Throw (sys_error "ENOENT" "no such file or directory" "rmdir" p), w)
        end
    end.

End WithEnv.
End Fs.

(** ** Validator *)

Module Validator.

(** [sanitizePath(userPath)] *)
Definition sanitizePath (userPath : string) : Res string :=
  let normalized := Path.normalize userPath in
  if Str.includes ".." normalized then Throw (Error "Path traversal detected")
  else Ok normalized.

End Validator.

(** ** FileSystemManager *)

Module FileSystemManager.
Section WithEnv.
Variable E : Env.

(** [createDirectory(dirPath, recursive = true)] *)
Definition createDirectory (dirPath : string) (recursive : bool) : M JsVal :=
  try_catch
    (sanitized <- lift (Validator.sanitizePath dirPath) ;;
     present <- Fs.existsSync E sanitized ;;
     (if negb present then
        Fs.mkdirSync E sanitized recursive ;;
        (fun w => (Ok tt, set_createdDirs (createdDirs w ++ [sanitized]) w)) ;;
        logger DEBUG ("Created directory: " +:+ sanitized)
      else ret tt) ;;
     ret (JsBool true))
    (fun error =>
       logger ERROR ("Failed to create directory: " +:+ dirPath) ;;
       throw (Error ("Directory creation failed: " +:+ message error))).

(** [writeFile(filePath, content, options = {})]; every caller leaves
    [options] out, so the file is written with flag ['w']. *)
Definition writeFile (filePath content : string) : M JsVal :=
  try_catch
    (sanitized <- lift (Validator.sanitizePath filePath) ;;
     let dir := Path.dirname sanitized in
     present <- Fs.existsSync E dir ;;
     (if negb present then createDirectory dir true ;; ret tt else ret tt) ;;
     Fs.writeFileSync E sanitized content ;;
     (fun w => (Ok tt, set_createdFiles (createdFiles w ++ [sanitized]) w)) ;;
     logger DEBUG ("Created file: " +:+ sanitized) ;;
     ret (JsBool true))
    (fun error =>
       logger ERROR ("Failed to write file: " +:+ filePath) ;;
       throw (Error ("File write failed: " +:+ message error))).

(** [this.createdFiles.reverse()]: reverses the array in place and yields it. *)
Definition reverse_createdFiles : M (list string) :=
  fun w => let l := rev (createdFiles w) in (Ok l, set_createdFiles l w).
Definition reverse_createdDirs : M (list string) :=
  fun w => let l := rev (createdDirs w) in (Ok l, set_createdDirs l w).

(** The body of the first loop of [rollback]. *)
Definition rollback_file (file : string) (rollbackErrors : nat) : M nat :=
  try_catch
    (present <- Fs.existsSync E file ;;
     (if present then
        Fs.unlinkSync E file ;;
        logger DEBUG ("Deleted file: " +:+ file)
      else ret tt) ;;
     ret rollbackErrors)
    (fun error =>
       logger ERROR ("Failed to delete file during rollback: " +:+ file) ;;
       ret (S rollbackErrors)).

(** The body of the second loop of [rollback]. *)
Definition rollback_dir (dir : string) (rollbackErrors : nat) : M nat :=
  try_catch
    (present <- Fs.existsSync E dir ;;
     empty <- (if present
               then l <- Fs.readdirSync E dir ;; ret (Nat.eqb (length l) 0)
               else ret false) ;;
     (if empty then
        Fs.rmdirSync E dir ;;
        logger DEBUG ("Deleted directory: " +:+ dir)
      else ret tt) ;;
     ret rollbackErrors)
    (fun error =>
       logger ERROR ("Failed to delete directory during rollback: " +:+ dir) ;;
       ret (S rollbackErrors)).

(** [rollback()]: no [return] statement, so the promise resolves to
    [undefined]. *)
Definition rollback : M JsVal :=
  logger WARN "Rolling back file system changes..." ;;
  files <- reverse_createdFiles ;;
  n <- forOf files rollback_file 0 ;;
  dirs <- reverse_createdDirs ;;
  n <- forOf dirs rollback_dir n ;;
  (if negb (Nat.eqb n 0)
   then logger WARN ("Rollback completed with " +:+ Str.of_nat n +:+ " errors")
   else logger SUCCESS "Rollback completed successfully") ;;
  ret JsUndefined.

(** [getCreatedStructure()] *)
Record CreatedStructure := mkCreatedStructure {
  files : list string;
  directories : list string;
  totalFiles : nat;
  totalDirectories : nat }.

Definition getCreatedStructure (w : World) : CreatedStructure :=
  mkCreatedStructure (createdFiles w) (createdDirs w)
                     (length (createdFiles w)) (length (createdDirs w)).

End WithEnv.
End FileSystemManager.

(** ** PackageManager *)

Module PackageManager.

(** The second argument of [installDependencies]: an array or one string. *)
Inductive Deps :=
| DepArray (l : list string)
| DepString (s : string).

(** [Array.isArray(dependencies) ? dependencies : [dependencies]] *)
Definition packages_of (dependencies : Deps) : list string :=
  match dependencies with
  | DepArray l => l
  | DepString s => [s]
  end.

(** [['install', devFlag, ...packages].filter(Boolean)] *)
Definition npm_args (dependencies : Deps) (dev : JsVal) : list string :=
  let devFlag := if truthy dev then "--save-dev" else EmptyString in
  filter (fun s => s ≠ EmptyString) ("install" :: devFlag :: packages_of dependencies).

Definition timeout_error : JsError :=
  Error ("Installation timeout after " +:+ Str.of_N (CONFIG.TIMEOUT / 1000) +:+ " seconds").

(** The local state of one call: the promise, the timer and the two
    buffers. *)
Record Pending := mkPending {
  settled : option (Res JsVal);
  timer_armed : bool;
  stdout : string;
  stderr : string }.

Definition set_status (pid : nat) (s : ChildStatus) : M unit :=
  fun w => (Ok tt,
            set_children (alter (fun c => mkChild (child_args c) (child_dir c) s)
                                pid (children w)) w).

(** [resolve]/[reject] settle the promise once; later calls do nothing. *)
Definition settle (r : Res JsVal) (st : Pending) : Pending :=
  match settled st with
  | Some _ => st
  | None => mkPending (Some r) (timer_armed st) (stdout st) (stderr st)
  end.

Definition clearTimeout (st : Pending) : Pending :=
  mkPending (settled st) false (stdout st) (stderr st).

(** The handlers registered by [installDependencies], one event at a time. *)
Definition handle (pid : nat) (packages : list string) (ev : ChildEvent)
    (st : Pending) : M Pending :=
  match ev with
  | StdoutData s =>
      ret (mkPending (settled st) (timer_armed st) (stdout st +:+ s) (stderr st))
  | StderrData s =>
      ret (mkPending (settled st) (timer_armed st) (stdout st) (stderr st +:+ s))
  | Close code =>
      set_status pid (Exited code) ;;
      let st := clearTimeout st in
      if Nat.eqb code 0 then
        (fun w => (Ok tt, set_installedPackages (installedPackages w ++ packages) w)) ;;
        logger SUCCESS ("Successfully installed: " +:+ String.concat ", " packages) ;;
        ret (settle (Ok JsUndefined) st)
      else
        logger ERROR ("Installation failed with code " +:+ Str.of_nat code) ;;
        ret (settle (Throw (Error ("Package installation failed: " +:+
                        (if String.eqb (stderr st) EmptyString then stdout st else stderr st))))
                    st)
  | ErrorEvent msg =>
      set_status pid SpawnFailed ;;
      let st := clearTimeout st in
      logger ERROR "Installation process error" ;;
      ret (settle (Throw (Error msg)) st)
  | TimerElapsed =>
      if timer_armed st
      then ret (settle (Throw timeout_error)
                       (mkPending (settled st) false (stdout st) (stderr st)))
      else ret st
  end.

(** The event loop delivers the events until the promise settles, which is
    when the awaiting caller goes on.  A child that stays silent for good
    leaves the timer to run out. *)
Fixpoint deliver (pid : nat) (packages : list string) (evs : list ChildEvent)
    (st : Pending) : M Pending :=
  match settled st with
  | Some _ => ret st
  | None =>
      match evs with
      | [] => handle pid packages TimerElapsed st
      | ev :: evs' => st' <- handle pid packages ev st ;; deliver pid packages evs' st'
      end
  end.

Section WithEnv.
Variable E : Env.

(** [installDependencies(projectDir, dependencies, dev = false)] *)
Definition installDependencies (projectDir : string) (dependencies : Deps)
    (dev : JsVal) : M JsVal :=
  let packages := packages_of dependencies in
  logger INFO ("Installing: " +:+ String.concat ", " packages) ;;
  let args := npm_args dependencies dev in
  called (Spawn "npm" args projectDir) ;;
  pid <- (fun w => (Ok (length (children w)),
                    set_children (children w ++ [mkChild args projectDir Running]) w)) ;;
  st <- deliver pid packages (child_events E pid args)
          (mkPending None true EmptyString EmptyString) ;;
  match settled st with
  | Some r => lift r
  | None => throw timeout_error
  end.

End WithEnv.
End PackageManager.

(** ** ProjectGenerator *)

Module ProjectGenerator.
Import PackageManager.

(** [files[key] = value] on an object whose keys are listed in insertion
    order. *)
Fixpoint obj_set (key value : string) (o : list (string * string))
  : list (string * string) :=
  match o with
  | [] => [(key, value)]
  | (k, v) :: o' =>
      if String.eqb k key then (k, value) :: o' else (k, v) :: obj_set key value o'
  end.

Section WithEnv.
Variable E : Env.

Definition is_ejs (config : Config) : bool := String.eqb (useEjs config) "EJS (Dynamic)".

(** [createStructure()] *)
Definition createStructure (config : Config) : M unit :=
  let rootDir := Path.join (cwd E) (projectName config) in
  let dirs := ["src/services"; "src/routes"; "src/middleware"; "src/utils";
               "src/config"; "public/css"; "public/js"; "public/images";
               "public/uploads"; "tests"; "logs"] in
  let dirs := if is_ejs config
              then dirs ++ ["views/components"; "views/pages"; "views/layouts"]
              else dirs in
  forOf dirs (fun dir _ =>
                FileSystemManager.createDirectory E (Path.join rootDir dir) true ;;
                ret tt) tt ;;
  logger SUCCESS ("Created " +:+ Str.of_nat (length dirs) +:+ " directories").

(** [getFileTemplates()] *)
Definition getFileTemplates (config : Config) : list (string * string) :=
  let rootDir := Path.join (cwd E) (projectName config) in
  let put rel t files := obj_set (Path.join rootDir rel) (render E t config) files in
  let files := [] in
  let files := put "src/app.js" AppJs files in
  let files := put "src/server.js" ServerJs files in
  let files := put "package.json" PackageJson files in
  let files := put ".env" EnvFile files in
  let files := put ".env.example" EnvFile files in
  let files := put ".gitignore" Gitignore files in
  let files := put "README.md" Readme files in
  let files := put "src/routes/index.js" Routes files in
  let files := if negb (String.eqb (useDB config) "None")
               then put "src/config/database.js" DatabaseConfig files else files in
  let files := if features_authentication config
               then put "src/middleware/auth.js" AuthMiddleware files else files in
  let files := if is_ejs config
               then put "views/layouts/footer.ejs" FooterView
                      (put "views/layouts/header.ejs" HeaderView
                         (put "views/pages/404.ejs" View404
                            (put "views/pages/index.ejs" IndexView files)))
               else put "public/index.html" IndexHtml files in
  let files := put "public/css/style.css" StyleCss files in
  let files := put "public/js/main.js" MainJs files in
  files.

(** [generateFiles()] *)
Definition generateFiles (config : Config) : M unit :=
  logger INFO "Generating project files..." ;;
  let files := getFileTemplates config in
  completed <- forOf files (fun entry completed =>
                              FileSystemManager.writeFile E (fst entry) (snd entry) ;;
                              ret (S completed)) 0 ;;
  logger SUCCESS ("Generated " +:+ Str.of_nat completed +:+ " files").

Definition when (b : bool) (m : M JsVal) : M unit :=
  if b then m ;; ret tt else ret tt.

(** [installDependencies()]: an argument left out is [dev = false]; the
    fourth argument of the [nodemon] call has no parameter to land in. *)
Definition installDependencies (config : Config) : M unit :=
  let projectDir := Path.join (cwd E) (projectName config) in
  let install := PackageManager.installDependencies E projectDir in
  logger INFO "Installing dependencies..." ;;
  install (DepArray ["express"; "cors"; "dotenv"; "helmet"; "morgan"])
          (JsObject [("flags", "--no-bin-links")]) ;;
  when (is_ejs config) (install (DepString "ejs") (JsBool false)) ;;
  (if String.eqb (useDB config) "MySQL"
   then install (DepString "mysql2") (JsBool false) ;; ret tt
   else if String.eqb (useDB config) "PostgreSQL"
   then install (DepString "pg") (JsBool false) ;; ret tt
   else if String.eqb (useDB config) "MongoDB"
   then install (DepString "mongodb") (JsBool false) ;; ret tt
   else ret tt) ;;
  when (features_authentication config)
       (install (DepString "jsonwebtoken") (JsBool false)) ;;
  logger INFO "Installing dev dependencies..." ;;
  install (DepString "nodemon") (JsBool true) ;;
  when (features_linter config) (install (DepString "eslint prettier") (JsBool true)).

(** [execSync('git init', { cwd: projectDir, stdio: 'pipe' })] *)
Definition git_init (projectDir : string) : M unit :=
  called (ExecSync "git init" projectDir) ;;
  fun w =>
    let k := Path.resolve (cwd E) projectDir in
    match Fs.node_at (disk w) k with
    | Some Dir =>
        if git_init_fails E then (Throw (Error "Command failed: git init"), w)
        else (Ok tt, set_disk (<[k ++ [".git"] := Dir]> (disk w)) w)
    | _ => (Throw (Error "spawnSync /bin/sh ENOENT"), w)
    end.

(** [postGeneration()] *)
Definition postGeneration (config : Config) : M unit :=
  logger INFO "Running post-generation tasks..." ;;
  if initGit config then
    try_catch
      (let projectDir := Path.join (cwd E) (projectName config) in
       git_init projectDir ;;
       logger SUCCESS "Initialized git repository")
      (fun error => logger WARN "Could not initialize git repository")
  else ret tt.

(** The [try] block of [generate]. *)
Definition stages (config : Config) : M JsVal :=
  logger INFO "Starting project generation..." ;;
  createStructure config ;;
  generateFiles config ;;
  installDependencies config ;;
  postGeneration config ;;
  logger SUCCESS ("Project generated in " +:+ duration E +:+ "s") ;;
  ret (JsBool true).

(** [generate(config)] *)
Definition generate (config : Config) : M JsVal :=
  try_catch (stages config)
    (fun error =>
       logger ERROR "Project generation failed" ;;
       FileSystemManager.rollback E ;;
       throw error).

End WithEnv.
End ProjectGenerator.

(** ** Vocabulary of the statements *)

(** The paths whose existence was asked of the disk, in the order asked. *)
Definition probed (cs : list Call) : list string :=
  omap (fun c => match c with ExistsSync p => Some p | _ => None end) cs.

(** The [npm] command lines started, in the order started. *)
Definition spawned (cs : list Call) : list (list string) :=
  omap (fun c => match c with Spawn _ args _ => Some args | _ => None end) cs.

Definition is_error (e : LogEntry) : bool :=
  match level e with ERROR => true | _ => false end.

(** How many lines of a log are errors. *)
Definition errors (l : list LogEntry) : nat := length (List.filter is_error l).

Fixpoint strip_prefix (pre s : string) : option string :=
  match pre with
  | EmptyString => Some s
  | String a pre' =>
      match s with
      | String b s' => if Ascii.eqb a b then strip_prefix pre' s' else None
      | EmptyString => None
      end
  end.

Definition debug_line (pre : string) (e : LogEntry) : option string :=
  match level e with
  | DEBUG => strip_prefix pre (text e)
  | _ => None
  end.

(** The directories, and the files, a log reports as created, in the order
    reported. *)
Definition dirs_logged (lg : list LogEntry) : list string :=
  omap (debug_line "Created directory: ") lg.
Definition files_logged (lg : list LogEntry) : list string :=
  omap (debug_line "Created file: ") lg.

(** Both kinds together, in the order reported. *)
Definition created_logged (lg : list LogEntry) : list string :=
  omap (fun e => match debug_line "Created directory: " e with
                 | Some p => Some p
                 | None => debug_line "Created file: " e
                 end) lg.

(** What the ledger gained is what the log reports as created. *)
Definition recorded (w w' : World) : Prop :=
  exists lg, logged w' = logged w ++ lg /\
             createdFiles w' = createdFiles w ++ files_logged lg /\
             createdDirs w' = createdDirs w ++ dirs_logged lg.

(** Nothing recorded and nothing reported as created. *)
Definition quiet (w w' : World) : Prop :=
  createdFiles w' = createdFiles w /\
  createdDirs w' = createdDirs w /\
  exists lg, logged w' = logged w ++ lg /\ files_logged lg = [] /\ dirs_logged lg = [].

(** What the handlers of a child's events leave alone. *)
Definition handled (w w' : World) : Prop :=
  calls w' = calls w /\ disk w' = disk w /\
  length (children w') = length (children w) /\ quiet w w'.

(** A computation that relates every world to the world it leaves. *)
Definition keeps {A} (R : World -> World -> Prop) (m : M A) : Prop :=
  forall w, R w (snd (m w)).

Definition deletable_file (d : gmap (list string) Node) (k : list string) : Prop :=
  exists c, d !! k = Some (File c).
Definition deletable_dir (d : gmap (list string) Node) (k : list string) : Prop :=
  d !! k = Some Dir /\ Fs.entries d k = [].

(** What one turn of a loop of [rollback] on the entry [p] does. *)
Record swept (E : Env) (del : gmap (list string) Node -> list string -> Prop)
    (p : string) (n : nat) (w : World) (n' : nat) (w' : World) : Prop := {
  swept_files : createdFiles w' = createdFiles w;
  swept_dirs : createdDirs w' = createdDirs w;
  swept_calls : exists tl, calls w' = calls w ++ ExistsSync p :: tl /\ probed tl = [];
  swept_log : exists l, logged w' = logged w ++ l /\ n' = n + errors l;
  swept_disk : disk w' = disk w \/
               (del (disk w) (Fs.at_path E p) /\
                disk w' = delete (Fs.at_path E p) (disk w)) }.

(** The last line [rollback] logs. *)
Definition rollback_verdict (n : nat) : LogEntry :=
  if negb (Nat.eqb n 0)
  then Log WARN ("Rollback completed with " +:+ Str.of_nat n +:+ " errors")
  else Log SUCCESS "Rollback completed successfully".

(** A caller of the file system manager: one operation after the other,
    going on after one that failed. *)
Inductive Op :=
| CreateDirectory (p : string)
| WriteFile (p content : string).

Definition perform (E : Env) (o : Op) : M JsVal :=
  match o with
  | CreateDirectory p => FileSystemManager.createDirectory E p true
  | WriteFile p content => FileSystemManager.writeFile E p content
  end.

Definition perform_all (E : Env) (ops : list Op) : M unit :=
  forOf ops (fun o _ => try_catch (perform E o ;; ret tt) (fun _ => ret tt)) tt.

(** The entries [rollback] goes through from the world [w], in its order. *)
Definition rollback_order (E : Env) (w : World) : list string :=
  drop (length (probed (calls w)))
       (probed (calls (snd (FileSystemManager.rollback E w)))).

(** ** Concrete worlds *)

(** A working directory [/home/u] on an otherwise empty disk. *)
Definition home : World :=
  mkWorld (<[ ["home"; "u"] := Dir ]> (<[ ["home"] := Dir ]> ∅)) [] [] [] [] [] [].

(** Nothing is refused, every child exits with the given code, [git init]
    works or not. *)
Definition host (code : nat) (git_fails : bool) : Env :=
  mkEnv "/home/u" (fun _ _ => false) (fun _ _ => [Close code]) git_fails
        (fun _ _ => "generated") "0.01".

(** As [host 0 false], but no file can be unlinked. *)
Definition stubborn : Env :=
  mkEnv "/home/u" (fun op _ => match op with OpUnlink => true | _ => false end)
        (fun _ _ => [Close 0]) false (fun _ _ => "generated") "0.01".


(** The configuration of the minimal run: static pages, no database, no
    feature, no git. *)
Definition demo : Config :=
  mkConfig "demo" "Plain HTML (Static)" "None" "3000" false false false.


(** [demo] with git initialisation. *)
Definition demo_git : Config :=
  mkConfig "demo" "Plain HTML (Static)" "None" "3000" false false true.

(** One file written, on disk and in the ledger. *)
Definition littered : World :=
  snd (FileSystemManager.writeFile stubborn "f.txt" "x" home).

(** A directory [keep] with a file of the user's in it. *)
Definition lived_in : World :=
  mkWorld (<[ ["home"; "u"; "keep"; "note.txt"] := File "mine" ]>
             (<[ ["home"; "u"; "keep"] := Dir ]> (disk home)))
          [] [] [] [] [] [].

(** The manager creates [keep], and then the user puts a note in it. *)
Definition visited : World :=
  let w := snd (FileSystemManager.createDirectory (host 0 false) "keep" true home) in
  set_disk (<[ ["home"; "u"; "keep"; "note.txt"] := File "mine" ]> (disk w)) w.

(** ** The claims as the specification words them, where the code differs *)

(** Rollback reporting: after [rollback] every ledger entry is gone from
    the disk, or the caller receives a non-zero failure count. *)
Definition rollback_reports_to_caller (E : Env) (w : World) : Prop :=
  let (r, w') := FileSystemManager.rollback E w in
  (forall p, p ∈ createdFiles w ++ createdDirs w ->
             Fs.node_at (disk w') (Fs.at_path E p) = None) \/
  (exists n, n <> 0 /\ r = Ok (JsNumber n)).

(** Ledger ordering: [rollback] goes through the entries in the reverse of
    the order in which they were created. *)
Definition reverse_creation_order (E : Env) (ops : list Op) (w : World) : Prop :=
  let w1 := snd (perform_all E ops w) in
  rollback_order E w1 =
  rev (created_logged (drop (length (logged w)) (logged w1))).


(** Path traversal: a path is rejected exactly when its normal form still
    has a parent-directory segment. *)
Definition has_parent_segment (s : string) : Prop := In ".." (Str.split s).

Definition rejects_exactly_escapes (p : string) : Prop :=
  (exists e, Validator.sanitizePath p = Throw e) <->
  has_parent_segment (Path.normalize p).

(** ** Vocabulary for the installation stage *)

(** The child has still not closed, nor failed to start, when the timer
    runs out. *)
Fixpoint timer_first (evs : list ChildEvent) : bool :=
  match evs with
  | [] => true
  | TimerElapsed :: _ => true
  | StdoutData _ :: evs' => timer_first evs'
  | StderrData _ :: evs' => timer_first evs'
  | Close _ :: _ => false
  | ErrorEvent _ :: _ => false
  end.

(** How the promise of one installation ends, read off what its child
    does; [out] and [err] are the two buffers so far. *)
Fixpoint verdict (evs : list ChildEvent) (out err : string) : Res JsVal :=
  match evs with
  | [] => Throw PackageManager.timeout_error
  | StdoutData s :: evs' => verdict evs' (out +:+ s) err
  | StderrData s :: evs' => verdict evs' out (err +:+ s)
  | Close code :: _ =>
      if Nat.eqb code 0 then Ok JsUndefined
      else Throw (Error ("Package installation failed: " +:+
                         (if String.eqb err EmptyString then out else err)))
  | ErrorEvent msg :: _ => Throw (Error msg)
  | TimerElapsed :: _ => Throw PackageManager.timeout_error
  end.

(** The installation stage as a list of steps. *)
Inductive Step :=
| Say (l : Level) (msg : string)
| Install (deps : PackageManager.Deps) (dev : JsVal).

Definition exec (E : Env) (projectDir : string) (steps : list Step) : M unit :=
  forOf steps
    (fun s _ =>
       match s with
       | Say l msg => logger l msg
       | Install deps dev =>
           PackageManager.installDependencies E projectDir deps dev ;; ret tt
       end) tt.

Definition install_steps (config : Config) : list Step :=
  [Say INFO "Installing dependencies...";
   Install (PackageManager.DepArray ["express"; "cors"; "dotenv"; "helmet"; "morgan"])
           (JsObject [("flags", "--no-bin-links")])] ++
  (if ProjectGenerator.is_ejs config
   then [Install (PackageManager.DepString "ejs") (JsBool false)] else []) ++
  (if String.eqb (useDB config) "MySQL"
   then [Install (PackageManager.DepString "mysql2") (JsBool false)]
   else if String.eqb (useDB config) "PostgreSQL"
   then [Install (PackageManager.DepString "pg") (JsBool false)]
   else if String.eqb (useDB config) "MongoDB"
   then [Install (PackageManager.DepString "mongodb") (JsBool false)]
   else []) ++
  (if features_authentication config
   then [Install (PackageManager.DepString "jsonwebtoken") (JsBool false)] else []) ++
  [Say INFO "Installing dev dependencies...";
   Install (PackageManager.DepString "nodemon") (JsBool true)] ++
  (if features_linter config
   then [Install (PackageManager.DepString "eslint prettier") (JsBool true)] else []).

(** The package lists of the steps, as [npm] gets them. *)
Definition planned (steps : list Step) : list (list string) :=
  omap (fun s => match s with
                 | Install deps _ => Some (PackageManager.packages_of deps)
                 | Say _ _ => None
                 end) steps.






(** Ledger lifecycle: what [generate] put in the ledger is out of it when
    [generate] returns. *)
Definition ledger_emptied (E : Env) (config : Config) (w : World) : Prop :=
  createdFiles w = [] -> createdDirs w = [] ->
  let w' := snd (ProjectGenerator.generate E config w) in
  createdFiles w' = [] /\ createdDirs w' = [].

(** All or nothing: when [generate] fails, the project root is not there
    or is empty. *)
Definition root_gone_or_empty (E : Env) (config : Config) (w : World) : Prop :=
  let (r, w') := ProjectGenerator.generate E config w in
  let root := Fs.at_path E (Path.join (cwd E) (projectName config)) in
  (exists e, r = Throw e) ->
  Fs.node_at (disk w') root = None \/ Fs.entries (disk w') root = [].

(** The three stages of [generate] that a failure rolls back. *)
Definition build (E : Env) (config : Config) : M unit :=
  logger INFO "Starting project generation..." ;;
  ProjectGenerator.createStructure E config ;;
  ProjectGenerator.generateFiles E config ;;
  ProjectGenerator.installDependencies E config.

(** * The rest of the program

    What follows models the parts of [index.js] around the generation
    engine: the other methods of [Validator], the [SystemChecker], the
    object [generatePackageJson] serializes, and the questions
    [Application] asks before it calls [generate]. *)

(** ** More of JavaScript's strings

    A character is a UTF-16 code unit; the model has those below 256. *)

Module Js.

Definition code (c : ascii) : N := N_of_ascii c.

Definition between (lo hi : N) (c : ascii) : bool :=
  (lo <=? code c)%N && (code c <=? hi)%N.

(** White space and line terminators: what [trim], [parseInt] and [\s]
    skip. *)
Definition is_space (c : ascii) : bool :=
  between 9 13 c || (code c =? 32)%N || (code c =? 160)%N.

Definition is_digit (c : ascii) : bool := between 48 57 c.
Definition is_upper (c : ascii) : bool := between 65 90 c.
Definition is_lower (c : ascii) : bool := between 97 122 c.

(** The upper-case letters that [toLowerCase] moves: A to Z, and À to Þ
    without the multiplication sign. *)
Definition has_lower (c : ascii) : bool :=
  is_upper c || (between 192 222 c && negb (code c =? 215)%N).

Definition lower_char (c : ascii) : ascii :=
  if has_lower c then ascii_of_N (code c + 32) else c.

Fixpoint map_chars (f : ascii -> ascii) (s : string) : string :=
  match s with
  | EmptyString => EmptyString
  | String c rest => String (f c) (map_chars f rest)
  end.

(** [s.toLowerCase()] *)
Definition toLowerCase (s : string) : string := map_chars lower_char s.

Fixpoint trimStart (s : string) : string :=
  match s with
  | EmptyString => EmptyString
  | String c rest => if is_space c then trimStart rest else s
  end.

Fixpoint trimEnd (s : string) : string :=
  match s with
  | EmptyString => EmptyString
  | String c rest =>
      match trimEnd rest with
      | EmptyString => if is_space c then EmptyString else String c EmptyString
      | rest' => String c rest'
      end
  end.

(** [s.trim()] *)
Definition trim (s : string) : string := trimEnd (trimStart s).

(** [s.split(sep)] for a one-character separator. *)
Fixpoint split_on (sep : ascii) (s : string) : list string :=
  match s with
  | EmptyString => [EmptyString]
  | String c rest =>
      if Ascii.eqb c sep then EmptyString :: split_on sep rest
      else match split_on sep rest with
           | [] => [String c EmptyString]
           | seg :: segs => String c seg :: segs
           end
  end.

(** [s.substring(1)] *)
Definition substring1 (s : string) : string :=
  match s with
  | EmptyString => EmptyString
  | String _ rest => rest
  end.

Definition digit_of (c : ascii) : option (Decimal.uint -> Decimal.uint) :=
  if Ascii.eqb c "0" then Some Decimal.D0
  else if Ascii.eqb c "1" then Some Decimal.D1
  else if Ascii.eqb c "2" then Some Decimal.D2
  else if Ascii.eqb c "3" then Some Decimal.D3
  else if Ascii.eqb c "4" then Some Decimal.D4
  else if Ascii.eqb c "5" then Some Decimal.D5
  else if Ascii.eqb c "6" then Some Decimal.D6
  else if Ascii.eqb c "7" then Some Decimal.D7
  else if Ascii.eqb c "8" then Some Decimal.D8
  else if Ascii.eqb c "9" then Some Decimal.D9
  else None.

(** The longest run of decimal digits [s] starts with. *)
Fixpoint digits (s : string) : Decimal.uint :=
  match s with
  | EmptyString => Decimal.Nil
  | String c rest =>
      match digit_of c with
      | Some d => d (digits rest)
      | None => Decimal.Nil
      end
  end.

(** [parseInt(s, 10)], [None] for [NaN]: leading white space, a sign, then
    digits as far as they go.  The number is the exact integer (JavaScript
    rounds it to a double beyond 2^53). *)
Definition parseInt (s : string) : option Z :=
  let s := trimStart s in
  let (negative, s) :=
    match s with
    | String c rest =>
        if Ascii.eqb c "-" then (true, rest)
        else if Ascii.eqb c "+" then (false, rest)
        else (false, s)
    | EmptyString => (false, s)
    end in
  match digits s with
  | Decimal.Nil => None
  | d => let n := Z.of_N (N.of_uint d) in
         Some (if negative then (- n)%Z else n)
  end.

(** [s.replace(/\s+/g, sub)]: every run of white space becomes one [sub];
    [in_run] says that the character before was white space. *)
Fixpoint replace_spaces (sub : string) (in_run : bool) (s : string) : string :=
  match s with
  | EmptyString => EmptyString
  | String c rest =>
      if is_space c
      then (if in_run then replace_spaces sub true rest
            else sub +:+ replace_spaces sub true rest)
      else String c (replace_spaces sub false rest)
  end.

(** The integers a double holds exactly, up to [Number.MAX_SAFE_INTEGER];
    on these [parseInt] is the exact reading modelled here. *)
Definition safe (n : N) : Prop := (n <= 9007199254740991)%N.

(** [a > b] and [a < b] on numbers that may be [NaN] or [undefined]. *)
Definition gt (a b : option Z) : bool :=
  match a, b with
  | Some x, Some y => (y <? x)%Z
  | _, _ => false
  end.
Definition lt (a b : option Z) : bool := gt b a.

End Js.

Definition CONFIG_MIN_NODE_VERSION : string := "14.0.0".
Definition CONFIG_MIN_NPM_VERSION : string := "6.0.0".

(** ** The other methods of Validator *)

Module Validators.

(** What [validateProjectName] returns. *)
Record Validation := mkValidation {
  valid : bool;
  errors : list string }.

(** [[a-zA-Z0-9-_]] *)
Definition name_char (c : ascii) : bool :=
  Js.is_lower c || Js.is_upper c || Js.is_digit c ||
  Ascii.eqb c "-" || Ascii.eqb c "_".

Fixpoint all_chars (f : ascii -> bool) (s : string) : bool :=
  match s with
  | EmptyString => true
  | String c rest => f c && all_chars f rest
  end.

(** [/^[a-zA-Z0-9-_]+$/.test(name)] *)
Definition only_name_chars (name : string) : bool :=
  negb (String.eqb name EmptyString) && all_chars name_char name.

(** [/^[0-9]/.test(name)] *)
Definition starts_with_digit (name : string) : bool :=
  match name with
  | String c _ => Js.is_digit c
  | EmptyString => false
  end.

Definition reserved : list string :=
  ["node_modules"; "test"; "src"; "public"; "views"].

(** [reserved.includes(s)] *)
Definition includes (l : list string) (s : string) : bool :=
  existsb (String.eqb s) l.

Definition quote : string := String (ascii_of_N 34) EmptyString.

(** [validateProjectName(name)] *)
Definition validateProjectName (name : string) : Validation :=
  let errors := [] in
  let errors :=
    if String.eqb name EmptyString || String.eqb (Js.trim name) EmptyString
    then errors ++ ["Project name cannot be empty"] else errors in
  let errors :=
    if Nat.ltb CONFIG.MAX_PROJECT_NAME_LENGTH (String.length name)
    then errors ++ ["Project name too long (max " +:+
                    Str.of_nat CONFIG.MAX_PROJECT_NAME_LENGTH +:+ " characters)"]
    else errors in
  let errors :=
    if negb (only_name_chars name)
    then errors ++ ["Project name can only contain letters, numbers, hyphens, and underscores"]
    else errors in
  let errors :=
    if starts_with_digit name
    then errors ++ ["Project name cannot start with a number"] else errors in
  let errors :=
    if includes reserved (Js.toLowerCase name)
    then errors ++ [quote +:+ name +:+ quote +:+ " is a reserved name"]
    else errors in
  mkValidation (Nat.eqb (length errors) 0) errors.

(** [v.split('.').map(n => parseInt(n, 10))] *)
Definition parse (v : string) : list (option Z) :=
  List.map Js.parseInt (Js.split_on "." v).

(** [a[i]] as a number: [undefined] compares like [NaN]. *)
Definition at_index (a : list (option Z)) (i : nat) : option Z :=
  match nth_error a i with
  | Some x => x
  | None => None
  end.

(** The loop of [validateVersion], from [i] on, [n] turns left. *)
Fixpoint compare_from (current minimum : list (option Z)) (i n : nat) : bool :=
  match n with
  | 0 => true
  | S n' =>
      if Js.gt (at_index current i) (at_index minimum i) then true
      else if Js.lt (at_index current i) (at_index minimum i) then false
      else compare_from current minimum (S i) n'
  end.

(** [validateVersion(version, minVersion)] *)
Definition validateVersion (version minVersion : string) : bool :=
  compare_from (parse version) (parse minVersion) 0 3.

(** [validatePort(port)] *)
Definition validatePort (port : string) : bool :=
  match Js.parseInt port with
  | Some portNum => (0 <? portNum)%Z && (portNum <? 65536)%Z
  | None => false
  end.

End Validators.

(** ** SystemChecker *)

(** What the process finds out about its host: [process.version], and what
    [npm --version] prints if it runs. *)
Record Probe := mkProbe {
  process_version : string;
  npm_version : Res string }.

Module SystemChecker.
Section WithProbe.
Variable P : Probe.

(** [checkNodeVersion()] *)
Definition checkNodeVersion : M bool :=
  let version := Js.substring1 (process_version P) in
  if negb (Validators.validateVersion version CONFIG_MIN_NODE_VERSION)
  then throw (Error ("Node.js version " +:+ version +:+ " is below minimum " +:+
                     CONFIG_MIN_NODE_VERSION))
  else logger INFO ("✓ Node.js version: " +:+ version) ;; ret true.

(** [checkNpmVersion()] *)
Definition checkNpmVersion : M bool :=
  called (ExecSync "npm --version" ".") ;;
  out <- lift (npm_version P) ;;
  let version := Js.trim out in
  if negb (Validators.validateVersion version CONFIG_MIN_NPM_VERSION)
  then throw (Error ("npm version " +:+ version +:+ " is below minimum " +:+
                     CONFIG_MIN_NPM_VERSION))
  else logger INFO ("✓ npm version: " +:+ version) ;; ret true.

(** [checkAll()] *)
Definition checkAll : M bool :=
  logger INFO "Checking system requirements..." ;;
  try_catch
    (checkNodeVersion ;;
     checkNpmVersion ;;
     logger SUCCESS "All system checks passed" ;;
     ret true)
    (fun error => logger ERROR "System check failed" ;; ret false).

End WithProbe.
End SystemChecker.

(** ** Application

    The questions are answered from the lines of the standard input, given
    here as a list.  What [console.log] prints is left out, and so is the
    banner. *)

(** [fs.rmSync(p, { recursive: true, force: true })]: the entry at [p] goes
    with everything below it, and a path that is not there is no error.
    When the operating system refuses to remove one of the entries the call
    throws; which of the others are gone by then depends on the order in
    which the directory lists them, and the model leaves all of them in
    place.  The call is not entered in [calls]. *)
Module FsRm.
Section WithEnv.
Variable E : Env.

Definition refused_below (d : gmap (list string) Node) (k : list string) : bool :=
  existsb (fun kv => bool_decide (k `prefix_of` fst kv) &&
                     refuses E (match snd kv with
                                | Dir => OpRmdir
                                | File _ => OpUnlink
                                end) (fst kv))
          (map_to_list d).

Definition rmSync (p : string) : M unit :=
  fun w =>
    let k := Fs.at_path E p in
    match k with
    | [] => (Throw (Fs.sys_error "EBUSY" "resource busy or locked" "rm" p), w)
    | _ =>
        if refused_below (disk w) k
        then (Throw (Fs.sys_error "EACCES" "permission denied" "rm" p), w)
        else (Ok tt, set_disk (filter (fun kv => ~ k `prefix_of` fst kv) (disk w)) w)
    end.

End WithEnv.
End FsRm.

Module Application.

(** What comes of a question: an answer and the lines still to be read, or
    nothing, the input having ended. *)
Inductive Asked (A : Type) :=
| Answered (a : A) (rest : list string)
| Starved.
Arguments Answered {A} a rest.
Arguments Starved {A}.

(** How [run] ends: it returns, [cleanup] done; or the process exits with
    a code, and nothing after [process.exit] runs, the [finally] block
    included; or it waits for an answer that does not come. *)
Inductive Outcome :=
| Completed
| Exit (code : nat)
| Waiting.

(** [answer.toLowerCase() !== 'n'] *)
Definition unless_n (answer : string) : bool :=
  negb (String.eqb (Js.toLowerCase answer) "n").

(** [dbMap[key]]: the seven properties of the object literal, and the two
    that an object inherits under a lower-case name, [constructor] and
    [__proto__].  These two are not strings; the program only compares
    [useDB] with string literals and prints it, so they are given as they
    print. *)
Definition dbMap (key : string) : option string :=
  if String.eqb key "mysql" then Some "MySQL"
  else if String.eqb key "postgresql" then Some "PostgreSQL"
  else if String.eqb key "postgres" then Some "PostgreSQL"
  else if String.eqb key "mongo" then Some "MongoDB"
  else if String.eqb key "mongodb" then Some "MongoDB"
  else if String.eqb key "none" then Some "None"
  else if String.eqb key EmptyString then Some "None"
  else if String.eqb key "constructor" then Some "function Object() { [native code] }"
  else if String.eqb key "__proto__" then Some "[object Object]"
  else None.

(** [dbMap[dbAnswer.toLowerCase()] || 'None'] *)
Definition choose_db (dbAnswer : string) : string :=
  match dbMap (Js.toLowerCase dbAnswer) with
  | Some v => v
  | None => "None"
  end.

Section WithHost.
Variable E : Env.
Variable P : Probe.

(** The constructor: a new logger, and a new manager and package manager
    with empty lists. *)
Definition construct : M unit :=
  fun w => (Ok tt, mkWorld (disk w) [] [] [] (children w)
                           (logged w ++ [Log INFO "Logger initialized"]) (calls w)).

(** The first loop of [getProjectConfiguration]. *)
Fixpoint ask_name (answers : list string) : M (Asked string) :=
  match answers with
  | [] => ret Starved
  | name :: rest =>
      let validation := Validators.validateProjectName name in
      if Validators.valid validation then
        let projectPath := Path.join (cwd E) name in
        present <- Fs.existsSync E projectPath ;;
        if present then
          logger ERROR ("Directory " +:+ Validators.quote +:+ name +:+
                        Validators.quote +:+ " already exists") ;;
          match rest with
          | [] => ret Starved
          | overwrite :: rest' =>
              if String.eqb (Js.toLowerCase overwrite) "yes" then
                removed <- try_catch
                             (FsRm.rmSync E projectPath ;;
                              logger SUCCESS "Existing directory removed" ;;
                              ret true)
                             (fun error =>
                                logger ERROR "Failed to remove existing directory" ;;
                                ret false) ;;
                if removed then ret (Answered name rest') else ask_name rest'
              else ask_name rest'
          end
        else ret (Answered name rest)
      else
        forOf (Validators.errors validation) (fun err _ => logger ERROR err) tt ;;
        ask_name rest
  end.

(** The second loop of [getProjectConfiguration]. *)
Fixpoint ask_port (answers : list string) : M (Asked string) :=
  match answers with
  | [] => ret Starved
  | answer :: rest =>
      let port := if String.eqb answer EmptyString then "3000" else answer in
      if Validators.validatePort port then ret (Answered port rest)
      else logger ERROR "Invalid port number" ;; ask_port rest
  end.

(** [getProjectConfiguration()] *)
Definition getProjectConfiguration (answers : list string) : M (Asked Config) :=
  named <- ask_name answers ;;
  match named with
  | Starved => ret Starved
  | Answered name (ejsAnswer :: dbAnswer :: authAnswer :: linterAnswer :: answers) =>
      let useEjs := if unless_n ejsAnswer then "EJS (Dynamic)"
                    else "Plain HTML (Static)" in
      let useDB := choose_db dbAnswer in
      ported <- ask_port answers ;;
      match ported with
      | Answered port (gitAnswer :: answers) =>
          ret (Answered (mkConfig name useEjs useDB port (unless_n authAnswer)
                                  (unless_n linterAnswer) (unless_n gitAnswer))
                        answers)
      | _ => ret Starved
      end
  | Answered _ _ => ret Starved
  end.

(** [confirmConfiguration(config)] *)
Definition confirmConfiguration (config : Config) (answers : list string)
  : M (Asked bool) :=
  match answers with
  | [] => ret Starved
  | confirm :: rest => ret (Answered (unless_n confirm) rest)
  end.

(** The [try] block of [run]. *)
Definition attempt (answers : list string) : M Outcome :=
  systemOk <- SystemChecker.checkAll P ;;
  if negb systemOk then throw (Error "System requirements not met")
  else
    asked <- getProjectConfiguration answers ;;
    match asked with
    | Starved => ret Waiting
    | Answered config answers =>
        confirmed <- confirmConfiguration config answers ;;
        match confirmed with
        | Starved => ret Waiting
        | Answered false _ =>
            logger INFO "Project generation cancelled by user" ;;
            ret (Exit 0)
        | Answered true _ =>
            ProjectGenerator.generate E config ;;
            ret Completed
        end
    end.

(** [run()] *)
Definition run (answers : list string) (w : World) : Outcome * World :=
  match attempt answers w with
  | (Ok outcome, w') => (outcome, w')
  | (Throw error, w') => (Exit 1, snd (logger ERROR "Application error" w'))
  end.

(** [new Application().run()] *)
Definition main (answers : list string) (w : World) : Outcome * World :=
  run answers (snd (construct w)).

End WithHost.
End Application.

(** ** Vocabulary for the validators *)

(** A version as it is printed: three numbers with dots, then whatever
    follows. *)
Definition version_string (a b c : N) (rest : string) : string :=
  Str.of_N a +:+ "." +:+ Str.of_N b +:+ "." +:+ Str.of_N c +:+ rest.

(** [(a, b, c)] is at least [(a', b', c')], first number first. *)
Definition at_least (a b c a' b' c' : N) : bool :=
  (a' <? a)%N ||
  ((a =? a')%N && ((b' <? b)%N || ((b =? b')%N && (c' <=? c)%N))).

(** [s] does not go on with a digit. *)
Definition no_digit_ahead (s : string) : Prop := Js.digits s = Decimal.Nil.

(** ** The object behind [package.json] *)

Module PackageJson.

(** [deps] of [generatePackageJson], keys in insertion order. *)
Definition dependencies (config : Config) : list (string * string) :=
  let deps := [("express", "^4.18.2"); ("cors", "^2.8.5"); ("dotenv", "^16.3.1");
               ("helmet", "^7.1.0"); ("morgan", "^1.10.0")] in
  let deps := if ProjectGenerator.is_ejs config
              then ProjectGenerator.obj_set "ejs" "^3.1.9" deps else deps in
  let deps := if String.eqb (useDB config) "MySQL"
              then ProjectGenerator.obj_set "mysql2" "^3.6.5" deps else deps in
  let deps := if String.eqb (useDB config) "PostgreSQL"
              then ProjectGenerator.obj_set "pg" "^8.11.3" deps else deps in
  let deps := if String.eqb (useDB config) "MongoDB"
              then ProjectGenerator.obj_set "mongodb" "^6.3.0" deps else deps in
  let deps := if features_authentication config
              then ProjectGenerator.obj_set "jsonwebtoken" "^9.0.2" deps else deps in
  deps.

(** [devDeps] of [generatePackageJson]. *)
Definition devDependencies (config : Config) : list (string * string) :=
  let devDeps := [("nodemon", "^3.0.2")] in
  if features_linter config
  then ProjectGenerator.obj_set "prettier" "^3.1.1"
         (ProjectGenerator.obj_set "eslint" "^8.55.0" devDeps)
  else devDeps.

(** The ["name"] field: [projectName.toLowerCase().replace(/\s+/g, '-')]. *)
Definition name (config : Config) : string :=
  Js.replace_spaces "-" false (Js.toLowerCase (projectName config)).

End PackageJson.

(** The packages one installation step asks [npm] for, a step naming
    several in one string counted for each. *)
Definition packages_named (steps : list (list string)) : list string :=
  List.concat (List.map (Js.split_on " ") (List.concat steps)).

(** ** Vocabulary for paths and the disk *)

Definition no_slash (c : ascii) : bool := negb (Ascii.eqb c "/").

(** A path segment that [normalize] keeps as it is. *)
Definition normal_segment (seg : string) : bool :=
  Path.plain seg && negb (String.eqb seg "..") &&
  Validators.all_chars no_slash seg.

(** A relative path that is already in normal form: [a/b/c]. *)
Definition normal_relative (p : string) : bool :=
  forallb normal_segment (Str.split p).

(** The templates and their paths below the project root, in the order
    [getFileTemplates] assigns them. *)
Definition template_entries (config : Config) : list (string * Template) :=
  [("src/app.js", AppJs); ("src/server.js", ServerJs);
   ("package.json", PackageJson); (".env", EnvFile); (".env.example", EnvFile);
   (".gitignore", Gitignore); ("README.md", Readme);
   ("src/routes/index.js", Routes)] ++
  (if negb (String.eqb (useDB config) "None")
   then [("src/config/database.js", DatabaseConfig)] else []) ++
  (if features_authentication config
   then [("src/middleware/auth.js", AuthMiddleware)] else []) ++
  (if ProjectGenerator.is_ejs config
   then [("views/pages/index.ejs", IndexView); ("views/pages/404.ejs", View404);
         ("views/layouts/header.ejs", HeaderView);
         ("views/layouts/footer.ejs", FooterView)]
   else [("public/index.html", IndexHtml)]) ++
  [("public/css/style.css", StyleCss); ("public/js/main.js", MainJs)].

Definition template_paths (config : Config) : list string :=
  List.map fst (template_entries config).

(** The directories [createStructure] asks for, below the project root. *)
Definition structure_dirs (config : Config) : list string :=
  let dirs := ["src/services"; "src/routes"; "src/middleware"; "src/utils";
               "src/config"; "public/css"; "public/js"; "public/images";
               "public/uploads"; "tests"; "logs"] in
  if ProjectGenerator.is_ejs config
  then dirs ++ ["views/components"; "views/pages"; "views/layouts"]
  else dirs.

(** The command lines of the steps, as [spawn] gets them. *)
Definition command_lines (steps : list Step) : list (list string) :=
  omap (fun s => match s with
                 | Install deps dev => Some (PackageManager.npm_args deps dev)
                 | Say _ _ => None
                 end) steps.

(** Every entry of the ledger is on the disk, as a directory or as a file. *)
Definition ledger_on_disk (E : Env) (w : World) : Prop :=
  (forall p, p ∈ createdDirs w -> Fs.node_at (disk w) (Fs.at_path E p) = Some Dir) /\
  (forall p, p ∈ createdFiles w ->
             exists content, disk w !! Fs.at_path E p = Some (File content)).

(** Nothing goes away and nothing changes its kind. *)
Definition grows (w w' : World) : Prop :=
  forall k, match disk w !! k with
            | Some Dir => disk w' !! k = Some Dir
            | Some (File _) => exists content, disk w' !! k = Some (File content)
            | None => True
            end.

(** Nothing appears and nothing changes. *)
Definition shrinks (w w' : World) : Prop := disk w' ⊆ disk w.

(** One step of the manager: the disk grows, and a ledger that was on the
    disk still is. *)
Definition sound_step (E : Env) (w w' : World) : Prop :=
  grows w w' /\ (ledger_on_disk E w -> ledger_on_disk E w').

(** As [host 0 false], in a working directory with two dots in its name. *)
Definition dotted : Env :=
  mkEnv "/srv/v1..2" (fun _ _ => false) (fun _ _ => [Close 0]) false
        (fun _ _ => "generated") "0.01".

(** Everything at [k] and below it. *)
Definition tree_at (k k' : list string) : Prop := k `prefix_of` k'.

(** A host whose Node and [npm] are recent. *)
Definition recent : Probe := mkProbe "v18.17.0" (Ok "9.6.7").

(** A host whose Node is too old. *)
Definition dated : Probe := mkProbe "v12.22.12" (Ok "6.14.16").

(** A project [old] of the user's in the working directory. *)
Definition settled_in : World :=
  mkWorld (<[ ["home"; "u"; "old"; "index.js"] := File "mine" ]>
             (<[ ["home"; "u"; "old"] := Dir ]> (disk home)))
          [] [] [] [] [] [].

(** * Proofs *)

(** ** The path functions on examples *)

Example normalize_1 : Path.normalize "../../etc" = "../../etc".
Proof. reflexivity. Qed.
Example normalize_2 : Path.normalize "a/./b/../c//d/" = "a/c/d/".
Proof. reflexivity. Qed.
Example normalize_3 : Path.normalize "/../a/.." = "/".
Proof. reflexivity. Qed.
Example join_1 : Path.join "/home/u" "demo" = "/home/u/demo".
Proof. reflexivity. Qed.
Example dirname_1 : Path.dirname "/home/u/demo/package.json" = "/home/u/demo".
Proof. reflexivity. Qed.
Example dirname_2 : Path.dirname "file" = ".".
Proof. reflexivity. Qed.
Example dirname_3 : Path.dirname "/file" = "/".
Proof. reflexivity. Qed.
Example resolve_1 : Path.resolve "/home/u" "demo/src" = ["home"; "u"; "demo"; "src"].
Proof. reflexivity. Qed.

(** Running a computation one step further. *)
Ltac run :=
  repeat progress
    (cbv [bind ret throw try_catch lift called logger set_disk set_createdFiles
          set_createdDirs set_installedPackages set_children set_logged
          set_calls negb];
     cbn [disk createdFiles createdDirs installedPackages children logged calls
          fst snd message]).

(** ** Strings and paths *)

Lemma split_head_prefix s seg segs :
  Str.split s = seg :: segs -> String.prefix seg s = true.
Proof.
  revert seg segs. induction s as [|c rest IH]; intros seg segs H; simpl in H.
  - injection H as <- _. reflexivity.
  - destruct (Ascii.eqb c "/").
    + injection H as <- _. reflexivity.
    + destruct (Str.split rest) as [|seg' segs'] eqn:Hs.
      * injection H as <- _. simpl. destruct (ascii_dec c c); [|done].
        by destruct rest.
      * injection H as <- _. simpl. destruct (ascii_dec c c); [|done].
        by eapply IH.
Qed.

Lemma parent_segment_includes s :
  In ".." (Str.split s) -> Str.includes ".." s = true.
Proof.
  induction s as [|c rest IH]; simpl.
  - intros [H|[]]. discriminate.
  - destruct (Ascii.eqb c "/") eqn:Hc.
    + intros [H|H]; [discriminate|].
      rewrite (IH H). apply orb_true_r.
    + destruct (Str.split rest) as [|seg' segs'] eqn:Hs.
      * intros [H|[]]. discriminate.
      * intros [H|H].
        -- injection H as -> ->.
           apply split_head_prefix in Hs. 
           destruct (ascii_dec "." "."); [|done].
           rewrite Hs. reflexivity.
        -- rewrite IH; [apply orb_true_r|]. by right.
Qed.

Lemma fold_norm_no_parent allow segs res :
  ~ In ".." segs ->
  fold_left (Path.norm_step allow) segs res = rev (List.filter Path.plain segs) ++ res.
Proof.
  revert res. induction segs as [|seg segs IH]; intros res Hn; simpl; [done|].
  rewrite IH by (intros H; apply Hn; by right).
  unfold Path.norm_step at 1, Path.plain at 2.
  destruct (String.eqb seg EmptyString || String.eqb seg ".") eqn:Ht; simpl; [done|].
  destruct (String.eqb_spec seg "..") as [->|_].
  - exfalso. apply Hn. by left.
  - by rewrite <- app_assoc.
Qed.

(** ** Creating directories *)

Section WithEnv.
Variable E : Env.

Lemma mkdir_walk_ok p rest : forall done d d',
  Fs.node_at d done = Some Dir ->
  Fs.mkdir_walk E p done rest d = (Ok tt, d') ->
  Fs.node_at d' (done ++ rest) = Some Dir.
Proof.
  induction rest as [|name rest IH]; intros done d d' Hd H; simpl in H.
  - injection H as <-. by rewrite app_nil_r.
  - replace (done ++ name :: rest) with ((done ++ [name]) ++ rest)
      by (by rewrite <- app_assoc).
    destruct (d !! (done ++ [name])) as [[|c]|] eqn:Hk.
    + eapply IH; [|exact H]. destruct done; simpl; exact Hk.
    + discriminate.
    + destruct (refuses E OpMkdir (done ++ [name])); [discriminate|].
      eapply IH; [|exact H].
      assert (done ++ [name] <> []) by (by destruct done).
      destruct (done ++ [name]) eqn:Heq; [done|]. simpl. apply lookup_insert_eq.
Qed.

Lemma mkdir_one_ok p k d d' :
  Fs.mkdir_one E p k d = (Ok tt, d') -> Fs.node_at d' k = Some Dir.
Proof.
  unfold Fs.mkdir_one. intros H.
  destruct (Fs.node_at d k) eqn:Hk; [discriminate|].
  destruct (Fs.node_at d (removelast k)) as [[|c]|]; try discriminate.
  destruct (refuses E OpMkdir k); [discriminate|]. injection H as <-.
  destruct k; [done|]. simpl. apply lookup_insert_eq.
Qed.

Lemma createDirectory_present p s recursive w :
  Validator.sanitizePath p = Ok s ->
  is_Some (Fs.node_at (disk w) (Fs.at_path E s)) ->
  FileSystemManager.createDirectory E p recursive w =
    (Ok (JsBool true), set_calls (calls w ++ [ExistsSync s]) w).
Proof.
  intros Hs [v Hv].
  unfold FileSystemManager.createDirectory, Fs.existsSync. run.
  rewrite Hs, Hv. reflexivity.
Qed.

Lemma createDirectory_absent p s recursive w d' :
  Validator.sanitizePath p = Ok s ->
  Fs.node_at (disk w) (Fs.at_path E s) = None ->
  Fs.mkdir_result E s recursive w = (Ok tt, d') ->
  FileSystemManager.createDirectory E p recursive w =
    (Ok (JsBool true),
     mkWorld d' (createdFiles w) (createdDirs w ++ [s]) (installedPackages w)
       (children w) (logged w ++ [Log DEBUG ("Created directory: " +:+ s)])
       (calls w ++ [ExistsSync s; MkdirSync s])).
Proof.
  intros Hs Hv Hm.
  unfold FileSystemManager.createDirectory, Fs.existsSync, Fs.mkdirSync,
    Fs.mkdir_result in *. run.
  rewrite Hs, Hv. run. rewrite Hm. run.
  by rewrite <- app_assoc.
Qed.
End WithEnv.

(** ** Rolling back *)


Ltac crunch :=
  repeat (run; cbn [length Nat.eqb];
          repeat match goal with
                 | H : ?x = _ |- context [?x] => rewrite H
                 end).

Ltac swept_tac :=
  do 2 eexists; split; [reflexivity|];
  split; cbn;
  [ done | done
  | eexists; split; [rewrite <- ?app_assoc; reflexivity | reflexivity]
  | first [ exists []; split; [symmetry; apply app_nil_r | cbn; lia]
          | eexists; split; [rewrite <- ?app_assoc; reflexivity | cbn; lia] ]
  | try (by left) ].

Section WithEnv.
Variable E : Env.

Lemma rollback_file_swept file n w :
  exists n' w', FileSystemManager.rollback_file E file n w = (Ok n', w') /\
                swept E deletable_file file n w n' w'.
Proof.
  unfold FileSystemManager.rollback_file, Fs.existsSync, Fs.unlinkSync.
  destruct (Fs.node_at (disk w) (Fs.at_path E file)) as [nd|] eqn:Hn;
    crunch; [|swept_tac].
  destruct (disk w !! Fs.at_path E file) as [[|c]|] eqn:Hk; crunch;
    [swept_tac| |destruct (Fs.at_path E file); swept_tac].
  destruct (refuses E OpUnlink (Fs.at_path E file)) eqn:Hr; crunch; swept_tac.
  right; split; [by exists c|done].
Qed.

Lemma rollback_dir_swept dir n w :
  exists n' w', FileSystemManager.rollback_dir E dir n w = (Ok n', w') /\
                swept E deletable_dir dir n w n' w'.
Proof.
  unfold FileSystemManager.rollback_dir, Fs.existsSync, Fs.readdirSync,
    Fs.rmdirSync.
  destruct (Fs.node_at (disk w) (Fs.at_path E dir)) as [[|c']|] eqn:Hn;
    crunch; [|swept_tac..].
  destruct (refuses E OpReaddir (Fs.at_path E dir)) eqn:Hr; crunch;
    [swept_tac|].
  destruct (Fs.entries (disk w) (Fs.at_path E dir)) as [|y l] eqn:He; crunch;
    [|swept_tac].
  destruct (disk w !! Fs.at_path E dir) as [[|c]|] eqn:Hk; crunch;
    [|swept_tac|destruct (Fs.at_path E dir); swept_tac].
  destruct (refuses E OpRmdir (Fs.at_path E dir)) eqn:Hr'; crunch; swept_tac.
  by right.
Qed.

Lemma elem_of_rev_1 {A} (x : A) l : x ∈ rev l -> x ∈ l.
Proof. rewrite !list_elem_of_In. apply in_rev. Qed.

Lemma pair_of_fst {A} (x : Res A * World) a : fst x = Ok a -> x = (Ok a, snd x).
Proof. destruct x as [r w]. cbn. by intros ->. Qed.

Lemma bind_run {A B} (m : M A) (k : A -> M B) w a w' :
  m w = (Ok a, w') -> bind m k w = k a w'.
Proof. unfold bind. by intros ->. Qed.

Lemma bind_throw {A B} (m : M A) (k : A -> M B) w e w' :
  m w = (Throw e, w') -> bind m k w = (Throw e, w').
Proof. unfold bind. by intros ->. Qed.

Lemma probed_app a b : probed (a ++ b) = probed a ++ probed b.
Proof. apply omap_app. Qed.

Lemma errors_app a b : errors (a ++ b) = errors a + errors b.
Proof. unfold errors. by rewrite List.filter_app, length_app. Qed.

Lemma sweep_loop del (body : string -> nat -> M nat) :
  (forall p n w, exists n' w', body p n w = (Ok n', w') /\ swept E del p n w n' w') ->
  forall l n w, exists n' w',
    forOf l body n w = (Ok n', w') /\
    createdFiles w' = createdFiles w /\
    createdDirs w' = createdDirs w /\
    probed (calls w') = probed (calls w) ++ l /\
    (exists lg, logged w' = logged w ++ lg /\ n' = n + errors lg) /\
    (forall P : gmap (list string) Node -> Prop,
        (forall p d, p ∈ l -> P d -> del d (Fs.at_path E p) ->
                     P (delete (Fs.at_path E p) d)) ->
        P (disk w) -> P (disk w')).
Proof.
  intros Hbody. induction l as [|p l IH]; intros n w; simpl.
  - exists n, w. run. split; [done|]. rewrite app_nil_r.
    repeat split; try done. exists []. rewrite app_nil_r. split; [done|]. cbn. lia.
  - destruct (Hbody p n w) as (n1 & w1 & Hrun & [Hf Hd (tl & Hc & Htl) (lg1 & Hlg1 & Hn1) Hdisk]).
    destruct (IH n1 w1) as (n2 & w2 & Hrun2 & Hf2 & Hd2 & Hc2 & (lg2 & Hlg2 & Hn2) & Hdisk2).
    exists n2, w2. unfold bind at 1. rewrite Hrun, Hrun2.
    split; [done|]. split; [congruence|]. split; [congruence|]. split.
    + rewrite Hc2, Hc, !probed_app.
      change (probed (ExistsSync p :: tl)) with (p :: probed tl).
      rewrite Htl, <- app_assoc. done.
    + split.
      * exists (lg1 ++ lg2). rewrite Hlg2, Hlg1, errors_app, <- app_assoc.
        split; [done|lia].
      * intros P HP H0. apply Hdisk2.
        -- intros q d Hq. apply HP. by apply list_elem_of_further.
        -- destruct Hdisk as [->|[Hdel ->]]; [done|].
           apply HP; [apply list_elem_of_here|done..].
Qed.

Lemma rollback_tail n w :
  ((if negb (Nat.eqb n 0)
    then logger WARN ("Rollback completed with " +:+ Str.of_nat n +:+ " errors")
    else logger SUCCESS "Rollback completed successfully") ;;
   ret JsUndefined) w =
  (Ok JsUndefined, set_logged (logged w ++ [rollback_verdict n]) w).
Proof. unfold rollback_verdict. by destruct (negb (n =? 0)%nat). Qed.

Lemma rollback_spec w :
  exists w' lg,
    FileSystemManager.rollback E w = (Ok JsUndefined, w') /\
    createdFiles w' = rev (createdFiles w) /\
    createdDirs w' = rev (createdDirs w) /\
    probed (calls w') =
      probed (calls w) ++ rev (createdFiles w) ++ rev (createdDirs w) /\
    logged w' =
      logged w ++ Log WARN "Rolling back file system changes..." :: lg ++
      [rollback_verdict (errors lg)] /\
    (forall P : gmap (list string) Node -> Prop,
        (forall p d, p ∈ createdFiles w -> P d ->
                     deletable_file d (Fs.at_path E p) ->
                     P (delete (Fs.at_path E p) d)) ->
        (forall p d, p ∈ createdDirs w -> P d ->
                     deletable_dir d (Fs.at_path E p) ->
                     P (delete (Fs.at_path E p) d)) ->
        P (disk w) -> P (disk w')).
Proof.
  unfold FileSystemManager.rollback.
  erewrite bind_run by reflexivity. erewrite bind_run by reflexivity.
  match goal with
  | |- context [bind (forOf ?l _ ?n) _ ?w0] =>
      destruct (sweep_loop _ _ rollback_file_swept l n w0)
        as (n1 & w1 & Hrun1 & Hf1 & Hd1 & Hc1 & (lg1 & Hlg1 & Hn1) & Hdisk1)
  end.
  erewrite bind_run by exact Hrun1. erewrite bind_run by reflexivity.
  match goal with
  | |- context [bind (forOf ?l _ ?n) _ ?w0] =>
      destruct (sweep_loop _ _ rollback_dir_swept l n w0)
        as (n2 & w2 & Hrun2 & Hf2 & Hd2 & Hc2 & (lg2 & Hlg2 & Hn2) & Hdisk2)
  end.
  erewrite bind_run by exact Hrun2. rewrite rollback_tail.
  cbn [set_logged set_createdDirs set_createdFiles createdFiles createdDirs
       calls logged disk] in *.
  eexists _, (lg1 ++ lg2). split; [reflexivity|].
  cbn [set_logged createdFiles createdDirs calls logged disk].
  split; [by rewrite Hf2, Hf1|]. split; [by rewrite Hd2, Hd1|]. split.
  { rewrite Hc2, Hc1, Hd1, <- app_assoc. done. }
  split.
  { rewrite Hlg2, Hlg1. rewrite errors_app.
    replace (errors lg1 + errors lg2) with n2 by lia.
    by rewrite <- !app_assoc. }
  intros P HPf HPd H0. apply Hdisk2.
  - intros p d Hp. apply HPd. rewrite Hd1 in Hp. by apply elem_of_rev_1 in Hp.
  - apply Hdisk1; [|done].
    intros p d Hp. apply HPf. by apply elem_of_rev_1 in Hp.
Qed.
End WithEnv.

(** ** Relations kept by computations *)

Section Keeps.
Context (R : World -> World -> Prop) `{!PreOrder R}.

Lemma keeps_ret {A} (a : A) : keeps R (ret a).
Proof. intros w. reflexivity. Qed.

Lemma keeps_throw {A} e : keeps R (@throw A e).
Proof. intros w. reflexivity. Qed.

Lemma keeps_lift {A} (r : Res A) : keeps R (lift r).
Proof. intros w. reflexivity. Qed.

Lemma keeps_bind {A B} (m : M A) (k : A -> M B) :
  keeps R m -> (forall a, keeps R (k a)) -> keeps R (bind m k).
Proof.
  intros Hm Hk w. unfold bind. specialize (Hm w).
  destruct (m w) as [[a|e] w1]; [|exact Hm].
  etransitivity; [exact Hm|apply Hk].
Qed.

Lemma keeps_try_catch {A} (m : M A) (h : JsError -> M A) :
  keeps R m -> (forall e, keeps R (h e)) -> keeps R (try_catch m h).
Proof.
  intros Hm Hh w. unfold try_catch. specialize (Hm w).
  destruct (m w) as [[a|e] w1]; [exact Hm|].
  etransitivity; [exact Hm|apply Hh].
Qed.

Lemma keeps_forOf {A S} (l : list A) (body : A -> S -> M S) :
  (forall x a, x ∈ l -> keeps R (body x a)) -> forall acc, keeps R (forOf l body acc).
Proof.
  induction l as [|x l IH]; intros Hb acc; simpl.
  - apply keeps_ret.
  - apply keeps_bind; [apply Hb, list_elem_of_here|].
    intros a. apply IH. intros y b Hy. by apply Hb, list_elem_of_further.
Qed.

Lemma keeps_if {A} (b : bool) (m1 m2 : M A) :
  keeps R m1 -> keeps R m2 -> keeps R (if b then m1 else m2).
Proof. by destruct b. Qed.

End Keeps.

Lemma keeps_weaken {A} (R R' : World -> World -> Prop) (m : M A) :
  (forall w w', R w w' -> R' w w') -> keeps R m -> keeps R' m.
Proof. intros H Hm w. apply H, Hm. Qed.

(** Breaking a computation into its steps. *)
Ltac keeps_split :=
  lazymatch goal with
  | |- keeps ?R (bind _ _) => apply (keeps_bind R)
  | |- keeps ?R (try_catch _ _) => apply (keeps_try_catch R)
  | |- keeps ?R (forOf _ _ _) => apply (keeps_forOf R)
  end.

Ltac keeps_leaf :=
  lazymatch goal with
  | |- keeps ?R (ret _) => apply (keeps_ret R)
  | |- keeps ?R (throw _) => apply (keeps_throw R)
  | |- keeps ?R (lift _) => apply (keeps_lift R)
  end.

(** ** The ledger and the log *)

Lemma files_logged_app a b : files_logged (a ++ b) = files_logged a ++ files_logged b.
Proof. apply omap_app. Qed.
Lemma dirs_logged_app a b : dirs_logged (a ++ b) = dirs_logged a ++ dirs_logged b.
Proof. apply omap_app. Qed.

#[local] Instance quiet_preorder : PreOrder quiet.
Proof.
  split.
  - intros w. repeat split. exists []. by rewrite app_nil_r.
  - intros w1 w2 w3 (Hf1 & Hd1 & lg1 & Hl1 & Hfl1 & Hdl1) (Hf2 & Hd2 & lg2 & Hl2 & Hfl2 & Hdl2).
    split; [congruence|]. split; [congruence|].
    exists (lg1 ++ lg2).
    rewrite Hl2, Hl1, <- app_assoc, files_logged_app, dirs_logged_app.
    rewrite Hfl1, Hfl2, Hdl1, Hdl2.
    done.
Qed.

#[local] Instance recorded_preorder : PreOrder recorded.
Proof.
  split.
  - intros w. exists []. cbn. by rewrite !app_nil_r.
  - intros w1 w2 w3 (lg1 & Hl1 & Hf1 & Hd1) (lg2 & Hl2 & Hf2 & Hd2).
    exists (lg1 ++ lg2).
    rewrite Hl2, Hl1, Hf2, Hf1, Hd2, Hd1, files_logged_app, dirs_logged_app, <- !app_assoc.
    done.
Qed.

Lemma quiet_recorded w w' : quiet w w' -> recorded w w'.
Proof.
  intros (Hf & Hd & lg & Hl & Hfl & Hdl). exists lg.
  by rewrite Hfl, Hdl, !app_nil_r.
Qed.

Lemma quiet_same w w' :
  createdFiles w' = createdFiles w -> createdDirs w' = createdDirs w ->
  logged w' = logged w -> quiet w w'.
Proof. intros ? ? Hl. repeat split; try done. exists []. by rewrite app_nil_r. Qed.

Lemma keeps_quiet_called c : keeps quiet (called c).
Proof. intros w. by apply quiet_same. Qed.

Lemma keeps_quiet_logger l msg : l <> DEBUG -> keeps quiet (logger l msg).
Proof.
  intros Hl w. repeat split. exists [Log l msg]. split; [done|].
  unfold files_logged, dirs_logged. cbn. unfold debug_line. cbn.
  by destruct l.
Qed.

Section WithEnv.
Variable E : Env.

Lemma keeps_quiet_existsSync p : keeps quiet (Fs.existsSync E p).
Proof. intros w. by apply quiet_same. Qed.

(** [createDirectory] records what it reports. *)
Lemma createDirectory_recorded p recursive :
  keeps recorded (FileSystemManager.createDirectory E p recursive).
Proof.
  unfold FileSystemManager.createDirectory.
  keeps_split.
  2:{ intros e. apply (keeps_weaken quiet); [apply quiet_recorded|].
      keeps_split; [by apply keeps_quiet_logger|intros ?; keeps_leaf]. }
  keeps_split; [keeps_leaf|]. intros s.
  keeps_split;
    [apply (keeps_weaken quiet); [apply quiet_recorded|apply keeps_quiet_existsSync]|].
  intros present. keeps_split; [|intros ?; keeps_leaf].
  destruct present; cbn [negb]; [keeps_leaf|].
  intros w. unfold Fs.mkdirSync. run.
  destruct (Fs.mkdir_result E s recursive _) as [[[]|e'] d]; run.
  - exists [Log DEBUG ("Created directory: " +:+ s)].
    split; [done|]. split; cbn; [by rewrite app_nil_r|done].
  - apply quiet_recorded. by apply quiet_same.
Qed.

(** [writeFile] records what it reports. *)
Lemma writeFile_recorded p content :
  keeps recorded (FileSystemManager.writeFile E p content).
Proof.
  unfold FileSystemManager.writeFile.
  keeps_split.
  2:{ intros e. apply (keeps_weaken quiet); [apply quiet_recorded|].
      keeps_split; [by apply keeps_quiet_logger|intros ?; keeps_leaf]. }
  keeps_split; [keeps_leaf|]. intros s.
  keeps_split;
    [apply (keeps_weaken quiet); [apply quiet_recorded|apply keeps_quiet_existsSync]|].
  intros present. keeps_split.
  { destruct present; cbn [negb]; [keeps_leaf|].
    keeps_split; [apply createDirectory_recorded|intros ?; keeps_leaf]. }
  intros _ w. unfold Fs.writeFileSync. run.
  destruct (Fs.at_path E s) as [|x k] eqn:Hk; run;
    [apply quiet_recorded; by apply quiet_same|].
  destruct (Fs.node_at (disk w) (removelast (x :: k))) as [[|c]|]; run;
    try (apply quiet_recorded; by apply quiet_same).
  destruct (disk w !! (x :: k)) as [[|c]|];
    try destruct (refuses E OpWrite (x :: k)); run;
    try (apply quiet_recorded; by apply quiet_same).
  all: exists [Log DEBUG ("Created file: " +:+ s)];
    (split; [done|]); split; cbn; [done|by rewrite app_nil_r].
Qed.

Lemma perform_all_recorded ops : keeps recorded (perform_all E ops).
Proof.
  unfold perform_all. keeps_split. intros o _ _.
  keeps_split; [|intros ?; keeps_leaf].
  keeps_split; [|intros ?; keeps_leaf].
  destruct o; [apply createDirectory_recorded|apply writeFile_recorded].
Qed.

End WithEnv.

(** ** What a directory holds *)

Lemma entries_child (d : gmap (list string) Node) k name :
  is_Some (d !! (k ++ [name])) -> Fs.entries d k <> [].
Proof.
  intros [v Hv] Hnil.
  assert (name ∈ Fs.entries d k) as Hin.
  { apply list_elem_of_omap. exists (k ++ [name], v). split.
    - by apply elem_of_map_to_list.
    - unfold Fs.child_name. cbn. rewrite last_snoc.
      by rewrite decide_True. }
  rewrite Hnil in Hin. by apply not_elem_of_nil in Hin.
Qed.

Section WithEnv.
Variable E : Env.

Lemma rollback_order_spec w :
  rollback_order E w = rev (createdFiles w) ++ rev (createdDirs w).
Proof.
  unfold rollback_order.
  destruct (rollback_spec E w) as (w' & lg & Hrun & _ & _ & Hc & _).
  rewrite Hrun. cbn [snd]. rewrite Hc. apply drop_app_length.
Qed.

(** What is not in the ledger is where it was after [rollback]. *)
Lemma rollback_foreign w k :
  (forall p, p ∈ createdFiles w ++ createdDirs w -> Fs.at_path E p <> k) ->
  disk (snd (FileSystemManager.rollback E w)) !! k = disk w !! k.
Proof.
  intros Hk.
  destruct (rollback_spec E w) as (w' & lg & Hrun & _ & _ & _ & _ & Hinv).
  rewrite Hrun. cbn [snd].
  apply (Hinv (fun d => d !! k = disk w !! k)); [| |done].
  - intros p d Hp Hd _. rewrite lookup_delete_ne; [done|].
    apply Hk, elem_of_app. by left.
  - intros p d Hp Hd _. rewrite lookup_delete_ne; [done|].
    apply Hk, elem_of_app. by right.
Qed.

(** A directory that holds something foreign to the ledger stays. *)
Lemma rollback_keeps_home w d name :
  disk w !! d = Some Dir ->
  is_Some (disk w !! (d ++ [name])) ->
  (forall p, p ∈ createdFiles w ++ createdDirs w -> Fs.at_path E p <> d ++ [name]) ->
  disk (snd (FileSystemManager.rollback E w)) !! d = Some Dir.
Proof.
  intros Hd Hc Hk.
  destruct (rollback_spec E w) as (w' & lg & Hrun & _ & _ & _ & _ & Hinv).
  rewrite Hrun. cbn [snd].
  apply (Hinv (fun m => m !! d = Some Dir /\ is_Some (m !! (d ++ [name]))));
    [| |done].
  - intros p m Hp [Hmd Hmc] [c Hdel].
    assert (Fs.at_path E p <> d) by (intros Heq; rewrite Heq in Hdel; congruence).
    assert (Fs.at_path E p <> d ++ [name])
      by (apply Hk, elem_of_app; by left).
    by rewrite !lookup_delete_ne.
  - intros p m Hp [Hmd Hmc] [Hdir Hempty].
    assert (Fs.at_path E p <> d).
    { intros Heq. rewrite Heq in Hempty. by eapply entries_child. }
    assert (Fs.at_path E p <> d ++ [name])
      by (apply Hk, elem_of_app; by right).
    by rewrite !lookup_delete_ne.
Qed.

Lemma recorded_drop w w' :
  recorded w w' ->
  createdFiles w' = createdFiles w ++ files_logged (drop (length (logged w)) (logged w')) /\
  createdDirs w' = createdDirs w ++ dirs_logged (drop (length (logged w)) (logged w')).
Proof.
  intros (lg & Hl & Hf & Hd). rewrite Hl, drop_app_length. done.
Qed.

End WithEnv.

(** ** Rollback reporting *)

(** C3, as worded, fails: with a file that cannot be unlinked, the entry
    stays on disk and the caller of [rollback] gets [undefined]. *)
Lemma C3_counterexample : ~ rollback_reports_to_caller stubborn littered.
Proof.
  unfold rollback_reports_to_caller.
  destruct (FileSystemManager.rollback stubborn littered) as [r w'] eqn:Hrun.
  assert (r = fst (FileSystemManager.rollback stubborn littered)) as Hr
    by (by rewrite Hrun).
  assert (w' = snd (FileSystemManager.rollback stubborn littered)) as Hw
    by (by rewrite Hrun).
  intros [Hgone|(n & _ & Hn)].
  - specialize (Hgone "f.txt"). rewrite Hw in Hgone. vm_compute in Hgone.
    discriminate Hgone. apply list_elem_of_here.
  - rewrite Hr in Hn. vm_compute in Hn. discriminate Hn.
Qed.

(** A directory of the ledger that is not empty is passed over without a
    word: it stays, and the log ends on a success. *)
Example rollback_passes_over_full_directory :
  let r := FileSystemManager.rollback (host 0 false) visited in
  fst r = Ok JsUndefined /\
  disk (snd r) !! ["home"; "u"; "keep"] = Some Dir /\
  last (logged (snd r)) = Some (Log SUCCESS "Rollback completed successfully").
Proof.
  split; [vm_compute; reflexivity|].
  split; vm_compute; reflexivity.
Qed.

(** C3, amended: [rollback] always returns to its caller, with [undefined]
    and never with an exception; it asks the disk about every entry of the
    ledger, files first and directories next, each list from its end, so no
    failure stops the sweep; and the number of failed deletions goes to the
    log only, in the last line, which counts the error lines logged. *)
Theorem C3_rollback_reports_to_log (E : Env) (w : World) :
  exists w' lg,
    FileSystemManager.rollback E w = (Ok JsUndefined, w') /\
    rollback_order E w = rev (createdFiles w) ++ rev (createdDirs w) /\
    logged w' =
      logged w ++ Log WARN "Rolling back file system changes..." :: lg ++
      [rollback_verdict (errors lg)].
Proof.
  destruct (rollback_spec E w) as (w' & lg & Hrun & _ & _ & _ & Hlog & _).
  exists w', lg. split; [done|]. split; [apply rollback_order_spec|done].
Qed.

(** ** Ledger ordering and safe deletion *)

(** C4, as worded, fails on its first part: a file written before a
    directory is created is still rolled back before that directory. *)
Lemma C4_counterexample :
  ~ reverse_creation_order (host 0 false)
      [WriteFile "a/f.txt" "x"; CreateDirectory "b"] home.
Proof.
  unfold reverse_creation_order. vm_compute. discriminate.
Qed.

(** C4, amended: after any sequence of [createDirectory] and [writeFile]
    calls, each of the two lists of the ledger holds what was created, in
    the order of creation; [rollback] goes through the files from the last
    created to the first, then through the directories likewise; one turn of
    the directory loop removes the directory only when it is empty at that
    moment; whatever lies at a path that is not in the ledger is untouched,
    and a directory holding such a thing stays. *)
Theorem C4_rollback_order_and_safety (E : Env) (ops : list Op) (w : World) :
  let w1 := snd (perform_all E ops w) in
  let w2 := snd (FileSystemManager.rollback E w1) in
  let lg := drop (length (logged w)) (logged w1) in
  createdFiles w1 = createdFiles w ++ files_logged lg /\
  createdDirs w1 = createdDirs w ++ dirs_logged lg /\
  rollback_order E w1 = rev (createdFiles w1) ++ rev (createdDirs w1) /\
  (forall dir n w0,
      let w0' := snd (FileSystemManager.rollback_dir E dir n w0) in
      disk w0' = disk w0 \/
      (deletable_dir (disk w0) (Fs.at_path E dir) /\
       disk w0' = delete (Fs.at_path E dir) (disk w0))) /\
  (forall k,
      (forall p, p ∈ createdFiles w1 ++ createdDirs w1 -> Fs.at_path E p <> k) ->
      disk w2 !! k = disk w1 !! k) /\
  (forall d name,
      disk w1 !! d = Some Dir ->
      is_Some (disk w1 !! (d ++ [name])) ->
      (forall p, p ∈ createdFiles w1 ++ createdDirs w1 ->
                 Fs.at_path E p <> d ++ [name]) ->
      disk w2 !! d = Some Dir).
Proof.
  intros w1 w2 lg.
  destruct (recorded_drop _ _ (perform_all_recorded E ops w)) as [Hf Hd].
  split; [exact Hf|]. split; [exact Hd|].
  split; [apply rollback_order_spec|]. split.
  - intros dir n w0.
    destruct (rollback_dir_swept E dir n w0) as (n' & w0' & Hrun & Hs).
    rewrite Hrun. cbn. apply Hs.
  - split.
    + intros k. apply rollback_foreign.
    + intros d name. apply rollback_keeps_home.
Qed.

(** The user's note and the directory it is in outlive the rollback of what
    was generated next to it. *)
Lemma C4_witness :
  let w1 := snd (perform_all (host 0 false)
                   [CreateDirectory "keep/sub"; WriteFile "keep/gen.txt" "x"]
                   lived_in) in
  let w2 := snd (FileSystemManager.rollback (host 0 false) w1) in
  createdFiles w1 = ["keep/gen.txt"] /\ createdDirs w1 = ["keep/sub"] /\
  disk w2 !! ["home"; "u"; "keep"; "note.txt"] = Some (File "mine") /\
  disk w2 !! ["home"; "u"; "keep"] = Some Dir /\
  disk w2 !! ["home"; "u"; "keep"; "gen.txt"] = None /\
  disk w2 !! ["home"; "u"; "keep"; "sub"] = None.
Proof.
  intros w1 w2.
  destruct (C4_rollback_order_and_safety (host 0 false)
              [CreateDirectory "keep/sub"; WriteFile "keep/gen.txt" "x"] lived_in)
    as (Hf & Hd & _ & _ & Hforeign & Hhome).
  subst w1 w2.
  split; [exact Hf|]. split; [exact Hd|]. split.
  - rewrite (Hforeign ["home"; "u"; "keep"; "note.txt"]); [reflexivity|].
    intros p Hp. vm_compute in Hp.
    apply list_elem_of_In in Hp. destruct Hp as [<-|[<-|[]]]; vm_compute; discriminate.
  - split.
    + apply (Hhome ["home"; "u"; "keep"] "note.txt"); [reflexivity|by eexists|].
      intros p Hp. vm_compute in Hp.
      apply list_elem_of_In in Hp. destruct Hp as [<-|[<-|[]]]; vm_compute; discriminate.
    + split; reflexivity.
Defined.

(** ** Creating a directory twice *)


Section WithEnv.
Variable E : Env.

Lemma mkdir_result_ok s recursive w d' :
  Fs.mkdir_result E s recursive w = (Ok tt, d') ->
  Fs.node_at d' (Fs.at_path E s) = Some Dir.
Proof.
  unfold Fs.mkdir_result. destruct recursive.
  - apply (mkdir_walk_ok E s (Fs.at_path E s) []). done.
  - apply mkdir_one_ok.
Qed.

End WithEnv.



(** ** Path sanitization *)

Lemma sanitizePath_cases p :
  (Str.includes ".." (Path.normalize p) = true /\
   Validator.sanitizePath p = Throw (Error "Path traversal detected")) \/
  (Str.includes ".." (Path.normalize p) = false /\
   Validator.sanitizePath p = Ok (Path.normalize p)).
Proof.
  unfold Validator.sanitizePath.
  destruct (Str.includes ".." (Path.normalize p)); [by left|by right].
Qed.

(** A relative path without parent segment resolves below the working
    directory. *)
Lemma resolve_below cwd s :
  Str.starts_with_slash s = false ->
  ~ has_parent_segment s ->
  Path.resolve cwd s =
  Path.normalizeSegs false (Str.split cwd) ++ List.filter Path.plain (Str.split s).
Proof.
  intros Hrel Hno. unfold Path.resolve, Path.normalizeSegs. rewrite Hrel.
  rewrite fold_left_app, fold_norm_no_parent by exact Hno.
  by rewrite rev_app_distr, rev_involutive.
Qed.

(** C6, as worded, fails in its general part: [sub/notes..txt] is rejected
    although its normal form, itself, has no parent-directory segment. *)
Lemma C6_counterexample : ~ rejects_exactly_escapes "sub/notes..txt".
Proof.
  unfold rejects_exactly_escapes, has_parent_segment. intros [Hiff _].
  assert (In ".." (Str.split (Path.normalize "sub/notes..txt"))) as Hin
    by (apply Hiff; eexists; reflexivity).
  vm_compute in Hin. destruct Hin as [H|[H|[]]]; discriminate H.
Qed.

(** C6, amended: [../../etc] is rejected and [sub/dir] is accepted as
    itself; a path is rejected exactly when its normal form contains two
    dots in a row anywhere, which covers every normal form with a
    parent-directory segment; an accepted path comes back in normal form,
    without parent-directory segment, and if it is relative it resolves to
    the working directory followed by its own segments. *)
Theorem C6_sanitizePath_rejection (p : string) :
  Validator.sanitizePath "../../etc" = Throw (Error "Path traversal detected") /\
  Validator.sanitizePath "sub/dir" = Ok "sub/dir" /\
  (Validator.sanitizePath p = Throw (Error "Path traversal detected") <->
   Str.includes ".." (Path.normalize p) = true) /\
  (has_parent_segment (Path.normalize p) ->
   Validator.sanitizePath p = Throw (Error "Path traversal detected")) /\
  (forall s, Validator.sanitizePath p = Ok s ->
     s = Path.normalize p /\
     ~ has_parent_segment s /\
     (Str.starts_with_slash s = false ->
      forall cwd, Path.resolve cwd s =
                  Path.normalizeSegs false (Str.split cwd) ++
                  List.filter Path.plain (Str.split s))).
Proof.
  split; [reflexivity|]. split; [reflexivity|].
  destruct (sanitizePath_cases p) as [[Hinc Hs]|[Hinc Hs]]; rewrite Hs, Hinc.
  - split; [done|]. split; [done|]. intros s [=].
  - split; [split; intros [=]|]. split.
    + intros Hseg. apply parent_segment_includes in Hseg. congruence.
    + intros s [= <-].
      assert (~ has_parent_segment (Path.normalize p)) as Hno.
      { intros Hseg. apply parent_segment_includes in Hseg. congruence. }
      split; [done|]. split; [done|].
      intros Hrel cwd. by apply resolve_below.
Qed.

(** A path that goes up and comes back is accepted in normal form and
    lands below the working directory. *)
Lemma C6_witness :
  Validator.sanitizePath "a/../sub/./dir" = Ok "sub/dir" /\
  ~ has_parent_segment "sub/dir" /\
  Path.resolve "/home/u" "sub/dir" = ["home"; "u"; "sub"; "dir"].
Proof.
  destruct (C6_sanitizePath_rejection "a/../sub/./dir") as (_ & _ & _ & _ & H).
  destruct (H "sub/dir" eq_refl) as (_ & Hno & Hbelow).
  split; [reflexivity|]. split; [exact Hno|].
  exact (Hbelow eq_refl "/home/u").
Defined.

(** C10: a file name with two dots in a row is taken for a path traversal,
    and [createDirectory] and [writeFile] fail on it whatever the disk
    holds, leaving the disk and the ledger as they were. *)
Theorem C10_sanitizePath_over_rejects :
  exists p,
    ~ has_parent_segment (Path.normalize p) /\
    Str.includes ".." (Path.normalize p) = true /\
    Validator.sanitizePath p = Throw (Error "Path traversal detected") /\
    (forall E recursive w,
        let r := FileSystemManager.createDirectory E p recursive w in
        fst r = Throw (Error "Directory creation failed: Path traversal detected") /\
        disk (snd r) = disk w /\ createdDirs (snd r) = createdDirs w) /\
    (forall E content w,
        let r := FileSystemManager.writeFile E p content w in
        fst r = Throw (Error "File write failed: Path traversal detected") /\
        disk (snd r) = disk w /\ createdFiles (snd r) = createdFiles w).
Proof.
  exists "sub/notes..txt".
  assert (Validator.sanitizePath "sub/notes..txt" =
          Throw (Error "Path traversal detected")) as Hs by reflexivity.
  split.
  { unfold has_parent_segment. vm_compute.
    intros [H|[H|[]]]; discriminate H. }
  split; [reflexivity|]. split; [exact Hs|]. split.
  - intros E recursive w. unfold FileSystemManager.createDirectory.
    rewrite Hs. run. done.
  - intros E content w. unfold FileSystemManager.writeFile.
    rewrite Hs. run. done.
Qed.

(** ** One installation *)

Import PackageManager.

#[local] Instance handled_preorder : PreOrder handled.
Proof.
  split.
  - intros w. split; [done|]. split; [done|]. split; [done|]. reflexivity.
  - intros w1 w2 w3 (Hc1 & Hd1 & Hl1 & Hq1) (Hc2 & Hd2 & Hl2 & Hq2).
    split; [congruence|]. split; [congruence|]. split; [congruence|].
    by etransitivity.
Qed.

Lemma handled_logger l msg : l <> DEBUG -> keeps handled (logger l msg).
Proof.
  intros Hl w. split; [done|]. split; [done|]. split; [done|].
  by apply keeps_quiet_logger.
Qed.

Lemma handled_set_status pid s : keeps handled (set_status pid s).
Proof.
  intros w. split; [done|]. split; [done|]. split.
  - cbn. apply length_alter.
  - by apply quiet_same.
Qed.

Lemma handled_installed l :
  keeps handled (fun w => (Ok tt, set_installedPackages (installedPackages w ++ l) w)).
Proof.
  intros w. split; [done|]. split; [done|]. split; [done|]. by apply quiet_same.
Qed.

Lemma handle_keeps pid packages ev st : keeps handled (handle pid packages ev st).
Proof.
  destruct ev; cbn [handle]; try keeps_leaf.
  - keeps_split; [apply handled_set_status|intros _].
    destruct (code =? 0)%nat.
    + keeps_split; [apply handled_installed|intros _].
      keeps_split; [by apply handled_logger|intros _; keeps_leaf].
    + keeps_split; [by apply handled_logger|intros _; keeps_leaf].
  - keeps_split; [apply handled_set_status|intros _].
    keeps_split; [by apply handled_logger|intros _; keeps_leaf].
  - destruct (timer_armed st); keeps_leaf.
Qed.

Lemma deliver_settled pid packages evs st r w :
  settled st = Some r -> deliver pid packages evs st w = (Ok st, w).
Proof. intros H. destruct evs; cbn; by rewrite H. Qed.

(** An event that ends the wait. *)
Lemma handle_ends pid packages ev evs out err w :
  match ev with Close _ | ErrorEvent _ | TimerElapsed => True | _ => False end ->
  exists st1 w1,
    handle pid packages ev (mkPending None true out err) w = (Ok st1, w1) /\
    settled st1 = Some (verdict (ev :: evs) out err).
Proof.
  destruct ev; try done; intros _; cbn [handle verdict].
  - destruct (code =? 0)%nat; run; eexists _, _; split; reflexivity.
  - run. eexists _, _; split; reflexivity.
  - run. eexists _, _; split; reflexivity.
Qed.

(** The promise settles as [verdict] says. *)
Lemma deliver_verdict pid packages evs : forall st w,
  settled st = None -> timer_armed st = true ->
  exists st' w',
    deliver pid packages evs st w = (Ok st', w') /\
    settled st' = Some (verdict evs (stdout st) (stderr st)) /\
    handled w w'.
Proof.
  induction evs as [|ev evs IH]; intros st w Hs Ht.
  - destruct st as [se ta out err]. cbn in Hs, Ht. subst.
    eexists _, w. cbn. split; [reflexivity|]. split; [reflexivity|]. reflexivity.
  - pose proof (handle_keeps pid packages ev st w) as Hk.
    destruct st as [se ta out err]. cbn in Hs, Ht. subst.
    cbn [deliver settled stdout stderr].
    destruct ev.
    1,2: erewrite bind_run by reflexivity; by apply IH.
    all: edestruct (handle_ends pid packages) as (st1 & w1 & Hrun & Hset);
      [|rewrite Hrun in Hk; erewrite bind_run by exact Hrun;
        erewrite deliver_settled by exact Hset;
        exists st1, w1; split; [reflexivity|]; split; [exact Hset|exact Hk]];
      exact I.
Qed.

Section WithEnv.
Variable E : Env.

(** One call of [PackageManager.installDependencies]: one child started,
    and the promise ends as the child's events say. *)
Lemma install_spec projectDir deps dev w :
  let args := npm_args deps dev in
  exists w',
    installDependencies E projectDir deps dev w =
      (verdict (child_events E (length (children w)) args) EmptyString EmptyString, w') /\
    calls w' = calls w ++ [Spawn "npm" args projectDir] /\
    length (children w') = S (length (children w)) /\
    disk w' = disk w /\ quiet w w'.
Proof.
  intros args. unfold installDependencies.
  erewrite bind_run by reflexivity. erewrite bind_run by reflexivity.
  erewrite bind_run by reflexivity.
  match goal with
  | |- context [bind (deliver ?pid ?pk ?evs ?st) _ ?w0] =>
      destruct (deliver_verdict pid pk evs st w0 eq_refl eq_refl)
        as (st' & w' & Hrun & Hset & Hc & Hd & Hl & Hq)
  end.
  erewrite bind_run by exact Hrun. rewrite Hset.
  exists w'. split; [reflexivity|]. cbn in Hc, Hd, Hl.
  split; [exact Hc|]. split; [by rewrite Hl, length_app, Nat.add_comm|].
  split; [exact Hd|].
  etransitivity; [|exact Hq].
  transitivity (set_logged (logged w ++
     [Log INFO ("Installing: " +:+ String.concat ", " (packages_of deps))]) w).
  - by apply keeps_quiet_logger.
  - by apply quiet_same.
Qed.

End WithEnv.

(** ** Timeout *)


Lemma verdict_timer_first evs : forall out err,
  timer_first evs = true -> verdict evs out err = Throw timeout_error.
Proof.
  induction evs as [|[] evs IH]; intros out err H; cbn in *;
    try done; by apply IH.
Qed.




(** ** The installation stage *)

Import PackageManager.

Lemma spawned_app a b : spawned (a ++ b) = spawned a ++ spawned b.
Proof. apply omap_app. Qed.

Section WithEnv.
Variable E : Env.




(** The stage does what its list of steps says. *)
Lemma installDependencies_exec config w :
  ProjectGenerator.installDependencies E config w =
  exec E (Path.join (cwd E) (projectName config)) (install_steps config) w.
Proof.
  unfold ProjectGenerator.installDependencies, install_steps, exec,
    ProjectGenerator.when.
  destruct (ProjectGenerator.is_ejs config),
    (String.eqb (useDB config) "MySQL"),
    (String.eqb (useDB config) "PostgreSQL"),
    (String.eqb (useDB config) "MongoDB"),
    (features_authentication config), (features_linter config);
    cbn [app forOf]; run;
    repeat (match goal with
            | |- context [installDependencies E ?d ?a ?b ?w0] =>
                destruct (installDependencies E d a b w0) as [[?|?] ?]
            end; run);
    reflexivity.
Qed.

End WithEnv.




(** ** The pipeline *)

Section WithEnv.
Variable E : Env.

(** The [try] block is the three stages that can fail the run, then the
    post-generation hook and the closing line. *)
Lemma stages_after_build config w :
  ProjectGenerator.stages E config w =
  match build E config w with
  | (Ok _, w3) =>
      (ProjectGenerator.postGeneration E config ;;
       logger SUCCESS ("Project generated in " +:+ duration E +:+ "s") ;;
       ret (JsBool true)) w3
  | (Throw e, w3) => (Throw e, w3)
  end.
Proof.
  unfold ProjectGenerator.stages, build, bind.
  destruct (logger INFO "Starting project generation..." w) as [[[]|e0] w0];
    [|reflexivity].
  destruct (ProjectGenerator.createStructure E config w0) as [[[]|e1] w1];
    [|reflexivity].
  destruct (ProjectGenerator.generateFiles E config w1) as [[[]|e2] w2];
    [|reflexivity].
  destruct (ProjectGenerator.installDependencies E config w2) as [[[]|e3] w3];
    reflexivity.
Qed.

End WithEnv.

(** C8: with git initialisation asked for and [git init] failing, a run
    whose three stages succeeded returns [true]; on top of what the stages
    left, it has only called [git init] and logged three lines, the failure
    as a warning: no rollback, the disk and the ledger are as the stages
    left them. *)
Theorem C8_git_failure_is_advisory (E : Env) (config : Config) (w w3 : World) :
  initGit config = true ->
  git_init_fails E = true ->
  build E config w = (Ok tt, w3) ->
  ProjectGenerator.generate E config w =
    (Ok (JsBool true),
     mkWorld (disk w3) (createdFiles w3) (createdDirs w3) (installedPackages w3)
       (children w3)
       (logged w3 ++
        [Log INFO "Running post-generation tasks...";
         Log WARN "Could not initialize git repository";
         Log SUCCESS ("Project generated in " +:+ duration E +:+ "s")])
       (calls w3 ++ [ExecSync "git init" (Path.join (cwd E) (projectName config))])).
Proof.
  intros Hgit Hfail Hbuild.
  unfold ProjectGenerator.generate, try_catch.
  rewrite stages_after_build, Hbuild.
  unfold ProjectGenerator.postGeneration, ProjectGenerator.git_init.
  rewrite Hgit, Hfail. run.
  destruct (Fs.node_at (disk w3) _) as [[|c]|]; run;
    by rewrite <- !app_assoc.
Qed.

(** The minimal project with git initialisation, [git init] failing: the
    run succeeds and the generated files are on disk. *)
Lemma C8_witness :
  let r := ProjectGenerator.generate (host 0 true) demo_git home in
  fst r = Ok (JsBool true) /\
  disk (snd r) !! ["home"; "u"; "demo"; "package.json"] = Some (File "generated") /\
  disk (snd r) !! ["home"; "u"; "demo"; "src"; "routes"; "index.js"] = Some (File "generated") /\
  length (createdFiles (snd r)) = 11 /\ length (createdDirs (snd r)) = 11.
Proof.
  intros r. subst r.
  assert (fst (build (host 0 true) demo_git home) = Ok tt) as Hfst
    by (vm_compute; reflexivity).
  pose proof (C8_git_failure_is_advisory (host 0 true) demo_git home _
             eq_refl eq_refl (pair_of_fst _ _ Hfst)) as HH.
  rewrite HH.
  split; [reflexivity|].
  split; [vm_compute; reflexivity|].
  split; [vm_compute; reflexivity|].
  split; vm_compute; reflexivity.
Defined.

(** ** All or nothing *)

(** When [generate] fails, what lies at a path that is not in the ledger is
    after the rollback as the failed stages left it: so are the directories
    that [mkdirSync] created on the way to the ones it was asked for. *)
Lemma generate_failure_spares_unrecorded (E : Env) (config : Config)
    (w w1 : World) (e : JsError) (k : list string) :
  ProjectGenerator.stages E config w = (Throw e, w1) ->
  (forall p, p ∈ createdFiles w1 ++ createdDirs w1 -> Fs.at_path E p <> k) ->
  fst (ProjectGenerator.generate E config w) = Throw e /\
  disk (snd (ProjectGenerator.generate E config w)) !! k = disk w1 !! k.
Proof.
  intros Hst Hk. unfold ProjectGenerator.generate, try_catch. rewrite Hst.
  erewrite bind_run by reflexivity.
  match goal with
  | |- context [bind (FileSystemManager.rollback E) _ ?w0] =>
      pose proof (rollback_foreign E w0 k Hk) as Hdisk;
      destruct (FileSystemManager.rollback E w0) as [[v|e'] w2] eqn:Hrun
  end.
  - erewrite bind_run by exact Hrun. split; [reflexivity|exact Hdisk].
  - erewrite bind_throw by exact Hrun.
    destruct (rollback_spec E (set_logged
                (logged w1 ++ [Log ERROR "Project generation failed"]) w1))
      as (w' & lg & Hrun' & _).
    congruence.
Qed.

(** C1 does not hold of the code.  In the minimal run with the first
    [npm install] failing, [generate] fails with that error and rollback
    removes every entry of the ledger without an error; but [mkdirSync] had
    also created [demo], [demo/src] and [demo/public] on the way to the
    directories asked for, these were never put in the ledger, and they are
    still there. *)
Theorem C1_root_left_behind :
  let r := ProjectGenerator.generate (host 1 false) demo home in
  let root := ["home"; "u"; "demo"] in
  fst r = Throw (Error "Package installation failed: ") /\
  disk (snd r) !! root = Some Dir /\
  disk (snd r) !! (root ++ ["src"]) = Some Dir /\
  disk (snd r) !! (root ++ ["public"]) = Some Dir /\
  length (Fs.entries (disk (snd r)) root) = 2 /\
  forallb (fun p => bool_decide (disk (snd r) !! Fs.at_path (host 1 false) p = None))
          (createdFiles (snd r) ++ createdDirs (snd r)) = true /\
  last (logged (snd r)) = Some (Log SUCCESS "Rollback completed successfully") /\
  ~ root_gone_or_empty (host 1 false) demo home.
Proof.
  intros r root. subst r root.
  split; [vm_compute; reflexivity|].
  split; [vm_compute; reflexivity|].
  split; [vm_compute; reflexivity|].
  split; [vm_compute; reflexivity|].
  split; [vm_compute; reflexivity|].
  split; [vm_compute; reflexivity|].
  split; [vm_compute; reflexivity|].
  unfold root_gone_or_empty. vm_compute. intros H.
  destruct (H (ex_intro _ _ eq_refl)) as [H1|H1]; discriminate H1.
Qed.

(** ** The life of the ledger *)

Section WithEnv.
Variable E : Env.

Lemma install_quiet projectDir deps dev :
  keeps quiet (PackageManager.installDependencies E projectDir deps dev).
Proof.
  intros w. destruct (install_spec E projectDir deps dev w) as (w' & Hrun & _ & _ & _ & Hq).
  by rewrite Hrun.
Qed.

Lemma git_init_quiet projectDir : keeps quiet (ProjectGenerator.git_init E projectDir).
Proof.
  intros w. unfold ProjectGenerator.git_init. run.
  destruct (Fs.node_at (disk w) _) as [[|c]|]; try destruct (git_init_fails E);
    by apply quiet_same.
Qed.

Ltac quiet_steps :=
  repeat first
    [ keeps_leaf | keeps_split
    | apply keeps_quiet_logger; discriminate
    | apply install_quiet | apply git_init_quiet
    | match goal with
      | |- forall _, _ => intros ?
      | |- keeps _ (if ?b then _ else _) => destruct b
      end ].

Lemma installDependencies_quiet config :
  keeps quiet (ProjectGenerator.installDependencies E config).
Proof.
  unfold ProjectGenerator.installDependencies, ProjectGenerator.when.
  quiet_steps.
Qed.

Lemma postGeneration_quiet config :
  keeps quiet (ProjectGenerator.postGeneration E config).
Proof. unfold ProjectGenerator.postGeneration. quiet_steps. Qed.

Lemma createStructure_recorded config :
  keeps recorded (ProjectGenerator.createStructure E config).
Proof.
  unfold ProjectGenerator.createStructure.
  keeps_split; [|intros _; apply (keeps_weaken quiet);
                   [apply quiet_recorded|by apply keeps_quiet_logger]].
  keeps_split. intros dir _ _.
  keeps_split; [apply createDirectory_recorded|intros _; keeps_leaf].
Qed.

Lemma generateFiles_recorded config :
  keeps recorded (ProjectGenerator.generateFiles E config).
Proof.
  unfold ProjectGenerator.generateFiles.
  keeps_split;
    [apply (keeps_weaken quiet); [apply quiet_recorded|by apply keeps_quiet_logger]|].
  intros _.
  keeps_split; [|intros n; apply (keeps_weaken quiet);
                   [apply quiet_recorded|by apply keeps_quiet_logger]].
  keeps_split. intros entry n _.
  keeps_split; [apply writeFile_recorded|intros _; keeps_leaf].
Qed.

(** The [try] block of [generate] records what it reports as created. *)
Lemma stages_recorded config : keeps recorded (ProjectGenerator.stages E config).
Proof.
  unfold ProjectGenerator.stages.
  keeps_split;
    [apply (keeps_weaken quiet); [apply quiet_recorded|by apply keeps_quiet_logger]|].
  intros _. keeps_split; [apply createStructure_recorded|]. intros _.
  keeps_split; [apply generateFiles_recorded|]. intros _.
  apply (keeps_weaken quiet); [apply quiet_recorded|].
  keeps_split; [apply installDependencies_quiet|]. intros _.
  keeps_split; [apply postGeneration_quiet|]. intros _.
  keeps_split; [by apply keeps_quiet_logger|]. intros _. keeps_leaf.
Qed.

End WithEnv.

(** C9, as worded, fails: after the minimal run has succeeded the ledger
    still holds what the run created. *)
Lemma C9_counterexample : ~ ledger_emptied (host 0 false) demo home.
Proof.
  unfold ledger_emptied. intros H. destruct (H eq_refl eq_refl) as [H1 _].
  vm_compute in H1. discriminate H1.
Qed.

(** After the minimal run has succeeded, [getCreatedStructure] still
    counts its eleven files and eleven directories. *)
Example getCreatedStructure_after_success :
  let w' := snd (ProjectGenerator.generate (host 0 false) demo home) in
  FileSystemManager.totalFiles (FileSystemManager.getCreatedStructure w') = 11 /\
  FileSystemManager.totalDirectories (FileSystemManager.getCreatedStructure w') = 11.
Proof. split; vm_compute; reflexivity. Qed.

(** C9, amended: the ledger belongs to the file system manager, which
    outlives [generate], and nothing empties it.  The [try] block of
    [generate] leaves in each of its two lists what was there before,
    followed by what the run created; when the block succeeds [generate]
    returns with the ledger so; when it fails, rollback has reversed each
    list in place, every entry still in it. *)
Theorem C9_ledger_outlives_generate (E : Env) (config : Config) (w : World) :
  let t := ProjectGenerator.stages E config w in
  let g := ProjectGenerator.generate E config w in
  let lg := drop (length (logged w)) (logged (snd t)) in
  createdFiles (snd t) = createdFiles w ++ files_logged lg /\
  createdDirs (snd t) = createdDirs w ++ dirs_logged lg /\
  (forall v, fst t = Ok v -> g = t) /\
  (forall e, fst t = Throw e ->
     fst g = Throw e /\
     createdFiles (snd g) = rev (createdFiles (snd t)) /\
     createdDirs (snd g) = rev (createdDirs (snd t))).
Proof.
  intros t g lg. subst t g lg.
  destruct (recorded_drop _ _ (stages_recorded E config w)) as [Hf Hd].
  split; [exact Hf|]. split; [exact Hd|].
  unfold ProjectGenerator.generate, try_catch.
  destruct (ProjectGenerator.stages E config w) as [[v'|e'] w1]; cbn [fst snd].
  - split; [intros v [= ->]; reflexivity|]. intros e [=].
  - split; [intros v [=]|]. intros e [= ->].
    erewrite bind_run by reflexivity.
    match goal with
    | |- context [bind (FileSystemManager.rollback E) _ ?w0] =>
        destruct (rollback_spec E w0) as (w' & lg & Hrun & Hfiles & Hdirs & _)
    end.
    erewrite bind_run by exact Hrun. cbn [throw fst snd].
    split; [reflexivity|]. split; [exact Hfiles|exact Hdirs].
Qed.

(** The minimal run with [npm] failing: [generate] fails and the ledger
    still has its eleven files and eleven directories, last created first. *)
Lemma C9_witness :
  let g := ProjectGenerator.generate (host 1 false) demo home in
  fst g = Throw (Error "Package installation failed: ") /\
  length (createdFiles (snd g)) = 11 /\
  length (createdDirs (snd g)) = 11 /\
  head (createdDirs (snd g)) = Some "/home/u/demo/logs".
Proof.
  intros g. subst g.
  destruct (C9_ledger_outlives_generate (host 1 false) demo home)
    as (_ & _ & _ & Hfail).
  assert (fst (ProjectGenerator.stages (host 1 false) demo home) =
          Throw (Error "Package installation failed: ")) as Hfst
    by (vm_compute; reflexivity).
  destruct (Hfail _ Hfst) as (Hr & Hf & Hd).
  split; [exact Hr|]. rewrite Hf, Hd.
  split; [vm_compute; reflexivity|].
  split; vm_compute; reflexivity.
Defined.

(** ** Numbers in strings *)

Lemma digits_printed d rest :
  no_digit_ahead rest ->
  Js.digits (NilEmpty.string_of_uint d +:+ rest) = d.
Proof.
  intros Hrest. induction d; [exact Hrest|..]; simpl; by rewrite IHd.
Qed.

Lemma to_uint_not_nil n : N.to_uint n <> Decimal.Nil.
Proof.
  intros H. pose proof (DecimalN.Unsigned.of_to n) as Hn.
  rewrite H in Hn. cbn in Hn. subst n. discriminate H.
Qed.

(** A printed number starts with a digit. *)
Lemma printed_head n :
  exists c s, Str.of_N n = String c s /\ Js.is_digit c = true.
Proof.
  unfold Str.of_N. pose proof (to_uint_not_nil n) as Hn.
  destruct (N.to_uint n); [done|..]; cbn; eexists _, _; split; reflexivity.
Qed.

Lemma digit_not_space c : Js.is_digit c = true -> Js.is_space c = false.
Proof.
  unfold Js.is_digit, Js.is_space, Js.between.
  destruct (Js.code c) as [|p] eqn:Hc; [done|].
  intros H. apply andb_true_iff in H as [H1 H2].
  apply N.leb_le in H1, H2.
  repeat match goal with
         | |- context [(?a <=? ?b)%N] => destruct (N.leb_spec a b)
         | |- context [(?a =? ?b)%N] => destruct (N.eqb_spec a b)
         end; try reflexivity; lia.
Qed.

Lemma digit_not_sign c :
  Js.is_digit c = true -> Ascii.eqb c "-" = false /\ Ascii.eqb c "+" = false.
Proof.
  intros H. split; apply Ascii.eqb_neq; intros ->; discriminate H.
Qed.

(** Printing a number and reading it back with [parseInt], whatever
    follows it that is not a digit. *)
Lemma parseInt_printed n rest :
  no_digit_ahead rest -> Js.parseInt (Str.of_N n +:+ rest) = Some (Z.of_N n).
Proof.
  intros Hrest. unfold Js.parseInt.
  destruct (printed_head n) as (c & s & Hs & Hc).
  pose proof (digits_printed (N.to_uint n) rest Hrest) as Hd.
  fold (Str.of_N n) in Hd. rewrite Hs in *.
  change (String c s +:+ rest) with (String c (s +:+ rest)) in *.
  cbn [Js.trimStart]. rewrite (digit_not_space c Hc).
  destruct (digit_not_sign c Hc) as [-> ->]. rewrite Hd.
  pose proof (to_uint_not_nil n) as Hn.
  destruct (N.to_uint n) eqn:Hu; [done|..];
    rewrite <- Hu, DecimalN.Unsigned.of_to; reflexivity.
Qed.

Lemma append_cons c s t : String c s +:+ t = String c (s +:+ t).
Proof. reflexivity. Qed.

Lemma append_nil t : EmptyString +:+ t = t.
Proof. reflexivity. Qed.

Lemma digits_of_uint d :
  Validators.all_chars Js.is_digit (NilEmpty.string_of_uint d) = true.
Proof. induction d; simpl; try reflexivity; exact IHd. Qed.

Lemma split_on_cons sep s : exists seg segs, Js.split_on sep s = seg :: segs.
Proof.
  induction s as [|c s IH]; simpl; [by eexists _, _|].
  destruct (Ascii.eqb c sep); [by eexists _, _|].
  destruct IH as (seg & segs & ->). by eexists _, _.
Qed.

(** Splitting goes past a prefix that does not hold the separator. *)
Lemma split_on_app sep a b seg segs :
  Validators.all_chars (fun c => negb (Ascii.eqb c sep)) a = true ->
  Js.split_on sep b = seg :: segs ->
  Js.split_on sep (a +:+ b) = (a +:+ seg) :: segs.
Proof.
  intros Ha Hb. induction a as [|c a IH]; [exact Hb|].
  rewrite !append_cons. simpl in *.
  apply andb_true_iff in Ha as [Hc Ha]. apply negb_true_iff in Hc.
  rewrite Hc, (IH Ha). reflexivity.
Qed.

Lemma all_chars_impl (f g : ascii -> bool) s :
  (forall c, f c = true -> g c = true) ->
  Validators.all_chars f s = true -> Validators.all_chars g s = true.
Proof.
  intros Hfg. induction s as [|c s IH]; simpl; [done|].
  intros [Hc Hs]%andb_true_iff. rewrite (Hfg c Hc), (IH Hs). reflexivity.
Qed.

Ltac each_char c :=
  destruct c as [[] [] [] [] [] [] [] []]; vm_compute; try reflexivity; try discriminate.

Lemma digit_not_dot c : Js.is_digit c = true -> negb (Ascii.eqb c ".") = true.
Proof. each_char c. Qed.

Lemma of_N_no_dot n :
  Validators.all_chars (fun c => negb (Ascii.eqb c ".")) (Str.of_N n) = true.
Proof. apply (all_chars_impl _ _ _ digit_not_dot), digits_of_uint. Qed.

Lemma append_empty s : s +:+ EmptyString = s.
Proof. induction s as [|c s IH]; [done|]. by rewrite append_cons, IH. Qed.

Lemma append_assoc a b c : (a +:+ b) +:+ c = a +:+ (b +:+ c).
Proof. induction a as [|x a IH]; [done|]. by rewrite !append_cons, IH. Qed.

Lemma digit_of_D c d : Js.digit_of c = Some d -> forall u, d u <> Decimal.Nil.
Proof.
  unfold Js.digit_of.
  repeat match goal with
         | |- context [Ascii.eqb c ?x] => destruct (Ascii.eqb c x)
         end; intros [= <-] u; discriminate.
Qed.

Lemma no_digit_ahead_head c rest :
  no_digit_ahead (String c rest) <-> Js.digit_of c = None.
Proof.
  unfold no_digit_ahead. simpl. destruct (Js.digit_of c) eqn:Hc; [|done].
  split; [|done]. intros H. by apply (digit_of_D c _ Hc) in H.
Qed.

(** What follows a number up to the next dot does not start with a digit
    if what follows the number does not. *)
Lemma split_on_head_no_digit rest seg segs :
  no_digit_ahead rest -> Js.split_on "." rest = seg :: segs -> no_digit_ahead seg.
Proof.
  destruct rest as [|c rest]; simpl.
  - intros _ [= <- <-]. reflexivity.
  - destruct (Ascii.eqb_spec c ".") as [->|Hc].
    + intros _ [= <- <-]. reflexivity.
    + destruct (split_on_cons "." rest) as (seg' & segs' & ->).
      intros Hd [= <- <-]. apply no_digit_ahead_head.
      by apply no_digit_ahead_head in Hd.
Qed.

(** The numbers [parse] reads off a printed version. *)
Lemma parse_printed a b c rest :
  no_digit_ahead rest ->
  exists more,
    Validators.parse (version_string a b c rest) =
    Some (Z.of_N a) :: Some (Z.of_N b) :: Some (Z.of_N c) :: more.
Proof.
  intros Hrest. unfold Validators.parse, version_string.
  destruct (split_on_cons "." rest) as (seg & segs & Hsplit).
  pose proof (split_on_head_no_digit rest seg segs Hrest Hsplit) as Hseg.
  assert (Hdot : forall t, Js.split_on "." ("." +:+ t) = EmptyString :: Js.split_on "." t)
    by reflexivity.
  rewrite (split_on_app "." (Str.of_N a) _ EmptyString _ (of_N_no_dot a) (Hdot _)).
  rewrite (split_on_app "." (Str.of_N b) _ EmptyString _ (of_N_no_dot b) (Hdot _)).
  rewrite (split_on_app "." (Str.of_N c) _ seg segs (of_N_no_dot c) Hsplit).
  cbn [List.map]. rewrite !parseInt_printed by done.
  eexists. reflexivity.
Qed.

Lemma gt_numbers x y : Js.gt (Some (Z.of_N x)) (Some (Z.of_N y)) = (y <? x)%N.
Proof.
  unfold Js.gt. destruct (Z.ltb_spec (Z.of_N y) (Z.of_N x)), (N.ltb_spec y x);
    try reflexivity; lia.
Qed.

(** ** Validator.validateVersion *)

Lemma compare_numbers a b c a' b' c' more more' :
  Validators.compare_from
    (Some (Z.of_N a) :: Some (Z.of_N b) :: Some (Z.of_N c) :: more)
    (Some (Z.of_N a') :: Some (Z.of_N b') :: Some (Z.of_N c') :: more') 0 3 =
  at_least a b c a' b' c'.
Proof.
  cbn [Validators.compare_from Validators.at_index nth_error].
  unfold Js.lt. rewrite !gt_numbers. unfold at_least.
  destruct (N.ltb_spec a' a), (N.ltb_spec a a'), (N.eqb_spec a a'),
    (N.ltb_spec b' b), (N.ltb_spec b b'), (N.eqb_spec b b'),
    (N.ltb_spec c' c), (N.ltb_spec c c'), (N.leb_spec c' c);
    try reflexivity; lia.
Qed.

(** X1. On versions printed as three numbers with dots, followed by
    anything that does not go on with a digit (a pre-release tag, a line
    end), [validateVersion] is the comparison of the three numbers, the
    first number first: it accepts exactly when the version is at least
    the minimum. *)
Theorem validateVersion_printed (a b c a' b' c' : N) (rest rest' : string) :
  Forall Js.safe [a; b; c; a'; b'; c'] ->
  no_digit_ahead rest -> no_digit_ahead rest' ->
  Validators.validateVersion (version_string a b c rest)
                             (version_string a' b' c' rest') =
  at_least a b c a' b' c'.
Proof.
  intros _ Hrest Hrest'. unfold Validators.validateVersion.
  destruct (parse_printed a b c rest Hrest) as (more & ->).
  destruct (parse_printed a' b' c' rest' Hrest') as (more' & ->).
  apply compare_numbers.
Qed.

Lemma validateVersion_printed_witness :
  Validators.validateVersion "18.17.0-nightly" CONFIG_MIN_NODE_VERSION = true /\
  Validators.validateVersion "12.22.12" CONFIG_MIN_NODE_VERSION = false.
Proof.
  split.
  - apply (validateVersion_printed 18 17 0 14 0 0 "-nightly" EmptyString);
      [repeat constructor; unfold Js.safe; lia | reflexivity | reflexivity].
  - apply (validateVersion_printed 12 22 12 14 0 0 EmptyString EmptyString);
      [repeat constructor; unfold Js.safe; lia | reflexivity | reflexivity].
Defined.

Lemma at_index_unreadable l i :
  i < 3 ->
  Forall (fun seg => Js.parseInt seg = None) (take 3 l) ->
  Validators.at_index (List.map Js.parseInt l) i = None.
Proof.
  intros Hi Hl. unfold Validators.at_index.
  destruct l as [|x [|y [|z l]]]; cbn [take] in Hl;
    repeat match goal with
           | H : Forall _ (_ :: _) |- _ => apply Forall_cons in H as [? H]
           end;
    destruct i as [|[|[|i]]]; try lia; cbn [List.map nth_error]; done.
Qed.

Lemma gt_unreadable_l y : Js.gt None y = false.
Proof. reflexivity. Qed.

Lemma gt_unreadable_r x : Js.gt x None = false.
Proof. by destruct x. Qed.

(** X2. A version of which none of the first three parts reads as a number
    is never rejected, whatever the minimum; nor is any version rejected
    against a minimum that does not read. *)
Theorem validateVersion_unreadable (version minVersion : string) :
  Forall (fun seg => Js.parseInt seg = None) (take 3 (Js.split_on "." version)) \/
  Forall (fun seg => Js.parseInt seg = None) (take 3 (Js.split_on "." minVersion)) ->
  Validators.validateVersion version minVersion = true.
Proof.
  unfold Validators.validateVersion, Validators.parse.
  cbn [Validators.compare_from]. unfold Js.lt.
  intros [H|H];
    rewrite (at_index_unreadable _ 0 ltac:(lia) H),
      (at_index_unreadable _ 1 ltac:(lia) H),
      (at_index_unreadable _ 2 ltac:(lia) H),
      ?gt_unreadable_l, ?gt_unreadable_r; reflexivity.
Qed.

Lemma validateVersion_unreadable_witness :
  Validators.validateVersion "unknown" CONFIG_MIN_NPM_VERSION = true.
Proof.
  apply validateVersion_unreadable. left. vm_compute. repeat constructor.
Defined.

(** ** Validator.validatePort *)

(** X3. [validatePort] reads the number a port starts with and ignores
    what follows it: a port printed as a number, with anything after it
    that does not go on with a digit, is accepted exactly when the number
    lies between 1 and 65535. *)
Theorem validatePort_printed (n : N) (rest : string) :
  no_digit_ahead rest ->
  Validators.validatePort (Str.of_N n +:+ rest) = (0 <? n)%N && (n <? 65536)%N.
Proof.
  intros Hrest. unfold Validators.validatePort.
  rewrite (parseInt_printed n rest Hrest).
  destruct (Z.ltb_spec 0 (Z.of_N n)), (N.ltb_spec 0 n),
    (Z.ltb_spec (Z.of_N n) 65536), (N.ltb_spec n 65536); try reflexivity; lia.
Qed.

Lemma validatePort_printed_witness :
  Validators.validatePort "8080 or so" = true /\
  Validators.validatePort "65536" = false.
Proof.
  split.
  - apply (validatePort_printed 8080 " or so"). reflexivity.
  - apply (validatePort_printed 65536 EmptyString). reflexivity.
Defined.

(** ** Validator.validateProjectName *)

Lemma name_char_not_space c :
  Validators.name_char c = true -> negb (Js.is_space c) = true.
Proof. each_char c. Qed.

Lemma trimStart_plain s :
  Validators.all_chars (fun c => negb (Js.is_space c)) s = true -> Js.trimStart s = s.
Proof.
  destruct s as [|c s]; [done|]. simpl.
  intros [Hc _]%andb_true_iff. apply negb_true_iff in Hc. by rewrite Hc.
Qed.

Lemma trimEnd_plain s :
  Validators.all_chars (fun c => negb (Js.is_space c)) s = true -> Js.trimEnd s = s.
Proof.
  induction s as [|c s IH]; [done|]. simpl.
  intros [Hc Hs]%andb_true_iff. apply negb_true_iff in Hc.
  rewrite (IH Hs). destruct s; [by rewrite Hc|done].
Qed.

Lemma trim_name s : Validators.all_chars Validators.name_char s = true -> Js.trim s = s.
Proof.
  intros H. apply (all_chars_impl _ _ _ name_char_not_space) in H.
  unfold Js.trim. by rewrite trimStart_plain, trimEnd_plain.
Qed.

(** A name that is empty or blank does not pass the test of the
    characters either. *)
Lemma blank_not_name name :
  String.eqb name EmptyString || String.eqb (Js.trim name) EmptyString = true ->
  Validators.only_name_chars name = false.
Proof.
  unfold Validators.only_name_chars.
  destruct (String.eqb_spec name EmptyString) as [->|Hne]; [done|].
  cbn [orb negb andb]. intros Hblank%String.eqb_eq.
  destruct (Validators.all_chars Validators.name_char name) eqn:Hall; [|done].
  rewrite (trim_name name Hall) in Hblank. done.
Qed.

Lemma includes_In l s : Validators.includes l s = true <-> In s l.
Proof.
  unfold Validators.includes. rewrite existsb_exists. split.
  - intros (x & Hx & ->%String.eqb_eq). done.
  - intros H. exists s. by rewrite String.eqb_refl.
Qed.

(** X4. [validateProjectName] accepts exactly the names of one to fifty
    characters, all of them letters, digits, hyphens or underscores, that
    do not start with a digit and are not, in lower case, one of the five
    reserved names.  The test for an empty or blank name adds nothing to
    the verdict: whenever it reports, the test of the characters reports
    too. *)
Theorem validateProjectName_accepts (name : string) :
  let v := Validators.validateProjectName name in
  (Validators.valid v = true <->
   name <> EmptyString /\
   String.length name <= CONFIG.MAX_PROJECT_NAME_LENGTH /\
   Validators.all_chars Validators.name_char name = true /\
   Validators.starts_with_digit name = false /\
   ~ In (Js.toLowerCase name) Validators.reserved) /\
  (Validators.valid v = true <-> Validators.errors v = []) /\
  (In "Project name cannot be empty" (Validators.errors v) ->
   In "Project name can only contain letters, numbers, hyphens, and underscores"
      (Validators.errors v)).
Proof.
  cbv zeta. unfold Validators.validateProjectName.
  pose proof (blank_not_name name) as Hblank.
  pose proof (includes_In Validators.reserved (Js.toLowerCase name)) as Hres.
  destruct (String.eqb name EmptyString || String.eqb (Js.trim name) EmptyString)
    eqn:H1.
  - rewrite (Hblank eq_refl) in *. cbn [negb].
    split; [|split].
    + split.
      * destruct (Nat.ltb _ _), (Validators.starts_with_digit name),
          (Validators.includes _ _); discriminate.
      * intros (Hne & _ & Hall & _). exfalso.
        unfold Validators.only_name_chars in Hblank.
        specialize (Hblank eq_refl). rewrite Hall in Hblank.
        destruct (String.eqb_spec name EmptyString); done.
    + destruct (Nat.ltb _ _), (Validators.starts_with_digit name),
        (Validators.includes _ _); split; discriminate.
    + intros _.
      destruct (Nat.ltb _ _), (Validators.starts_with_digit name),
        (Validators.includes _ _); cbn; tauto.
  - clear Hblank.
    apply orb_false_iff in H1 as [Hne%String.eqb_neq _].
    unfold Validators.only_name_chars.
    destruct (String.eqb_spec name EmptyString) as [|_]; [done|].
    cbn [negb andb].
    destruct (Nat.ltb_spec CONFIG.MAX_PROJECT_NAME_LENGTH (String.length name)),
      (Validators.all_chars Validators.name_char name),
      (Validators.starts_with_digit name),
      (Validators.includes Validators.reserved (Js.toLowerCase name)) eqn:Hin;
      cbn [negb app length Nat.eqb Validators.valid Validators.errors];
      (split; [|split]);
      try (split; [discriminate|]);
      try (split; discriminate);
      try (intros H'; exfalso; cbn in H'; intuition discriminate);
      try (intros (_ & ? & ? & ? & Hno); first [lia | discriminate | exfalso; apply Hno, Hres; reflexivity]).
    all: try (split; [|done]; intros _; repeat split; try done; try lia;
              intros Hin'%Hres; discriminate).
    all: try (split; done).
Qed.

(** ** SystemChecker *)

Lemma checkAll_run (P : Probe) (w : World) :
  let node_ok :=
    Validators.validateVersion (Js.substring1 (process_version P))
                               CONFIG_MIN_NODE_VERSION in
  let npm_ok :=
    match npm_version P with
    | Ok out => Validators.validateVersion (Js.trim out) CONFIG_MIN_NPM_VERSION
    | Throw _ => false
    end in
  let r := SystemChecker.checkAll P w in
  fst r = Ok (node_ok && npm_ok) /\
  disk (snd r) = disk w /\
  createdFiles (snd r) = createdFiles w /\
  createdDirs (snd r) = createdDirs w /\
  installedPackages (snd r) = installedPackages w /\
  calls (snd r) =
    calls w ++ (if node_ok then [ExecSync "npm --version" "."] else []) /\
  last (logged (snd r)) =
    Some (if node_ok && npm_ok then Log SUCCESS "All system checks passed"
          else Log ERROR "System check failed").
Proof.
  cbv zeta.
  unfold SystemChecker.checkAll, SystemChecker.checkNodeVersion,
    SystemChecker.checkNpmVersion.
  destruct (Validators.validateVersion (Js.substring1 (process_version P)) _);
    [destruct (npm_version P) as [out|e]; run;
     [destruct (Validators.validateVersion (Js.trim out) _)|]|];
    run; rewrite ?app_nil_r, ?last_snoc; repeat split; reflexivity.
Qed.

(** X5. [checkAll] never throws: it returns [true] when the version of
    Node and then the version [npm] prints both pass [validateVersion], and
    [false] otherwise, a failure to run [npm] included.  [npm] is asked for
    its version only when the version of Node has passed; the disk, the
    ledger and the list of installed packages are not touched, and the
    last line logged tells the outcome. *)
Theorem checkAll_spec (P : Probe) (w : World) :
  let node_ok :=
    Validators.validateVersion (Js.substring1 (process_version P))
                               CONFIG_MIN_NODE_VERSION in
  let npm_ok :=
    match npm_version P with
    | Ok out => Validators.validateVersion (Js.trim out) CONFIG_MIN_NPM_VERSION
    | Throw _ => false
    end in
  let r := SystemChecker.checkAll P w in
  fst r = Ok (node_ok && npm_ok) /\
  disk (snd r) = disk w /\
  createdFiles (snd r) = createdFiles w /\
  createdDirs (snd r) = createdDirs w /\
  installedPackages (snd r) = installedPackages w /\
  calls (snd r) =
    calls w ++ (if node_ok then [ExecSync "npm --version" "."] else []) /\
  last (logged (snd r)) =
    Some (if node_ok && npm_ok then Log SUCCESS "All system checks passed"
          else Log ERROR "System check failed").
Proof. exact (checkAll_run P w). Qed.

(** ** Paths, segment by segment *)

Lemma split_cons s : exists seg segs, Str.split s = seg :: segs.
Proof.
  induction s as [|c s IH]; simpl; [by eexists _, _|].
  destruct (Ascii.eqb c "/"); [by eexists _, _|].
  destruct IH as (seg & segs & ->). by eexists _, _.
Qed.

Lemma split_app_slash a b :
  Str.split (a +:+ "/" +:+ b) = Str.split a ++ Str.split b.
Proof.
  induction a as [|c a IH]; [reflexivity|].
  rewrite append_cons. simpl. rewrite IH.
  destruct (Ascii.eqb c "/"); [reflexivity|].
  by destruct (split_cons a) as (seg & segs & ->).
Qed.

Lemma split_no_slash s : Forall (fun seg => Validators.all_chars no_slash seg = true) (Str.split s).
Proof.
  induction s as [|c s IH]; simpl; [by repeat constructor|].
  destruct (Ascii.eqb c "/") eqn:Hc; [by constructor|].
  destruct (split_cons s) as (seg & segs & Hs). rewrite Hs in *.
  apply Forall_cons in IH as [Hseg Hsegs]. constructor; [|done].
  simpl. unfold no_slash at 1. by rewrite Hc.
Qed.

(** A string without a slash is one segment. *)
Lemma split_segment s : Validators.all_chars no_slash s = true -> Str.split s = [s].
Proof.
  induction s as [|c s IH]; [done|]. simpl.
  intros [Hc Hs]%andb_true_iff. apply negb_true_iff in Hc.
  by rewrite Hc, (IH Hs).
Qed.

(** [split] and [join]: [s.split('/').join('/')] is [s]. *)
Lemma concat_split s : String.concat "/" (Str.split s) = s.
Proof.
  induction s as [|c s IH]; [done|]. simpl.
  destruct (split_cons s) as (seg & segs & Hs). rewrite Hs in *.
  destruct (Ascii.eqb_spec c "/") as [->|_].
  - change (String.concat "/" (EmptyString :: seg :: segs))
      with ("/" +:+ String.concat "/" (seg :: segs)).
    by rewrite IH.
  - destruct segs as [|y l].
    + change (String c seg = String c s). f_equal. exact IH.
    + change (String c (seg +:+ "/" +:+ String.concat "/" (y :: l)) = String c s).
      f_equal. exact IH.
Qed.

Lemma split_inj a b : Str.split a = Str.split b -> a = b.
Proof. intros H. by rewrite <- (concat_split a), <- (concat_split b), H. Qed.

Lemma split_concat l :
  l <> [] -> Forall (fun seg => Validators.all_chars no_slash seg = true) l ->
  Str.split (String.concat "/" l) = l.
Proof.
  induction l as [|x l IH]; [done|]. intros _ [Hx Hl]%Forall_cons.
  destruct l as [|y l]; [by apply split_segment|].
  change (String.concat "/" (x :: y :: l))
    with (x +:+ "/" +:+ String.concat "/" (y :: l)).
  by rewrite split_app_slash, (split_segment x Hx), IH.
Qed.

Lemma concat_empty l : String.concat "/" l = EmptyString -> l = [] \/ l = [EmptyString].
Proof.
  destruct l as [|x [|y l]]; [by left| intros H; right; f_equal; exact H|].
  change (String.concat "/" (x :: y :: l))
    with (x +:+ "/" +:+ String.concat "/" (y :: l)).
  destruct x; discriminate.
Qed.

Lemma append_inj_l a b c : a +:+ b = a +:+ c -> b = c.
Proof. induction a as [|x a IH]; [done|]. rewrite !append_cons. intros [= H]. auto. Qed.

Lemma starts_with_slash_app a b :
  a <> EmptyString -> Str.starts_with_slash (a +:+ b) = Str.starts_with_slash a.
Proof. by destruct a. Qed.

Lemma ends_with_slash_app a b :
  b <> EmptyString -> Str.ends_with_slash (a +:+ b) = Str.ends_with_slash b.
Proof.
  intros Hb. induction a as [|c a IH]; [done|].
  rewrite append_cons. cbn [Str.ends_with_slash]. rewrite IH.
  destruct (a +:+ b) eqn:Hab; [|done]. by destruct a, b.
Qed.

(** A path that ends with a slash has an empty last segment. *)
Lemma ends_with_slash_last s :
  Str.ends_with_slash s = true -> last (Str.split s) = Some EmptyString.
Proof.
  induction s as [|c s IH]; [done|]. cbn [Str.ends_with_slash Str.split].
  destruct s as [|c' s].
  - intros ->. reflexivity.
  - intros H. specialize (IH H).
    destruct (split_cons (String c' s)) as (seg & segs & Hs). rewrite Hs in *.
    destruct (Ascii.eqb c "/"); [exact IH|]. destruct segs as [|y l]; [|exact IH].
    injection IH as ->. by apply (split_inj _ EmptyString) in Hs.
Qed.

(** ** Normal segments *)

Lemma normal_segment_spec seg :
  normal_segment seg = true <->
  seg <> EmptyString /\ seg <> "." /\ seg <> ".." /\
  Validators.all_chars no_slash seg = true.
Proof.
  unfold normal_segment, Path.plain.
  destruct (String.eqb_spec seg EmptyString), (String.eqb_spec seg "."),
    (String.eqb_spec seg ".."), (Validators.all_chars no_slash seg);
    cbn; intuition congruence.
Qed.

Lemma forallb_Forall {A} (f : A -> bool) l : forallb f l = true <-> Forall (fun x => f x = true) l.
Proof.
  induction l as [|x l IH]; simpl; [by split; [constructor|]|].
  rewrite andb_true_iff, IH, Forall_cons. done.
Qed.

Lemma filter_plain_normal l :
  Forall (fun seg => normal_segment seg = true) l -> List.filter Path.plain l = l.
Proof.
  induction 1 as [|x l Hx _ IH]; [done|]. simpl.
  unfold normal_segment in Hx. apply andb_true_iff in Hx as [Hx _].
  apply andb_true_iff in Hx as [-> _]. by rewrite IH.
Qed.

Lemma normal_no_parent l :
  Forall (fun seg => normal_segment seg = true) l -> ~ In ".." l.
Proof.
  intros Hl Hin. rewrite Forall_forall in Hl.
  apply list_elem_of_In, Hl in Hin. done.
Qed.

(** Normal segments pass through [normalizeString] behind whatever came
    before them. *)
Lemma normalizeSegs_app allow a l :
  Forall (fun seg => normal_segment seg = true) l ->
  Path.normalizeSegs allow (a ++ l) = Path.normalizeSegs allow a ++ l.
Proof.
  intros Hl. unfold Path.normalizeSegs.
  rewrite fold_left_app, fold_norm_no_parent by by apply normal_no_parent.
  by rewrite rev_app_distr, rev_involutive, filter_plain_normal.
Qed.

Lemma normalizeSegs_normal allow l :
  Forall (fun seg => normal_segment seg = true) l -> Path.normalizeSegs allow l = l.
Proof. intros Hl. by rewrite <- (app_nil_l l), normalizeSegs_app. Qed.

Lemma norm_step_no_slash allow res seg :
  Forall (fun seg => Validators.all_chars no_slash seg = true) res ->
  Validators.all_chars no_slash seg = true ->
  Forall (fun seg => Validators.all_chars no_slash seg = true)
         (Path.norm_step allow res seg).
Proof.
  intros Hres Hseg. unfold Path.norm_step.
  destruct (String.eqb seg EmptyString || String.eqb seg "."); [done|].
  destruct (String.eqb seg "..").
  - destruct res as [|x res].
    + destruct allow; by repeat constructor.
    + apply Forall_cons in Hres as [Hx Hres'].
      destruct (String.eqb x ".."), allow; try done; by repeat constructor.
  - by constructor.
Qed.

Lemma fold_norm_no_slash allow segs : forall res,
  Forall (fun seg => Validators.all_chars no_slash seg = true) res ->
  Forall (fun seg => Validators.all_chars no_slash seg = true) segs ->
  Forall (fun seg => Validators.all_chars no_slash seg = true)
         (fold_left (Path.norm_step allow) segs res).
Proof.
  induction segs as [|seg segs IH]; intros res Hres Hsegs; [done|].
  apply Forall_cons in Hsegs as [Hseg Hsegs]. simpl.
  apply IH; [|done]. by apply norm_step_no_slash.
Qed.

(** What [normalizeString] makes of a path has no slash inside a
    segment. *)
Lemma normalizeSegs_no_slash allow s :
  Forall (fun seg => Validators.all_chars no_slash seg = true)
         (Path.normalizeSegs allow (Str.split s)).
Proof.
  unfold Path.normalizeSegs. rewrite Forall_forall. intros x Hx.
  apply elem_of_rev_1 in Hx. revert x Hx. rewrite <- Forall_forall.
  apply fold_norm_no_slash; [constructor|apply split_no_slash].
Qed.

Lemma norm_step_normal res seg :
  Forall (fun seg => normal_segment seg = true) res ->
  Validators.all_chars no_slash seg = true ->
  Forall (fun seg => normal_segment seg = true) (Path.norm_step false res seg).
Proof.
  intros Hres Hseg. unfold Path.norm_step.
  destruct (String.eqb seg EmptyString || String.eqb seg ".") eqn:Hplain; [done|].
  destruct (String.eqb seg "..") eqn:Hpar.
  - destruct res as [|x res]; [done|].
    apply Forall_cons in Hres as [Hx Hres'].
    destruct (String.eqb x ".."); [by constructor|done].
  - constructor; [|done]. unfold normal_segment, Path.plain.
    by rewrite Hplain, Hpar, Hseg.
Qed.

(** Below the root, what [normalizeString] leaves are normal segments. *)
Lemma normalizeSegs_false_normal s :
  Forall (fun seg => normal_segment seg = true)
         (Path.normalizeSegs false (Str.split s)).
Proof.
  unfold Path.normalizeSegs. rewrite Forall_forall. intros x Hx.
  apply elem_of_rev_1 in Hx. revert x Hx. rewrite <- Forall_forall.
  generalize (split_no_slash s). generalize (Str.split s) as segs.
  assert (Hnil : Forall (fun seg => normal_segment seg = true) []) by constructor.
  revert Hnil. generalize (@nil string) as res.
  intros res Hres segs. revert res Hres.
  induction segs as [|seg segs IH]; intros res Hres Hsegs; [done|].
  apply Forall_cons in Hsegs as [Hseg Hsegs]. simpl.
  apply IH; [|done]. by apply norm_step_normal.
Qed.

(** ** [normalize] and [join] below a directory *)

Lemma normal_relative_split rel :
  normal_relative rel = true ->
  Forall (fun seg => normal_segment seg = true) (Str.split rel).
Proof. unfold normal_relative. by rewrite forallb_Forall. Qed.

Lemma normal_relative_facts rel :
  normal_relative rel = true ->
  rel <> EmptyString /\ Str.starts_with_slash rel = false /\
  Str.ends_with_slash rel = false.
Proof.
  intros H%normal_relative_split. rewrite Forall_forall in H. repeat split.
  - intros ->. by specialize (H EmptyString ltac:(by left)).
  - destruct rel as [|c rel]; [done|]. cbn [Str.starts_with_slash].
    destruct (Ascii.eqb_spec c "/") as [->|]; [|done].
    by specialize (H EmptyString ltac:(by left)).
  - destruct (Str.ends_with_slash rel) eqn:Hend; [|done].
    apply ends_with_slash_last, last_Some_elem_of in Hend.
    by specialize (H EmptyString Hend).
Qed.

Lemma concat_under_nonempty a rel :
  normal_relative rel = true ->
  String.concat "/" (a ++ Str.split rel) <> EmptyString.
Proof.
  intros Hrel Hc. pose proof (normal_relative_split rel Hrel) as Hn.
  destruct (split_cons rel) as (seg & segs & Hs). rewrite Hs in *.
  apply Forall_cons in Hn as [Hseg _].
  apply concat_empty in Hc as [Hc|Hc].
  - by destruct a.
  - destruct a as [|x [|y a]]; [|done..]. by injection Hc as -> ->.
Qed.

(** [normalize] of a normal relative path below [root]: the segments of
    [root] as [normalize] leaves them, then the segments of the path. *)
Lemma normalize_under root rel :
  root <> EmptyString -> normal_relative rel = true ->
  Path.normalize (root +:+ "/" +:+ rel) =
  (if Str.starts_with_slash root then "/" else EmptyString) +:+
  String.concat "/"
    (Path.normalizeSegs (negb (Str.starts_with_slash root)) (Str.split root) ++
     Str.split rel).
Proof.
  intros Hroot Hrel.
  destruct (normal_relative_facts rel Hrel) as (Hne & _ & Hend).
  unfold Path.normalize, Path.normalizeString.
  destruct (String.eqb_spec (root +:+ "/" +:+ rel) EmptyString) as [H|_];
    [by destruct root|].
  cbv zeta.
  rewrite starts_with_slash_app by done.
  rewrite ends_with_slash_app by done.
  change ("/" +:+ rel) with (String "/" EmptyString +:+ rel).
  rewrite ends_with_slash_app, Hend by done.
  change (root +:+ String "/" EmptyString +:+ rel) with (root +:+ "/" +:+ rel).
  rewrite split_app_slash, normalizeSegs_app by by apply normal_relative_split.
  destruct (String.eqb_spec
              (String.concat "/"
                 (Path.normalizeSegs (negb (Str.starts_with_slash root))
                    (Str.split root) ++ Str.split rel)) EmptyString) as [H|_];
    [by apply concat_under_nonempty in H|].
  by destruct (Str.starts_with_slash root).
Qed.

Lemma join_under root rel :
  root <> EmptyString -> normal_relative rel = true ->
  Path.join root rel =
  (if Str.starts_with_slash root then "/" else EmptyString) +:+
  String.concat "/"
    (Path.normalizeSegs (negb (Str.starts_with_slash root)) (Str.split root) ++
     Str.split rel).
Proof.
  intros Hroot Hrel. destruct (normal_relative_facts rel Hrel) as (Hne & _).
  unfold Path.join.
  destruct (String.eqb_spec root EmptyString); [done|].
  destruct (String.eqb_spec rel EmptyString); [done|].
  by apply normalize_under.
Qed.

Lemma normalize_nonempty p : Path.normalize p <> EmptyString.
Proof.
  unfold Path.normalize, Path.normalizeString.
  destruct (String.eqb p EmptyString); [done|]. cbv zeta.
  destruct (String.eqb_spec (String.concat "/" (Path.normalizeSegs
              (negb (Str.starts_with_slash p)) (Str.split p))) EmptyString) as [|Hne].
  - by destruct (Str.starts_with_slash p), (Str.ends_with_slash p).
  - destruct (Str.starts_with_slash p); [done|].
    destruct (Str.ends_with_slash p); [|done].
    intros H. apply Hne. by destruct (String.concat _ _).
Qed.

Lemma join_nonempty a b : Path.join a b <> EmptyString.
Proof.
  unfold Path.join.
  destruct (String.eqb a EmptyString), (String.eqb b EmptyString);
    try done; apply normalize_nonempty.
Qed.

(** Below one directory, different normal paths are different files. *)
Lemma join_under_inj root r1 r2 :
  root <> EmptyString -> normal_relative r1 = true -> normal_relative r2 = true ->
  Path.join root r1 = Path.join root r2 -> r1 = r2.
Proof.
  intros Hroot H1 H2. rewrite !join_under by done.
  intros H%append_inj_l. apply (f_equal Str.split) in H.
  rewrite !split_concat in H.
  - by apply app_inv_head, split_inj in H.
  - destruct (split_cons r2) as (? & ? & ->). by destruct (Path.normalizeSegs _ _).
  - apply Forall_app. split; [apply normalizeSegs_no_slash|apply split_no_slash].
  - destruct (split_cons r1) as (? & ? & ->). by destruct (Path.normalizeSegs _ _).
  - apply Forall_app. split; [apply normalizeSegs_no_slash|apply split_no_slash].
Qed.

(** ** The files of a project *)

Lemma obj_set_fresh key value o :
  key ∉ List.map fst o -> ProjectGenerator.obj_set key value o = o ++ [(key, value)].
Proof.
  induction o as [|[k v] o IH]; [done|]. cbn [List.map fst]. intros Hk.
  apply not_elem_of_cons in Hk as [Hne Hk]. simpl.
  destruct (String.eqb_spec k key); [done|]. by rewrite IH.
Qed.

(** Assigning templates at different normal paths below one directory to an
    object appends them, one after the other. *)
Lemma puts_fresh E config root (entries : list (string * Template)) :
  root <> EmptyString ->
  Forall (fun e => normal_relative (fst e) = true) entries ->
  NoDup (List.map fst entries) ->
  forall o,
    (forall e, e ∈ entries -> Path.join root (fst e) ∉ List.map fst o) ->
    fold_left (fun files e =>
                 ProjectGenerator.obj_set (Path.join root (fst e))
                                          (render E (snd e) config) files)
              entries o =
    o ++ List.map (fun e => (Path.join root (fst e), render E (snd e) config)) entries.
Proof.
  intros Hroot. induction entries as [|e entries IH]; intros Hn Hd o Ho.
  - by rewrite app_nil_r.
  - apply Forall_cons in Hn as [He Hn]. apply NoDup_cons in Hd as [Hnin Hd].
    cbn [fold_left List.map]. rewrite obj_set_fresh by (apply Ho; by left).
    rewrite (IH Hn Hd), <- app_assoc; [done|].
    intros e' He'. rewrite map_app. cbn [List.map fst].
    rewrite elem_of_app, list_elem_of_singleton. intros [Hin|Heq].
    + revert Hin. apply Ho. by right.
    + apply join_under_inj in Heq; [|done|by rewrite Forall_forall in Hn; apply Hn|done].
      apply Hnin. rewrite <- Heq. apply (list_elem_of_fmap_2 fst) in He'. exact He'.
Qed.

Lemma getFileTemplates_fold E config :
  ProjectGenerator.getFileTemplates E config =
  fold_left (fun files e =>
               ProjectGenerator.obj_set
                 (Path.join (Path.join (cwd E) (projectName config)) (fst e))
                 (render E (snd e) config) files)
            (template_entries config) [].
Proof.
  unfold ProjectGenerator.getFileTemplates, template_entries.
  destruct (negb (String.eqb (useDB config) "None")),
    (features_authentication config), (ProjectGenerator.is_ejs config);
    reflexivity.
Qed.

Lemma template_entries_normal config :
  Forall (fun e => normal_relative (fst e) = true) (template_entries config) /\
  NoDup (List.map fst (template_entries config)).
Proof.
  unfold template_entries.
  destruct (negb (String.eqb (useDB config) "None")),
    (features_authentication config), (ProjectGenerator.is_ejs config);
    (split; [repeat constructor | apply (bool_decide_unpack _); vm_compute; reflexivity]).
Qed.

Lemma getFileTemplates_entries (E : Env) (config : Config) :
  ProjectGenerator.getFileTemplates E config =
  List.map (fun e => (Path.join (Path.join (cwd E) (projectName config)) (fst e),
                      render E (snd e) config)) (template_entries config).
Proof.
  destruct (template_entries_normal config) as [Hn Hd].
  rewrite getFileTemplates_fold, puts_fresh; try done.
  - apply join_nonempty.
  - intros e _ Hin. by apply elem_of_nil in Hin.
Qed.

(** X6. The templates of [getFileTemplates] land at different paths,
    whatever the working directory and the project name are: no assignment
    to [files] replaces an earlier one, the keys are the template paths
    joined to the project root, in the order of the source, and there are
    between eleven and sixteen of them. *)
Theorem getFileTemplates_keys (E : Env) (config : Config) :
  let rootDir := Path.join (cwd E) (projectName config) in
  ProjectGenerator.getFileTemplates E config =
    List.map (fun e => (Path.join rootDir (fst e), render E (snd e) config))
             (template_entries config) /\
  NoDup (List.map fst (ProjectGenerator.getFileTemplates E config)) /\
  length (ProjectGenerator.getFileTemplates E config) =
    11 + (if negb (String.eqb (useDB config) "None") then 1 else 0)
       + (if features_authentication config then 1 else 0)
       + (if ProjectGenerator.is_ejs config then 3 else 0).
Proof.
  cbv zeta. destruct (template_entries_normal config) as [Hn Hd].
  pose proof (getFileTemplates_entries E config) as Hkeys.
  split; [exact Hkeys|]. rewrite Hkeys. split.
  - replace (List.map fst _)
      with (List.map (Path.join (Path.join (cwd E) (projectName config)))
                     (List.map fst (template_entries config)))
      by (by rewrite !map_map).
    apply (NoDup_fmap_2_strong _ (List.map fst (template_entries config))); [|done].
    intros r1 r2 H1 H2 Heq. rewrite Forall_forall in Hn.
    apply (list_elem_of_fmap_1 fst) in H1 as (e1 & -> & H1).
    apply (list_elem_of_fmap_1 fst) in H2 as (e2 & -> & H2).
    apply join_under_inj in Heq; [done|apply join_nonempty|by apply Hn..].
  - rewrite length_map. unfold template_entries.
    destruct (negb (String.eqb (useDB config) "None")),
      (features_authentication config), (ProjectGenerator.is_ejs config);
      reflexivity.
Qed.

(** ** Where a project lands *)

Lemma name_char_plain c :
  Validators.name_char c = true -> no_slash c && negb (Ascii.eqb c ".") = true.
Proof. each_char c. Qed.

Lemma valid_name_chars name :
  Validators.valid (Validators.validateProjectName name) = true ->
  name <> EmptyString /\ Validators.all_chars Validators.name_char name = true.
Proof.
  unfold Validators.validateProjectName, Validators.only_name_chars.
  destruct (String.eqb_spec name EmptyString) as [->|Hne]; [discriminate|].
  destruct (Validators.all_chars Validators.name_char name); [done|].
  destruct (_ || _), (Nat.ltb _ _), (Validators.starts_with_digit name),
    (Validators.includes _ _); discriminate.
Qed.

Lemma includes_no_dot s :
  Validators.all_chars (fun c => negb (Ascii.eqb c ".")) s = true ->
  Str.includes ".." s = false.
Proof.
  induction s as [|c s IH]; [done|]. cbn [Str.includes Validators.all_chars].
  intros [Hc Hs]%andb_true_iff. apply negb_true_iff in Hc.
  rewrite (IH Hs), orb_false_r. cbn [String.prefix].
  destruct (ascii_dec "." c) as [<-|_]; [discriminate Hc|reflexivity].
Qed.

(** A name of letters, digits, hyphens and underscores is one normal
    segment. *)
Lemma name_normal name :
  name <> EmptyString -> Validators.all_chars Validators.name_char name = true ->
  normal_segment name = true /\ Str.split name = [name] /\
  Str.includes ".." name = false.
Proof.
  intros Hne Hall.
  pose proof (all_chars_impl _ (fun c => no_slash c && negb (Ascii.eqb c ".")) _
                name_char_plain Hall) as Hplain.
  assert (Hslash : Validators.all_chars no_slash name = true).
  { revert Hplain. apply all_chars_impl. by intros c [? _]%andb_true_iff. }
  assert (Hdot : Validators.all_chars (fun c => negb (Ascii.eqb c ".")) name = true).
  { revert Hplain. apply all_chars_impl. by intros c [_ ?]%andb_true_iff. }
  split; [|split; [by apply split_segment|by apply includes_no_dot]].
  apply normal_segment_spec. repeat split; try done.
  - intros ->. discriminate Hdot.
  - intros ->. discriminate Hdot.
Qed.

Lemma normal_no_slash l :
  Forall (fun seg => normal_segment seg = true) l ->
  Forall (fun seg => Validators.all_chars no_slash seg = true) l.
Proof.
  intros Hl. eapply Forall_impl; [exact Hl|].
  by intros seg (_ & _ & _ & ?)%normal_segment_spec.
Qed.

Lemma ends_with_slash_normal l :
  l <> [] -> Forall (fun seg => normal_segment seg = true) l ->
  Str.ends_with_slash (String.concat "/" l) = false.
Proof.
  intros Hne Hl. destruct (Str.ends_with_slash _) eqn:Hend; [|done].
  apply ends_with_slash_last in Hend.
  rewrite split_concat in Hend by by try apply normal_no_slash.
  apply last_Some_elem_of in Hend. rewrite Forall_forall in Hl.
  by apply Hl in Hend.
Qed.

Lemma concat_normal_nonempty l :
  l <> [] -> Forall (fun seg => normal_segment seg = true) l ->
  String.concat "/" l <> EmptyString.
Proof.
  intros Hne Hl [-> | ->]%concat_empty; [done|].
  by apply Forall_cons in Hl as [? _].
Qed.

Lemma split_absolute l :
  l <> [] -> Forall (fun seg => normal_segment seg = true) l ->
  Str.split ("/" +:+ String.concat "/" l) = EmptyString :: l.
Proof.
  intros Hne Hl. change (Str.split ("/" +:+ ?s)) with (EmptyString :: Str.split s).
  by rewrite split_concat by by try apply normal_no_slash.
Qed.

Lemma normalizeSegs_absolute allow l :
  Forall (fun seg => normal_segment seg = true) l ->
  Path.normalizeSegs allow (EmptyString :: l) = l.
Proof. intros Hl. by rewrite <- (normalizeSegs_normal allow l Hl) at 2. Qed.

(** An absolute path of normal segments names them, and [normalize]
    leaves it alone. *)
Lemma resolve_absolute cwd l :
  l <> [] -> Forall (fun seg => normal_segment seg = true) l ->
  Path.resolve cwd ("/" +:+ String.concat "/" l) = l.
Proof.
  intros Hne Hl. unfold Path.resolve. cbn [Str.starts_with_slash append Ascii.eqb].
  change (Str.starts_with_slash ("/" +:+ String.concat "/" l)) with true. cbv iota.
  by rewrite split_absolute, normalizeSegs_absolute.
Qed.

Lemma normalize_absolute l :
  l <> [] -> Forall (fun seg => normal_segment seg = true) l ->
  Path.normalize ("/" +:+ String.concat "/" l) = "/" +:+ String.concat "/" l.
Proof.
  intros Hne Hl. unfold Path.normalize, Path.normalizeString.
  change (String.eqb ("/" +:+ String.concat "/" l) EmptyString) with false.
  change (Str.starts_with_slash ("/" +:+ String.concat "/" l)) with true.
  cbv iota zeta. cbn [negb].
  rewrite split_absolute, normalizeSegs_absolute by done.
  change ("/" +:+ String.concat "/" l)
    with (String "/" EmptyString +:+ String.concat "/" l) at 1.
  rewrite ends_with_slash_app, ends_with_slash_normal
    by by try apply concat_normal_nonempty.
  by destruct (String.eqb_spec (String.concat "/" l) EmptyString) as [?%concat_normal_nonempty|].
Qed.

(** [join] of an absolute directory and a normal relative path. *)
Lemma join_absolute root rel :
  Str.starts_with_slash root = true -> normal_relative rel = true ->
  Path.join root rel =
  "/" +:+ String.concat "/" (Path.normalizeSegs false (Str.split root) ++ Str.split rel).
Proof.
  intros Habs Hrel. rewrite join_under, Habs; [done| |done]. by destruct root.
Qed.

Lemma under_normal root rel :
  normal_relative rel = true ->
  Path.normalizeSegs false (Str.split root) ++ Str.split rel <> [] /\
  Forall (fun seg => normal_segment seg = true)
         (Path.normalizeSegs false (Str.split root) ++ Str.split rel).
Proof.
  intros Hrel. split.
  - destruct (split_cons rel) as (? & ? & ->). by destruct (Path.normalizeSegs _ _).
  - apply Forall_app. split; [apply normalizeSegs_false_normal|].
    by apply normal_relative_split.
Qed.

Lemma normal_relative_name name :
  name <> EmptyString -> Validators.all_chars Validators.name_char name = true ->
  normal_relative name = true.
Proof.
  intros Hne Hall. destruct (name_normal name Hne Hall) as (Hn & Hs & _).
  unfold normal_relative. rewrite Hs. cbn. by rewrite Hn.
Qed.

Lemma app_nonempty_l {A} (a b : list A) : a <> [] -> a ++ b <> [].
Proof. by destruct a. Qed.

(** Two joins, one after the other, below an absolute directory. *)
Lemma join_join_absolute cwd name rel :
  Str.starts_with_slash cwd = true ->
  normal_relative name = true -> normal_relative rel = true ->
  Path.join (Path.join cwd name) rel =
  "/" +:+ String.concat "/"
    ((Path.normalizeSegs false (Str.split cwd) ++ Str.split name) ++ Str.split rel).
Proof.
  intros Habs Hname Hrel.
  destruct (under_normal cwd name Hname) as [Hne Hn].
  rewrite (join_absolute cwd name) by done.
  rewrite join_absolute by done.
  by rewrite split_absolute, normalizeSegs_absolute.
Qed.

(** X7. A name that [validateProjectName] accepts is one path segment that
    [sanitizePath] passes unchanged, and in an absolute working directory
    the project root [path.join(process.cwd(), name)] is the entry of that
    name directly in the working directory; every normal relative path
    joined to the root (the directories of [createStructure], the files of
    [getFileTemplates]) lies below it and is passed unchanged by
    [normalize]. *)
Theorem valid_name_project_root (E : Env) (name : string) :
  Validators.valid (Validators.validateProjectName name) = true ->
  Str.starts_with_slash (cwd E) = true ->
  let root := Path.normalizeSegs false (Str.split (cwd E)) ++ [name] in
  Validator.sanitizePath name = Ok name /\
  Fs.at_path E (Path.join (cwd E) name) = root /\
  (forall rel, normal_relative rel = true ->
     Fs.at_path E (Path.join (Path.join (cwd E) name) rel) = root ++ Str.split rel /\
     Path.normalize (Path.join (Path.join (cwd E) name) rel) =
       Path.join (Path.join (cwd E) name) rel) /\
  (forall config,
     Forall (fun rel => normal_relative rel = true)
       (["src/services"; "src/routes"; "src/middleware"; "src/utils"; "src/config";
         "public/css"; "public/js"; "public/images"; "public/uploads"; "tests";
         "logs"; "views/components"; "views/pages"; "views/layouts"] ++
        template_paths config)).
Proof.
  intros [Hne Hall]%valid_name_chars Habs. cbv zeta.
  destruct (name_normal name Hne Hall) as (Hnorm & Hsplit & Hdots).
  pose proof (normal_relative_name name Hne Hall) as Hrel.
  repeat split.
  - unfold Validator.sanitizePath.
    assert (Path.normalize name = name) as ->; [|by rewrite Hdots].
    unfold Path.normalize, Path.normalizeString.
    destruct (normal_relative_facts name Hrel) as (_ & -> & ->).
    destruct (String.eqb_spec name EmptyString); [done|]. cbv zeta. cbn [negb].
    rewrite normalizeSegs_normal by by apply normal_relative_split.
    rewrite concat_split. by destruct (String.eqb_spec name EmptyString).
  - unfold Fs.at_path. rewrite join_absolute by done.
    destruct (under_normal (cwd E) name Hrel) as [? ?].
    by rewrite resolve_absolute, Hsplit.
  - unfold Fs.at_path. rewrite join_join_absolute by done.
    destruct (under_normal (cwd E) name Hrel) as [? ?].
    rewrite resolve_absolute, Hsplit; [done|by apply app_nonempty_l|].
    apply Forall_app. split; [done|by apply normal_relative_split].
  - rewrite join_join_absolute by done.
    destruct (under_normal (cwd E) name Hrel) as [? ?].
    apply normalize_absolute; [by apply app_nonempty_l|].
    apply Forall_app. split; [done|by apply normal_relative_split].
  - intros config. apply Forall_app. split; [repeat constructor|].
    destruct (template_entries_normal config) as [Hn _].
    unfold template_paths. rewrite Forall_forall in Hn. apply Forall_forall.
    intros rel (e & -> & He)%(list_elem_of_fmap_1 fst). by apply Hn.
Qed.

Lemma valid_name_project_root_witness :
  Validator.sanitizePath "my-app" = Ok "my-app" /\
  Fs.at_path (host 0 false) (Path.join "/home/u" "my-app") = ["home"; "u"; "my-app"].
Proof.
  destruct (valid_name_project_root (host 0 false) "my-app") as (H1 & H2 & _);
    [reflexivity | reflexivity |].
  split; [exact H1 | exact H2].
Defined.

(** ** A working directory with two dots in its name *)

Lemma includes_app_r x a b :
  Str.includes x b = true -> Str.includes x (a +:+ b) = true.
Proof.
  intros Hb. induction a as [|c a IH]; [done|].
  rewrite append_cons. cbn [Str.includes]. by rewrite IH, orb_true_r.
Qed.

Lemma prefix_app x a b : String.prefix x a = true -> String.prefix x (a +:+ b) = true.
Proof.
  revert a. induction x as [|c x IH]; intros a; [intros _; by destruct (a +:+ b)|].
  destruct a as [|c' a]; [done|]. rewrite append_cons. cbn [String.prefix].
  destruct (ascii_dec c c'); [apply IH|done].
Qed.

Lemma includes_app_l x a b :
  Str.includes x a = true -> Str.includes x (a +:+ b) = true.
Proof.
  induction a as [|c a IH].
  - cbn [Str.includes]. rewrite orb_false_r. intros H.
    destruct x; [|done]. rewrite append_nil. by destruct b.
  - rewrite append_cons. cbn [Str.includes].
    intros [H|H]%orb_true_iff.
    + pose proof (prefix_app x (String c a) b H) as Hp.
      rewrite append_cons in Hp. by rewrite Hp.
    + by rewrite (IH H), orb_true_r.
Qed.

Lemma includes_concat x seg l :
  seg ∈ l -> Str.includes x seg = true ->
  Str.includes x (String.concat "/" l) = true.
Proof.
  intros Hin Hx. induction l as [|y l IH]; [by apply elem_of_nil in Hin|].
  destruct l as [|z l].
  - apply list_elem_of_singleton in Hin as ->. exact Hx.
  - change (String.concat "/" (y :: z :: l))
      with (y +:+ "/" +:+ String.concat "/" (z :: l)).
    apply elem_of_cons in Hin as [->|Hin].
    + by apply includes_app_l.
    + apply includes_app_r, (includes_app_r x "/"). by apply IH.
Qed.

Lemma createDirectory_rejected E p recursive e w :
  Validator.sanitizePath p = Throw e ->
  FileSystemManager.createDirectory E p recursive w =
  (Throw (Error ("Directory creation failed: " +:+ message e)),
   set_logged (logged w ++ [Log ERROR ("Failed to create directory: " +:+ p)]) w).
Proof. intros H. unfold FileSystemManager.createDirectory. rewrite H. reflexivity. Qed.

(** X8. In a working directory one of whose names has two dots in a row,
    no project can be generated: for every accepted project name the first
    [createDirectory] takes the path for a traversal, [generate] fails
    with that error, and with an empty ledger the run has made no call to
    the file system or to [npm] and has left the disk as it was. *)
Theorem dotted_cwd_blocks_generation (E : Env) (config : Config) (w : World) :
  Str.starts_with_slash (cwd E) = true ->
  Exists (fun seg => Str.includes ".." seg = true)
         (Path.normalizeSegs false (Str.split (cwd E))) ->
  Validators.valid (Validators.validateProjectName (projectName config)) = true ->
  createdFiles w = [] -> createdDirs w = [] ->
  let r := ProjectGenerator.generate E config w in
  fst r = Throw (Error "Directory creation failed: Path traversal detected") /\
  disk (snd r) = disk w /\
  calls (snd r) = calls w /\
  createdFiles (snd r) = [] /\ createdDirs (snd r) = [] /\
  List.map level (drop (length (logged w)) (logged (snd r))) =
    [INFO; ERROR; ERROR; WARN; SUCCESS].
Proof.
  intros Habs Hdots [Hne Hall]%valid_name_chars Hf Hd. cbv zeta.
  pose proof (normal_relative_name _ Hne Hall) as Hname.
  set (p := Path.join (Path.join (cwd E) (projectName config)) "src/services").
  assert (Hrej : Validator.sanitizePath p = Throw (Error "Path traversal detected")).
  { unfold Validator.sanitizePath, p.
    rewrite join_join_absolute by done.
    destruct (under_normal (cwd E) (projectName config) Hname) as [H0 H1].
    rewrite normalize_absolute;
      [|by apply app_nonempty_l|apply Forall_app; split; [done|by repeat constructor]].
    apply Exists_exists in Hdots as (seg & Hin & Hseg).
    rewrite (includes_app_r ".." "/"); [done|].
    apply (includes_concat ".." seg); [|done].
    rewrite <- app_assoc. apply elem_of_app. by left. }
  assert (Hstages : ProjectGenerator.stages E config w =
    (Throw (Error "Directory creation failed: Path traversal detected"),
     set_logged ((logged w ++ [Log INFO "Starting project generation..."]) ++
                 [Log ERROR ("Failed to create directory: " +:+ p)]) w)).
  { assert (Hcs : forall w0, ProjectGenerator.createStructure E config w0 =
        (Throw (Error ("Directory creation failed: " +:+
                       message (Error "Path traversal detected"))),
         set_logged (logged w0 ++
                     [Log ERROR ("Failed to create directory: " +:+ p)]) w0)).
    { intros w0. unfold ProjectGenerator.createStructure. apply bind_throw.
      destruct (ProjectGenerator.is_ejs config); cbn [app forOf];
        apply bind_throw, bind_throw, createDirectory_rejected, Hrej. }
    unfold ProjectGenerator.stages. erewrite bind_run by reflexivity.
    erewrite bind_throw by apply Hcs. reflexivity. }
  unfold ProjectGenerator.generate, try_catch. rewrite Hstages.
  unfold FileSystemManager.rollback, FileSystemManager.reverse_createdFiles,
    FileSystemManager.reverse_createdDirs.
  repeat progress (run; rewrite ?Hf, ?Hd; cbn [rev forOf Nat.eqb]).
  repeat split; try done.
  rewrite <- !app_assoc, drop_app_length. reflexivity.
Qed.

Lemma dotted_cwd_blocks_generation_witness :
  let r := ProjectGenerator.generate dotted demo home in
  fst r = Throw (Error "Directory creation failed: Path traversal detected") /\
  disk (snd r) = disk home.
Proof.
  destruct (dotted_cwd_blocks_generation dotted demo home) as (H1 & H2 & _);
    [reflexivity | vm_compute; apply Exists_cons_tl, Exists_cons_hd; reflexivity
    | reflexivity | reflexivity | reflexivity |].
  split; [exact H1 | exact H2].
Defined.

(** ** The ledger and the disk *)

#[local] Instance grows_preorder : PreOrder grows.
Proof.
  split.
  - intros w k. destruct (disk w !! k) as [[|c]|]; eauto.
  - intros w1 w2 w3 H12 H23 k. specialize (H12 k).
    destruct (disk w1 !! k) as [[|c]|]; [| |done].
    + specialize (H23 k). by rewrite H12 in H23.
    + destruct H12 as [c' H12]. specialize (H23 k). by rewrite H12 in H23.
Qed.

#[local] Instance shrinks_preorder : PreOrder shrinks.
Proof.
  split; [intros w; unfold shrinks; reflexivity|].
  intros w1 w2 w3 H12 H23. unfold shrinks in *. by etrans.
Qed.

Lemma grows_subseteq w w' : disk w ⊆ disk w' -> grows w w'.
Proof.
  intros Hsub k. destruct (disk w !! k) as [n|] eqn:Hk; [|done].
  apply (lookup_weaken _ _ _ _ Hk) in Hsub. rewrite Hsub. destruct n; eauto.
Qed.

Lemma grows_same w w' : disk w' = disk w -> grows w w'.
Proof. intros H. apply grows_subseteq. by rewrite H. Qed.

Lemma grows_node_dir w w' k :
  grows w w' -> Fs.node_at (disk w) k = Some Dir -> Fs.node_at (disk w') k = Some Dir.
Proof.
  intros Hg. destruct k as [|x k]; [done|]. cbn [Fs.node_at]. intros Hk.
  specialize (Hg (x :: k)). by rewrite Hk in Hg.
Qed.

Lemma grows_file w w' k c :
  grows w w' -> disk w !! k = Some (File c) -> exists c', disk w' !! k = Some (File c').
Proof. intros Hg Hk. specialize (Hg k). by rewrite Hk in Hg. Qed.

Section WithEnv.
Variable E : Env.

Lemma mkdir_walk_subseteq p rest : forall done d r d',
  Fs.mkdir_walk E p done rest d = (r, d') -> d ⊆ d'.
Proof.
  induction rest as [|name rest IH]; intros done d r d' H; simpl in H.
  - by injection H as _ <-.
  - destruct (d !! (done ++ [name])) as [[|c]|] eqn:Hk.
    + by apply IH in H.
    + by injection H as _ <-.
    + destruct (refuses E OpMkdir (done ++ [name])).
      * by injection H as _ <-.
      * apply IH in H. etrans; [|exact H]. by apply insert_subseteq.
Qed.

Lemma mkdir_one_subseteq p k d r d' :
  Fs.mkdir_one E p k d = (r, d') -> d ⊆ d'.
Proof.
  unfold Fs.mkdir_one. destruct (Fs.node_at d k) eqn:Hk.
  - by intros [= _ <-].
  - destruct (Fs.node_at d (removelast k)) as [[|c]|];
      [|by intros [= _ <-]..].
    destruct (refuses E OpMkdir k); intros [= _ <-]; [done|].
    apply insert_subseteq. by destruct k.
Qed.

Lemma mkdir_result_subseteq p recursive w r d' :
  Fs.mkdir_result E p recursive w = (r, d') -> disk w ⊆ d'.
Proof.
  unfold Fs.mkdir_result. destruct recursive.
  - apply mkdir_walk_subseteq.
  - apply mkdir_one_subseteq.
Qed.

(** What a call of [createDirectory] leaves, whether it succeeds or not. *)
Lemma createDirectory_world p recursive w :
  let r := FileSystemManager.createDirectory E p recursive w in
  disk w ⊆ disk (snd r) /\
  createdFiles (snd r) = createdFiles w /\
  (createdDirs (snd r) = createdDirs w \/
   exists s, Validator.sanitizePath p = Ok s /\ fst r = Ok (JsBool true) /\
             createdDirs (snd r) = createdDirs w ++ [s] /\
             Fs.node_at (disk w) (Fs.at_path E s) = None /\
             Fs.node_at (disk (snd r)) (Fs.at_path E s) = Some Dir).
Proof.
  cbv zeta. destruct (Validator.sanitizePath p) as [s|e] eqn:Hs.
  - destruct (Fs.node_at (disk w) (Fs.at_path E s)) as [n|] eqn:Hn.
    + rewrite (createDirectory_present E p s recursive w Hs) by by rewrite Hn.
      by repeat split; [|left].
    + destruct (Fs.mkdir_result E s recursive w) as [[[]|e] d'] eqn:Hm.
      * rewrite (createDirectory_absent E p s recursive w d' Hs Hn Hm).
        cbn [fst snd disk createdFiles createdDirs].
        split; [by apply mkdir_result_subseteq in Hm|]. split; [done|].
        right. exists s. repeat split; try done.
        by apply mkdir_result_ok in Hm.
      * unfold FileSystemManager.createDirectory. rewrite Hs.
        unfold Fs.existsSync, Fs.mkdirSync. run. rewrite Hn. run.
        assert (Fs.mkdir_result E s recursive
                  (mkWorld (disk w) (createdFiles w) (createdDirs w)
                     (installedPackages w) (children w) (logged w)
                     (calls w ++ [ExistsSync s; MkdirSync s])) = (Throw e, d')) as Hm'
          by exact Hm.
        rewrite <- app_assoc. cbn [app]. rewrite Hm'. run.
        split; [by apply mkdir_result_subseteq in Hm|]. split; [done|by left].
  - unfold FileSystemManager.createDirectory. rewrite Hs. run.
    by repeat split; [|left].
Qed.

End WithEnv.

Lemma removelast_neq {A} (k : list A) : k <> [] -> removelast k <> k.
Proof.
  intros Hk Heq. apply (f_equal (@length A)) in Heq.
  destruct (exists_last Hk) as (k' & x & ->).
  rewrite removelast_last, length_app in Heq. cbn in Heq. lia.
Qed.

Ltac same_disk := repeat split; try done; try (by apply grows_same).

Section WithEnv.
Variable E : Env.

Lemma grows_write (w w' : World) k content :
  disk w !! k <> Some Dir ->
  disk w' = <[k := File content]> (disk w) -> grows w w'.
Proof.
  intros Hk Hd k'. rewrite Hd. destruct (decide (k' = k)) as [->|Hne].
  - rewrite lookup_insert_eq. destruct (disk w !! k) as [[|c]|]; eauto. done.
  - rewrite lookup_insert_ne by done. destruct (disk w !! k') as [[|c]|]; eauto.
Qed.

Lemma writeFileSync_world s content w :
  let r := Fs.writeFileSync E s content w in
  grows w (snd r) /\
  createdFiles (snd r) = createdFiles w /\
  createdDirs (snd r) = createdDirs w /\
  (fst r = Ok tt ->
   disk (snd r) !! Fs.at_path E s = Some (File content) /\
   Fs.node_at (disk (snd r)) (removelast (Fs.at_path E s)) = Some Dir).
Proof.
  cbv zeta. unfold Fs.writeFileSync. run.
  destruct (Fs.at_path E s) as [|x k] eqn:Hk; [same_disk|].
  destruct (Fs.node_at (disk w) (removelast (x :: k))) as [[|c]|] eqn:Hp;
    [|same_disk..].
  assert (Hup : Fs.node_at (<[x :: k := File content]> (disk w))
                  (removelast (x :: k)) = Some Dir).
  { destruct (removelast (x :: k)) as [|y k'] eqn:Hr; [done|].
    cbn [Fs.node_at] in *. rewrite lookup_insert_ne; [done|].
    rewrite <- Hr. intros Heq. by apply (removelast_neq (x :: k)). }
  destruct (disk w !! (x :: k)) as [[|c]|] eqn:Hn; [same_disk|..];
    (destruct (refuses E OpWrite (x :: k)); [same_disk|]);
    cbn [fst snd disk createdFiles createdDirs];
    (split; [apply (grows_write _ _ (x :: k) content); [by rewrite Hn|done]|]);
    repeat split; try done; by rewrite lookup_insert_eq.
Qed.

Lemma try_catch_bind {A B} (m : M A) (k : A -> M B) h w :
  try_catch (bind m k) h w =
  match m w with
  | (Ok a, w') => try_catch (k a) h w'
  | (Throw e, w') => h e w'
  end.
Proof. unfold try_catch, bind. by destruct (m w) as [[a|e] w']. Qed.

(** [writeFile] once its path is accepted: the write itself, in the world
    the check of the parent directory leaves. *)
Lemma writeFile_unfold p s content w :
  Validator.sanitizePath p = Ok s ->
  let h := fun error =>
    logger ERROR ("Failed to write file: " +:+ p) ;;
    throw (Error ("File write failed: " +:+ message error)) in
  let tail := try_catch
    (Fs.writeFileSync E s content ;;
     (fun w => (Ok tt, set_createdFiles (createdFiles w ++ [s]) w)) ;;
     logger DEBUG ("Created file: " +:+ s) ;; ret (JsBool true)) h in
  let w0 := set_calls (calls w ++ [ExistsSync (Path.dirname s)]) w in
  FileSystemManager.writeFile E p content w =
  match Fs.node_at (disk w) (Fs.at_path E (Path.dirname s)) with
  | Some _ => tail w0
  | None =>
      match FileSystemManager.createDirectory E (Path.dirname s) true w0 with
      | (Ok _, w1) => tail w1
      | (Throw e, w1) => h e w1
      end
  end.
Proof.
  intros Hs. cbv zeta. unfold FileSystemManager.writeFile. rewrite Hs.
  rewrite try_catch_bind. cbn [lift]. rewrite try_catch_bind.
  unfold Fs.existsSync at 1. unfold bind at 1, called at 1.
  rewrite try_catch_bind. cbn [disk set_calls].
  destruct (Fs.node_at (disk w) (Fs.at_path E (Path.dirname s))); cbn [negb].
  - reflexivity.
  - unfold bind at 1.
    by destruct (FileSystemManager.createDirectory E (Path.dirname s) true _)
      as [[v|e] w1].
Qed.

(** What a call of [writeFile] leaves, whether it succeeds or not. *)
Lemma writeFile_world p content w :
  let r := FileSystemManager.writeFile E p content w in
  grows w (snd r) /\
  (createdDirs (snd r) = createdDirs w \/
   exists s d, Validator.sanitizePath p = Ok s /\
               Validator.sanitizePath (Path.dirname s) = Ok d /\
               createdDirs (snd r) = createdDirs w ++ [d] /\
               Fs.node_at (disk (snd r)) (Fs.at_path E d) = Some Dir) /\
  ((createdFiles (snd r) = createdFiles w /\ exists e, fst r = Throw e) \/
   exists s, Validator.sanitizePath p = Ok s /\ fst r = Ok (JsBool true) /\
             createdFiles (snd r) = createdFiles w ++ [s] /\
             disk (snd r) !! Fs.at_path E s = Some (File content) /\
             Fs.node_at (disk (snd r)) (removelast (Fs.at_path E s)) = Some Dir).
Proof.
  cbv zeta. destruct (Validator.sanitizePath p) as [s|e] eqn:Hs.
  2: { unfold FileSystemManager.writeFile. rewrite Hs. run.
       split; [by apply grows_same|]. split; [by left|left; eauto]. }
  rewrite (writeFile_unfold p s content w Hs).
  set (w0 := set_calls _ w).
  assert (Hg0 : grows w w0) by by apply grows_same.
  assert (Hdirs : forall w1,
    grows w w1 ->
    (createdDirs w1 = createdDirs w \/
     exists d, Validator.sanitizePath (Path.dirname s) = Ok d /\
               createdDirs w1 = createdDirs w ++ [d] /\
               Fs.node_at (disk w1) (Fs.at_path E d) = Some Dir) ->
    createdFiles w1 = createdFiles w ->
    let r := try_catch
      (Fs.writeFileSync E s content ;;
       (fun w => (Ok tt, set_createdFiles (createdFiles w ++ [s]) w)) ;;
       logger DEBUG ("Created file: " +:+ s) ;; ret (JsBool true))
      (fun error => logger ERROR ("Failed to write file: " +:+ p) ;;
                    throw (Error ("File write failed: " +:+ message error))) w1 in
    grows w (snd r) /\
    (createdDirs (snd r) = createdDirs w \/
     exists s0 d, Ok s = Ok s0 /\
               Validator.sanitizePath (Path.dirname s0) = Ok d /\
               createdDirs (snd r) = createdDirs w ++ [d] /\
               Fs.node_at (disk (snd r)) (Fs.at_path E d) = Some Dir) /\
    ((createdFiles (snd r) = createdFiles w /\ exists e, fst r = Throw e) \/
     exists s', Ok s = Ok s' /\ fst r = Ok (JsBool true) /\
               createdFiles (snd r) = createdFiles w ++ [s'] /\
               disk (snd r) !! Fs.at_path E s' = Some (File content) /\
               Fs.node_at (disk (snd r)) (removelast (Fs.at_path E s')) = Some Dir)).
  { intros w1 Hg Hd Hf. cbv zeta.
    destruct (writeFileSync_world s content w1) as (Hg1 & Hf1 & Hd1 & Hok).
    run.
    destruct (Fs.writeFileSync E s content w1) as [[[]|e] w2]; run;
      cbn [fst snd] in *.
    - destruct (Hok eq_refl) as [Hfile Hparent].
      split; [by etrans|]. split.
      + destruct Hd as [Hd|(d & Hsd & Hd & Hnode)]; [left; congruence|].
        right. exists s, d. repeat split; [done|congruence|].
        by apply (grows_node_dir w1 w2).
      + right. exists s. repeat split; try done. congruence.
    - split; [by etrans|]. split.
      + destruct Hd as [Hd|(d & Hsd & Hd & Hnode)]; [left; congruence|].
        right. exists s, d. repeat split; [done|congruence|].
        by apply (grows_node_dir w1 w2).
      + left. split; [congruence|eauto]. }
  destruct (Fs.node_at (disk w) (Fs.at_path E (Path.dirname s))) as [n|].
  - apply (Hdirs w0); [done|by left|done].
  - destruct (createDirectory_world E (Path.dirname s) true w0) as (Hsub & Hf & Hd).
    destruct (FileSystemManager.createDirectory E (Path.dirname s) true w0)
      as [[v|e] w1]; cbn [fst snd] in *.
    + apply (Hdirs w1); [etrans; [exact Hg0|by apply grows_subseteq]| |done].
      destruct Hd as [Hd|(d & Hsd & _ & Hd & _ & Hnode)]; [by left|right; eauto].
    + run. split; [etrans; [exact Hg0|by apply grows_subseteq]|].
      split; [|left; eauto].
      destruct Hd as [Hd|(d & Hsd & _ & Hd & _ & Hnode)]; [by left|].
      right. exists s, d. eauto.
Qed.

Lemma writeFile_throws p content w e :
  fst (FileSystemManager.writeFile E p content w) = Throw e ->
  exists m, e = Error ("File write failed: " +:+ m).
Proof.
  unfold FileSystemManager.writeFile, try_catch.
  destruct (bind _ _ w) as [[v|e0] w']; [discriminate|]. run.
  intros [= <-]. eauto.
Qed.

End WithEnv.

#[local] Instance sound_step_preorder E : PreOrder (sound_step E).
Proof.
  split.
  - intros w. split; [reflexivity|done].
  - intros w1 w2 w3 [Hg12 H12] [Hg23 H23]. split; [by etrans|auto].
Qed.

Lemma sound_same E w w' :
  disk w' = disk w -> createdFiles w' = createdFiles w ->
  createdDirs w' = createdDirs w -> sound_step E w w'.
Proof.
  intros Hd Hf Hc. split; [by apply grows_same|].
  unfold ledger_on_disk. by rewrite Hd, Hf, Hc.
Qed.

Lemma ledger_step E w w' :
  grows w w' ->
  (createdDirs w' = createdDirs w \/
   exists d, createdDirs w' = createdDirs w ++ [d] /\
             Fs.node_at (disk w') (Fs.at_path E d) = Some Dir) ->
  (createdFiles w' = createdFiles w \/
   exists s c, createdFiles w' = createdFiles w ++ [s] /\
               disk w' !! Fs.at_path E s = Some (File c)) ->
  sound_step E w w'.
Proof.
  intros Hg Hd Hf. split; [done|]. intros [Hdirs Hfiles]. split.
  - intros p Hp.
    assert (p ∈ createdDirs w \/
            Fs.node_at (disk w') (Fs.at_path E p) = Some Dir) as [Hold|Hnew].
    { destruct Hd as [Hd|(d & Hd & Hnode)]; rewrite Hd in Hp; [by left|].
      apply elem_of_app in Hp as [Hp|Hp]; [by left|].
      apply list_elem_of_singleton in Hp as ->. by right. }
    + by apply (grows_node_dir w w'), Hdirs.
    + done.
  - intros p Hp.
    assert (p ∈ createdFiles w \/
            exists c, disk w' !! Fs.at_path E p = Some (File c)) as [Hold|Hnew].
    { destruct Hf as [Hf|(s & c & Hf & Hnode)]; rewrite Hf in Hp; [by left|].
      apply elem_of_app in Hp as [Hp|Hp]; [by left|].
      apply list_elem_of_singleton in Hp as ->. right. eauto. }
    + destruct (Hfiles p Hold) as [c Hc]. by apply (grows_file w w' _ c).
    + done.
Qed.

Section WithEnv.
Variable E : Env.

Lemma createDirectory_sound p recursive :
  keeps (sound_step E) (FileSystemManager.createDirectory E p recursive).
Proof.
  intros w. destruct (createDirectory_world E p recursive w) as (Hsub & Hf & Hd).
  apply ledger_step; [by apply grows_subseteq| |by left].
  destruct Hd as [Hd|(s & _ & _ & Hd & _ & Hnode)]; [by left|right; eauto].
Qed.

Lemma writeFile_sound p content :
  keeps (sound_step E) (FileSystemManager.writeFile E p content).
Proof.
  intros w. destruct (writeFile_world E p content w) as (Hg & Hd & Hf).
  apply ledger_step; [done| |].
  { destruct Hd as [Hd|(s & d & _ & _ & Hd & Hnode)]; [by left|right; eauto]. }
  destruct Hf as [[Hf _]|(s & _ & _ & Hf & Hnode & _)]; [by left|right; eauto].
Qed.

Lemma logger_sound l msg : keeps (sound_step E) (logger l msg).
Proof. intros w. by apply sound_same. Qed.

Lemma install_sound projectDir deps dev :
  keeps (sound_step E) (PackageManager.installDependencies E projectDir deps dev).
Proof.
  intros w. destruct (install_spec E projectDir deps dev w)
    as (w' & -> & _ & _ & Hd & Hf & Hc & _).
  by apply sound_same.
Qed.

Ltac sound_steps :=
  repeat first
    [ keeps_leaf | keeps_split
    | apply logger_sound | apply createDirectory_sound | apply writeFile_sound
    | apply install_sound
    | match goal with
      | |- forall _, _ => intros ?
      | |- keeps _ (if ?b then _ else _) => destruct b
      end ].

Lemma perform_all_sound ops : keeps (sound_step E) (perform_all E ops).
Proof. unfold perform_all. sound_steps. destruct x; sound_steps. Qed.

Lemma build_sound config : keeps (sound_step E) (build E config).
Proof.
  unfold build, ProjectGenerator.createStructure, ProjectGenerator.generateFiles,
    ProjectGenerator.installDependencies, ProjectGenerator.when.
  sound_steps.
Qed.

End WithEnv.

(** X9. The manager's ledger stays true to the disk: if every recorded
    directory is a directory on the disk and every recorded file a file,
    this is still so after any sequence of [createDirectory] and
    [writeFile] calls, failed ones included, and after the three stages of
    [generate] that build the project.  Along the way nothing on the disk
    goes away or changes its kind; only the content of a file may. *)
Theorem ledger_on_disk_kept (E : Env) (ops : list Op) (config : Config) (w : World) :
  ledger_on_disk E w ->
  ledger_on_disk E (snd (perform_all E ops w)) /\
  ledger_on_disk E (snd (build E config w)) /\
  grows w (snd (perform_all E ops w)) /\
  grows w (snd (build E config w)).
Proof.
  intros Hw.
  destruct (perform_all_sound E ops w) as [Hg1 H1].
  destruct (build_sound E config w) as [Hg2 H2]. auto.
Qed.

Lemma ledger_on_disk_kept_witness :
  ledger_on_disk (host 0 false)
    (snd (perform_all (host 0 false)
            [CreateDirectory "keep/sub"; WriteFile "keep/note.txt" "x";
             WriteFile "sub/notes..txt" "y"] lived_in)) /\
  ledger_on_disk (host 1 false) (snd (build (host 1 false) demo home)).
Proof.
  split.
  - apply (ledger_on_disk_kept (host 0 false) _ demo lived_in).
    split; intros p Hp; by apply elem_of_nil in Hp.
  - apply (ledger_on_disk_kept (host 1 false) [] demo home).
    split; intros p Hp; by apply elem_of_nil in Hp.
Defined.

(** ** What rollback takes away *)

Section WithEnv.
Variable E : Env.

Lemma rollback_shrinks w : shrinks w (snd (FileSystemManager.rollback E w)).
Proof.
  destruct (rollback_spec E w) as (w' & lg & -> & _ & _ & _ & _ & HP).
  cbn [snd]. unfold shrinks. apply (HP (fun d => d ⊆ disk w)); [| |done].
  - intros p d _ Hd _. etrans; [apply delete_subseteq|done].
  - intros p d _ Hd _. etrans; [apply delete_subseteq|done].
Qed.

Lemma rollback_file_step file n w :
  exists n' w',
    FileSystemManager.rollback_file E file n w = (Ok n', w') /\
    disk w' ⊆ disk w /\
    (refuses E OpUnlink (Fs.at_path E file) = false ->
     forall c, disk w' !! Fs.at_path E file <> Some (File c)).
Proof.
  unfold FileSystemManager.rollback_file, Fs.existsSync, Fs.unlinkSync. run.
  destruct (Fs.node_at (disk w) (Fs.at_path E file)) as [nd|] eqn:Hn; run.
  - destruct (disk w !! Fs.at_path E file) as [[|c0]|] eqn:Hk; run.
    + eexists _, _. split; [reflexivity|]. cbn. split; [done|].
      intros _ c. by rewrite Hk.
    + destruct (refuses E OpUnlink (Fs.at_path E file)) eqn:Hr; run;
        (eexists _, _; split; [reflexivity|]); cbn.
      * split; [done|]. discriminate.
      * split; [apply delete_subseteq|]. intros _ c. by rewrite lookup_delete_eq.
    + destruct (Fs.at_path E file); run;
        (eexists _, _; split; [reflexivity|]); cbn;
        (split; [done|]); intros _ c; by rewrite Hk.
  - eexists _, _. split; [reflexivity|]. cbn. split; [done|].
    intros _ c Hc. destruct (Fs.at_path E file); [done|].
    cbn [Fs.node_at] in Hn. congruence.
Qed.

Lemma rollback_files_loop l : forall n w,
  (forall p, p ∈ l -> refuses E OpUnlink (Fs.at_path E p) = false) ->
  exists n' w',
    forOf l (FileSystemManager.rollback_file E) n w = (Ok n', w') /\
    disk w' ⊆ disk w /\
    forall p, p ∈ l -> forall c, disk w' !! Fs.at_path E p <> Some (File c).
Proof.
  induction l as [|x l IH]; intros n w Hl.
  - exists n, w. split; [reflexivity|]. split; [done|].
    intros p Hp. by apply elem_of_nil in Hp.
  - destruct (rollback_file_step x n w) as (n1 & w1 & H1 & Hsub1 & Hx).
    destruct (IH n1 w1) as (n2 & w2 & H2 & Hsub2 & Hrest).
    { intros p Hp. apply Hl. by right. }
    exists n2, w2. cbn [forOf]. rewrite (bind_run _ _ _ _ _ H1).
    split; [exact H2|]. split; [by etrans|].
    intros p [->|Hp]%elem_of_cons c; [|by apply Hrest].
    intros Hc. apply (lookup_weaken _ _ _ _ Hc) in Hsub2.
    revert Hsub2. apply Hx, Hl. by left.
Qed.

(** After [rollback], under no refusal to unlink, none of the recorded
    files is a file on the disk any more. *)
Lemma rollback_removes_files w :
  (forall p, p ∈ createdFiles w -> refuses E OpUnlink (Fs.at_path E p) = false) ->
  forall p, p ∈ createdFiles w ->
  forall c, disk (snd (FileSystemManager.rollback E w)) !! Fs.at_path E p
            <> Some (File c).
Proof.
  intros Hl p Hp c. unfold FileSystemManager.rollback.
  unfold bind at 1. cbn [logger].
  unfold bind at 1, FileSystemManager.reverse_createdFiles at 1. cbv zeta.
  set (w0 := set_createdFiles _ _).
  destruct (rollback_files_loop (rev (createdFiles w)) 0 w0)
    as (n1 & w1 & H1 & Hsub1 & Hfiles).
  { intros q Hq. by apply Hl, elem_of_rev_1. }
  rewrite (bind_run _ _ _ _ _ H1).
  unfold bind at 1, FileSystemManager.reverse_createdDirs at 1. cbv zeta.
  set (w2 := set_createdDirs _ w1).
  destruct (sweep_loop E deletable_dir (FileSystemManager.rollback_dir E)
              (rollback_dir_swept E) (rev (createdDirs w1)) n1 w2)
    as (n3 & w3 & H3 & _ & _ & _ & _ & HP).
  rewrite (bind_run _ _ _ _ _ H3), rollback_tail. cbn [snd set_logged disk].
  assert (Hsub3 : disk w3 ⊆ disk w1).
  { apply (HP (fun d => d ⊆ disk w1)); [|done].
    intros q d _ Hd _. etrans; [apply delete_subseteq|done]. }
  intros Hc. apply (lookup_weaken _ _ _ _ Hc) in Hsub3.
  revert Hsub3. apply Hfiles. apply list_elem_of_In, in_rev.
  rewrite rev_involutive. by apply list_elem_of_In.
Qed.

End WithEnv.

Lemma rollback_clears (E : Env) (w : World) :
  (forall p, p ∈ createdFiles w -> refuses E OpUnlink (Fs.at_path E p) = false) ->
  let w' := snd (FileSystemManager.rollback E w) in
  disk w' ⊆ disk w /\
  (forall p c, p ∈ createdFiles w -> disk w' !! Fs.at_path E p <> Some (File c)) /\
  (ledger_on_disk E w ->
   forall p, p ∈ createdFiles w -> disk w' !! Fs.at_path E p = None).
Proof.
  intros Hl. cbv zeta. pose proof (rollback_shrinks E w) as Hsub.
  split; [exact Hsub|]. split.
  - intros p c Hp. by apply rollback_removes_files.
  - intros [_ Hfiles] p Hp. destruct (Hfiles p Hp) as [c0 Hc0].
    destruct (disk (snd (FileSystemManager.rollback E w)) !! Fs.at_path E p)
      as [nd|] eqn:Hk; [|done].
    pose proof (lookup_weaken _ _ _ _ Hk Hsub) as Hk'.
    rewrite Hc0 in Hk'. injection Hk' as <-.
    by apply (rollback_removes_files E w Hl p Hp) in Hk.
Qed.



(** X11. A file that was there before the run and that [writeFile] wrote
    over is deleted by [rollback], not restored: once the write has
    succeeded and no unlink is refused, nothing is left at its path. *)
Theorem rollback_deletes_overwritten_file (E : Env) (p s content old : string)
    (w : World) :
  let r := FileSystemManager.writeFile E p content w in
  Validator.sanitizePath p = Ok s ->
  disk w !! Fs.at_path E s = Some (File old) ->
  fst r = Ok (JsBool true) ->
  (forall q, q ∈ createdFiles (snd r) ->
             refuses E OpUnlink (Fs.at_path E q) = false) ->
  disk (snd r) !! Fs.at_path E s = Some (File content) /\
  disk (snd (FileSystemManager.rollback E (snd r))) !! Fs.at_path E s = None.
Proof.
  cbv zeta. intros Hs Hold Hok Hl.
  destruct (writeFile_world E p content w) as (_ & _ & [[_ [e He]]|Hw]);
    [congruence|].
  destruct Hw as (s' & Hs' & _ & Hf & Hfile & _).
  assert (s' = s) as -> by congruence.
  split; [exact Hfile|].
  set (w1 := snd (FileSystemManager.writeFile E p content w)) in *.
  destruct (disk (snd (FileSystemManager.rollback E w1)) !! Fs.at_path E s)
    as [nd|] eqn:Hk; [|done].
  pose proof (lookup_weaken _ _ _ _ Hk (rollback_shrinks E w1)) as Hk'.
  rewrite Hfile in Hk'. injection Hk' as <-.
  apply (rollback_removes_files E w1 Hl s) in Hk; [done|].
  rewrite Hf. apply elem_of_app. right. by apply list_elem_of_singleton.
Qed.

Lemma rollback_deletes_overwritten_file_witness :
  let r := FileSystemManager.writeFile (host 0 false) "keep/note.txt" "new" lived_in in
  disk lived_in !! ["home"; "u"; "keep"; "note.txt"] = Some (File "mine") /\
  disk (snd r) !! ["home"; "u"; "keep"; "note.txt"] = Some (File "new") /\
  disk (snd (FileSystemManager.rollback (host 0 false) (snd r)))
    !! ["home"; "u"; "keep"; "note.txt"] = None.
Proof.
  cbv zeta. split; [reflexivity|].
  apply (rollback_deletes_overwritten_file (host 0 false)
           "keep/note.txt" "keep/note.txt" "new" "mine" lived_in);
    [reflexivity | reflexivity | reflexivity | intros q _; reflexivity].
Defined.

(** X12. What [writeFile] promises.  Whatever happens, nothing on the disk
    goes away or changes its kind.  When it returns, it returns [true], the
    path as [sanitizePath] gives it holds the content, its parent is a
    directory, and the ledger has gained exactly this one file.  When it
    throws, the message starts with [File write failed: ] and the ledger
    has gained no file.  In both cases the ledger has gained at most one
    directory, the parent, and that one is on the disk. *)
Theorem writeFile_outcome (E : Env) (p content : string) (w : World) :
  let r := FileSystemManager.writeFile E p content w in
  grows w (snd r) /\
  (createdDirs (snd r) = createdDirs w \/
   exists s, Validator.sanitizePath p = Ok s /\
             createdDirs (snd r) = createdDirs w ++ [Path.normalize (Path.dirname s)] /\
             Fs.node_at (disk (snd r))
               (Fs.at_path E (Path.normalize (Path.dirname s))) = Some Dir) /\
  ((fst r = Ok (JsBool true) /\
    exists s, Validator.sanitizePath p = Ok s /\
              createdFiles (snd r) = createdFiles w ++ [s] /\
              disk (snd r) !! Fs.at_path E s = Some (File content) /\
              Fs.node_at (disk (snd r)) (removelast (Fs.at_path E s)) = Some Dir) \/
   ((exists m, fst r = Throw (Error ("File write failed: " +:+ m))) /\
    createdFiles (snd r) = createdFiles w)).
Proof.
  cbv zeta. destruct (writeFile_world E p content w) as (Hg & Hd & Hf).
  split; [exact Hg|]. split.
  - destruct Hd as [Hd|(s & d & Hs & Hsd & Hd & Hnode)]; [by left|].
    right. exists s. destruct (sanitizePath_cases (Path.dirname s)) as [[_ H]|[_ H]];
      rewrite H in Hsd; [discriminate|]. injection Hsd as <-. done.
  - destruct Hf as [[Hf [e He]]|(s & Hs & Hok & Hfiles)].
    + right. destruct (writeFile_throws E p content w e He) as [m ->]. eauto.
    + left. eauto.
Qed.

(** ** The installed packages and [package.json] *)

Import PackageManager.

(** The packages an installation adds to [installedPackages]. *)
Lemma deliver_installed pid packages evs : forall st w,
  settled st = None -> timer_armed st = true ->
  installedPackages (snd (deliver pid packages evs st w)) =
  installedPackages w ++
  match verdict evs (stdout st) (stderr st) with
  | Ok _ => packages
  | Throw _ => []
  end.
Proof.
  induction evs as [|ev evs IH]; intros st w Hs Ht;
    destruct st as [se ta out err]; cbn in Hs, Ht; subst.
  - cbn. by rewrite app_nil_r.
  - cbn [deliver settled stdout stderr verdict]. destruct ev.
    1,2: erewrite bind_run by reflexivity; by apply IH.
    + cbn [handle]. destruct (code =? 0)%nat;
        (erewrite bind_run; [|run; reflexivity]);
        (erewrite deliver_settled by reflexivity); cbn; by rewrite ?app_nil_r.
    + cbn [handle]. erewrite bind_run; [|run; reflexivity].
      erewrite deliver_settled by reflexivity. cbn. by rewrite app_nil_r.
    + cbn [handle]. erewrite bind_run; [|run; reflexivity].
      erewrite deliver_settled by reflexivity. cbn. by rewrite app_nil_r.
Qed.

Section WithEnv.
Variable E : Env.

Lemma install_installed projectDir deps dev w :
  installedPackages (snd (installDependencies E projectDir deps dev w)) =
  installedPackages w ++
  match verdict (child_events E (length (children w)) (npm_args deps dev))
                EmptyString EmptyString with
  | Ok _ => packages_of deps
  | Throw _ => []
  end.
Proof.
  unfold installDependencies.
  erewrite bind_run by reflexivity. erewrite bind_run by reflexivity.
  erewrite bind_run by reflexivity.
  match goal with
  | |- context [bind (deliver ?pid ?pk ?evs ?st) _ ?w0] =>
      pose proof (deliver_installed pid pk evs st w0 eq_refl eq_refl) as Hi;
      destruct (deliver_verdict pid pk evs st w0 eq_refl eq_refl)
        as (st' & w' & Hrun & Hset & _)
  end.
  rewrite Hrun in Hi. erewrite bind_run by exact Hrun. rewrite Hset.
  cbn [snd installedPackages set_children set_calls set_logged stdout stderr] in *.
  unfold lift. cbn [snd]. exact Hi.
Qed.

(** The stage adds the packages of the steps that succeeded, in order;
    all of them if it succeeds. *)
Lemma exec_installed projectDir steps : forall w,
  let r := exec E projectDir steps w in
  exists k,
    installedPackages (snd r) =
      installedPackages w ++ List.concat (take k (planned steps)) /\
    (fst r = Ok tt -> k = length (planned steps)).
Proof.
  induction steps as [|s steps IH]; intros w.
  - exists 0. cbn. by rewrite app_nil_r.
  - unfold exec in *. cbn [forOf]. destruct s as [l msg|deps dev].
    + erewrite bind_run by reflexivity. apply (IH (set_logged _ w)).
    + pose proof (install_installed projectDir deps dev w) as Hi.
      destruct (install_spec E projectDir deps dev w) as (w1 & Hrun & _).
      rewrite Hrun in Hi. cbn [snd] in Hi. cbn [planned omap].
      destruct (verdict _ _ _) as [v|e].
      * erewrite bind_run; [|erewrite bind_run by exact Hrun; reflexivity].
        destruct (IH w1) as (k & Hk & Hok). exists (S k).
        cbn [take List.concat length]. rewrite Hk, Hi, <- app_assoc.
        split; [done|]. intros H. by rewrite (Hok H).
      * erewrite bind_throw; [|erewrite bind_throw by exact Hrun; reflexivity].
        exists 0. cbn [fst snd take List.concat]. by rewrite Hi.
Qed.

End WithEnv.

Lemma package_json_keys config :
  List.map fst (PackageJson.dependencies config) ++
  List.map fst (PackageJson.devDependencies config) =
  packages_named (planned (install_steps config)).
Proof.
  unfold PackageJson.dependencies, PackageJson.devDependencies, install_steps,
    ProjectGenerator.is_ejs.
  destruct config as [name ejs db port auth linter git].
  cbn [useEjs useDB features_authentication features_linter].
  destruct (String.eqb ejs "EJS (Dynamic)"), auth, linter;
    (destruct (String.eqb_spec db "MySQL") as [->|H1];
     [reflexivity|
      destruct (String.eqb_spec db "PostgreSQL") as [->|H2];
      [reflexivity|
       destruct (String.eqb_spec db "MongoDB") as [->|H3]; reflexivity]]).
Qed.

(** X13. [package.json] and the installation agree: the keys of
    [dependencies] followed by those of [devDependencies], none of them
    twice, are the packages the installation stage asks [npm] for, in
    that order ([eslint prettier] is asked for as one argument); and when
    the stage succeeds, [installedPackages] has gained exactly the
    arguments of its steps. *)
Theorem package_json_matches_installation (E : Env) (config : Config) (w : World) :
  let keys := List.map fst (PackageJson.dependencies config) ++
              List.map fst (PackageJson.devDependencies config) in
  let r := ProjectGenerator.installDependencies E config w in
  keys = packages_named (planned (install_steps config)) /\
  NoDup keys /\
  (fst r = Ok tt ->
   installedPackages (snd r) =
     installedPackages w ++ List.concat (planned (install_steps config))) /\
  exists k, installedPackages (snd r) =
            installedPackages w ++ List.concat (take k (planned (install_steps config))).
Proof.
  cbv zeta. split; [apply package_json_keys|]. split.
  - rewrite package_json_keys. unfold install_steps, ProjectGenerator.is_ejs.
    destruct config as [name ejs db port auth linter git].
    cbn [useEjs useDB features_authentication features_linter].
    destruct (String.eqb ejs "EJS (Dynamic)"), auth, linter,
      (String.eqb db "MySQL"), (String.eqb db "PostgreSQL"),
      (String.eqb db "MongoDB");
      apply (bool_decide_unpack _); vm_compute; reflexivity.
  - rewrite installDependencies_exec.
    destruct (exec_installed E (Path.join (cwd E) (projectName config))
                (install_steps config) w) as (k & Hk & Hok).
    split; [|by exists k].
    intros H. rewrite Hk, (Hok H). by rewrite firstn_all.
Qed.

(** ** The name in [package.json] *)

Lemma lower_char_not_upper c : negb (Js.is_upper (Js.lower_char c)) = true.
Proof. each_char c. Qed.

Lemma lower_char_name c :
  Validators.name_char c = true -> Validators.name_char (Js.lower_char c) = true.
Proof. each_char c. Qed.

Lemma all_chars_map (f : ascii -> ascii) (P Q : ascii -> bool) s :
  (forall c, P c = true -> Q (f c) = true) ->
  Validators.all_chars P s = true ->
  Validators.all_chars Q (Js.map_chars f s) = true.
Proof.
  intros HPQ. induction s as [|c s IH]; [done|]. simpl.
  intros [Hc Hs]%andb_true_iff. by rewrite (HPQ c Hc), (IH Hs).
Qed.

Lemma all_chars_true s : Validators.all_chars (fun _ => true) s = true.
Proof. by induction s. Qed.

Lemma length_map_chars f s : String.length (Js.map_chars f s) = String.length s.
Proof. induction s; simpl; congruence. Qed.

Lemma replace_spaces_plain sub s : forall in_run,
  Validators.all_chars (fun c => negb (Js.is_space c)) s = true ->
  Js.replace_spaces sub in_run s = s.
Proof.
  induction s as [|c s IH]; intros in_run; [done|]. simpl.
  intros [Hc Hs]%andb_true_iff. apply negb_true_iff in Hc.
  by rewrite Hc, (IH _ Hs).
Qed.

Lemma replace_spaces_clean s : forall in_run,
  Validators.all_chars (fun c => negb (Js.is_upper c)) s = true ->
  Validators.all_chars (fun c => negb (Js.is_space c) && negb (Js.is_upper c))
                       (Js.replace_spaces "-" in_run s) = true.
Proof.
  induction s as [|c s IH]; intros in_run; [done|]. simpl.
  intros [Hc Hs]%andb_true_iff.
  destruct (Js.is_space c) eqn:Hsp.
  - destruct in_run; [by apply IH|].
    rewrite append_cons, append_nil. simpl. by apply IH.
  - simpl. by rewrite Hsp, Hc, (IH _ Hs).
Qed.

(** X14. The package name written to [package.json] has no white space
    and no upper-case letter from A to Z, whatever the project is called;
    for a project name that [validateProjectName] accepts it is the
    project name in lower case, of the same length, and again made of
    letters, digits, hyphens and underscores only. *)
Theorem package_name_normalised (config : Config) :
  Validators.all_chars (fun c => negb (Js.is_space c) && negb (Js.is_upper c))
                       (PackageJson.name config) = true /\
  (Validators.valid (Validators.validateProjectName (projectName config)) = true ->
   PackageJson.name config = Js.toLowerCase (projectName config) /\
   Validators.all_chars Validators.name_char (PackageJson.name config) = true /\
   String.length (PackageJson.name config) = String.length (projectName config)).
Proof.
  unfold PackageJson.name, Js.toLowerCase. split.
  - apply replace_spaces_clean.
    apply (all_chars_map _ (fun _ => true)); [|apply all_chars_true].
    intros c _. apply lower_char_not_upper.
  - intros [_ Hall]%valid_name_chars.
    pose proof (all_chars_map Js.lower_char _ _ _ lower_char_name Hall) as Hlow.
    rewrite replace_spaces_plain
      by (revert Hlow; apply all_chars_impl, name_char_not_space).
    by rewrite length_map_chars.
Qed.

Ltac run_in H :=
  repeat progress
    (cbv [bind ret throw try_catch lift called logger set_disk set_createdFiles
          set_createdDirs set_installedPackages set_children set_logged
          set_calls negb Application.confirmConfiguration] in H;
     cbn [disk createdFiles createdDirs installedPackages children logged calls
          fst snd message] in H).

(** ** The questions *)

Import Application.

Section WithHost.
Variable E : Env.
Variable P : Probe.

Lemma rmSync_spec p w :
  let r := FsRm.rmSync E p w in
  createdFiles (snd r) = createdFiles w /\
  createdDirs (snd r) = createdDirs w /\
  installedPackages (snd r) = installedPackages w /\
  match fst r with
  | Ok _ =>
      Fs.at_path E p <> [] /\
      FsRm.refused_below E (disk w) (Fs.at_path E p) = false /\
      disk (snd r) = filter (fun kv => ~ Fs.at_path E p `prefix_of` fst kv) (disk w)
  | Throw _ => snd r = w
  end.
Proof.
  cbv zeta. unfold FsRm.rmSync.
  destruct (Fs.at_path E p) as [|x k] eqn:Hk; [done|].
  destruct (FsRm.refused_below E (disk w) (x :: k)); [done|].
  cbn. repeat split; done.
Qed.

Lemma filter_tree_subseteq (d : gmap (list string) Node) k :
  filter (fun kv => ~ k `prefix_of` fst kv) d ⊆ d.
Proof. apply map_filter_subseteq. Qed.

Lemma filter_tree_lookup (d : gmap (list string) Node) k k' :
  filter (fun kv => ~ k `prefix_of` fst kv) d !! k' =
  if decide (k `prefix_of` k') then None else d !! k'.
Proof.
  destruct (decide (k `prefix_of` k')) as [Hp|Hp].
  - apply map_lookup_filter_None_2. right. intros x _ Hn. by apply Hn.
  - destruct (d !! k') as [x|] eqn:Hx.
    + by apply map_lookup_filter_Some_2.
    + apply map_lookup_filter_None_2. by left.
Qed.

Lemma log_errors l : forall w,
  forOf l (fun err _ => logger ERROR err) tt w =
  (Ok tt, set_logged (logged w ++ List.map (Log ERROR) l) w).
Proof.
  induction l as [|x l IH]; intros w.
  - cbn. unfold ret, set_logged. rewrite app_nil_r. by destruct w.
  - cbn [forOf]. erewrite bind_run by reflexivity. rewrite IH.
    cbn. by rewrite <- app_assoc.
Qed.

(** What the loop that asks for the name leaves: it does not throw, it
    only takes away from the disk, and the name it returns is an accepted
    one with nothing at its path. *)
Lemma ask_name_spec n : forall answers w,
  length answers <= n ->
  exists a w',
    ask_name E answers w = (Ok a, w') /\
    disk w' ⊆ disk w /\
    createdFiles w' = createdFiles w /\ createdDirs w' = createdDirs w /\
    installedPackages w' = installedPackages w /\
    match a with
    | Answered name rest =>
        Validators.valid (Validators.validateProjectName name) = true /\
        Fs.node_at (disk w') (Fs.at_path E (Path.join (cwd E) name)) = None /\
        length rest < length answers
    | Starved => True
    end.
Proof.
  induction n as [|n IH]; intros answers w Hlen.
  - destruct answers; [|cbn in Hlen; lia]. exists Starved, w. by repeat split.
  - destruct answers as [|name rest]; [exists Starved, w; by repeat split|].
    cbn in Hlen. cbn [ask_name].
    destruct (Validators.valid (Validators.validateProjectName name)) eqn:Hvalid.
    + unfold Fs.existsSync. run.
      destruct (Fs.node_at (disk w) (Fs.at_path E (Path.join (cwd E) name)))
        as [nd|] eqn:Hnode.
      2: { eexists _, _. split; [reflexivity|]. cbn. repeat split; try done. lia. }
      destruct rest as [|overwrite rest'].
      { eexists _, _. split; [reflexivity|]. cbn. by repeat split. }
      cbn in Hlen.
      destruct (String.eqb (Js.toLowerCase overwrite) "yes").
      * match goal with
        | |- context [FsRm.rmSync E ?p ?w0] =>
            pose proof (rmSync_spec p w0) as Hrm;
            destruct (FsRm.rmSync E p w0) as [[[]|e] w1]
        end; cbn [fst snd] in Hrm; destruct Hrm as (Hf & Hd & Hl & Hrm).
        -- destruct Hrm as (Hne & _ & Hdisk). cbn in Hf, Hd, Hl, Hdisk.
           eexists _, _. split; [reflexivity|]. cbn.
           rewrite Hdisk. split; [apply filter_tree_subseteq|].
           repeat split; try done; try congruence; [|lia].
           destruct (Fs.at_path E (Path.join (cwd E) name)) as [|x k] eqn:Hk; [done|].
           cbn [Fs.node_at]. rewrite filter_tree_lookup. by rewrite decide_True.
        -- subst w1.
           edestruct (IH rest') as (a & w' & Hrun & Hsub & Hf' & Hd' & Hi' & Ha);
             [lia|].
           rewrite Hrun. exists a, w'. split; [reflexivity|].
           cbn in Hsub, Hf', Hd', Hi'. repeat split; try done.
           destruct a; [|done]. destruct Ha as (? & ? & ?). repeat split; try done.
           cbn. lia.
      * edestruct (IH rest') as (a & w' & Hrun & Hsub & Hf' & Hd' & Hi' & Ha);
          [lia|].
        rewrite Hrun. exists a, w'. split; [reflexivity|].
        cbn in Hsub, Hf', Hd', Hi'. repeat split; try done.
        destruct a; [|done]. destruct Ha as (? & ? & ?). repeat split; try done.
        cbn. lia.
    + erewrite bind_run by apply log_errors.
      edestruct (IH rest) as (a & w' & Hrun & Hsub & Hf' & Hd' & Hi' & Ha); [lia|].
      rewrite Hrun. exists a, w'. split; [reflexivity|].
      cbn in Hsub, Hf', Hd', Hi'. repeat split; try done.
      destruct a; [|done]. destruct Ha as (? & ? & ?). repeat split; try done.
      cbn. lia.
Qed.

Lemma ask_port_spec answers : forall w,
  exists a w',
    ask_port answers w = (Ok a, w') /\
    disk w' = disk w /\
    createdFiles w' = createdFiles w /\ createdDirs w' = createdDirs w /\
    installedPackages w' = installedPackages w /\
    match a with
    | Answered port rest =>
        Validators.validatePort port = true /\ length rest < length answers
    | Starved => True
    end.
Proof.
  induction answers as [|answer rest IH]; intros w.
  - exists Starved, w. by repeat split.
  - cbn [ask_port].
    destruct (Validators.validatePort
                (if String.eqb answer EmptyString then "3000" else answer)) eqn:Hp.
    + eexists _, _. split; [reflexivity|]. cbn. repeat split; try done. lia.
    + erewrite bind_run by reflexivity.
      destruct (IH (set_logged (logged w ++ [Log ERROR "Invalid port number"]) w))
        as (a & w' & Hrun & Hd & Hf & Hc & Hi & Ha).
      rewrite Hrun. exists a, w'. split; [reflexivity|]. repeat split; try done.
      destruct a; [|done]. destruct Ha. split; [done|]. cbn. lia.
Qed.

Lemma choose_db_values dbAnswer :
  In (choose_db dbAnswer)
     ["MySQL"; "PostgreSQL"; "MongoDB"; "None";
      "function Object() { [native code] }"; "[object Object]"].
Proof.
  unfold choose_db, dbMap.
  repeat match goal with
         | |- context [String.eqb ?a ?b] => destruct (String.eqb a b)
         end; cbn; tauto.
Qed.

Lemma getProjectConfiguration_run answers w :
  exists a w',
    getProjectConfiguration E answers w = (Ok a, w') /\
    disk w' ⊆ disk w /\
    createdFiles w' = createdFiles w /\ createdDirs w' = createdDirs w /\
    installedPackages w' = installedPackages w /\
    match a with
    | Answered config rest =>
        Validators.valid (Validators.validateProjectName (projectName config)) = true /\
        Fs.node_at (disk w')
          (Fs.at_path E (Path.join (cwd E) (projectName config))) = None /\
        Validators.validatePort (port config) = true /\
        In (useEjs config) ["EJS (Dynamic)"; "Plain HTML (Static)"] /\
        In (useDB config)
           ["MySQL"; "PostgreSQL"; "MongoDB"; "None";
            "function Object() { [native code] }"; "[object Object]"] /\
        length rest + 7 <= length answers
    | Starved => True
    end.
Proof.
  unfold getProjectConfiguration.
  destruct (ask_name_spec (length answers) answers w (le_n _))
    as (a & w1 & Hrun & Hsub & Hf & Hc & Hi & Ha).
  erewrite bind_run by exact Hrun.
  destruct a as [name rest|]; [|exists Starved, w1; by repeat split].
  destruct Ha as (Hvalid & Hnode & Hlen).
  destruct rest as [|ejsAnswer [|dbAnswer [|authAnswer [|linterAnswer rest]]]];
    try (exists Starved, w1; by repeat split).
  destruct (ask_port_spec rest w1) as (b & w2 & Hrun2 & Hd2 & Hf2 & Hc2 & Hi2 & Hb).
  erewrite bind_run by exact Hrun2.
  destruct b as [port [|gitAnswer rest']|];
    try (exists Starved, w2; rewrite Hd2; repeat split; try done; congruence).
  destruct Hb as [Hport Hlen2].
  eexists _, w2. split; [reflexivity|]. rewrite Hd2.
  repeat split; try done; try congruence.
  - by destruct (unless_n ejsAnswer); cbn; tauto.
  - apply choose_db_values.
  - cbn in *. lia.
Qed.

End WithHost.

(** X15. [getProjectConfiguration] never throws, creates nothing and
    leaves the ledger alone; on the disk it can only take away (the
    directory that the user lets it overwrite).  The configuration it
    returns has a name that [validateProjectName] accepts, with nothing
    at [path.join(process.cwd(), name)] when it returns, and a port that
    [validatePort] accepts; the template is one of two, and the database
    is one of the four names unless the answer named a property that
    [dbMap] inherits.  At least seven answers have been read. *)
Theorem getProjectConfiguration_returns (E : Env) (answers : list string) (w : World) :
  exists a w',
    getProjectConfiguration E answers w = (Ok a, w') /\
    disk w' ⊆ disk w /\
    createdFiles w' = createdFiles w /\ createdDirs w' = createdDirs w /\
    installedPackages w' = installedPackages w /\
    match a with
    | Answered config rest =>
        Validators.valid (Validators.validateProjectName (projectName config)) = true /\
        Fs.node_at (disk w')
          (Fs.at_path E (Path.join (cwd E) (projectName config))) = None /\
        Validators.validatePort (port config) = true /\
        In (useEjs config) ["EJS (Dynamic)"; "Plain HTML (Static)"] /\
        In (useDB config)
           ["MySQL"; "PostgreSQL"; "MongoDB"; "None";
            "function Object() { [native code] }"; "[object Object]"] /\
        length rest + 7 <= length answers
    | Starved => True
    end.
Proof. exact (getProjectConfiguration_run E answers w). Qed.

(** X16. The database choice is one of the four names exactly when the
    answer, in lower case, is not [constructor] or [__proto__]; for these
    two [dbMap] yields a property that every object inherits, and the
    project then gets a database configuration file but no driver, neither
    in [package.json] nor among the packages installed. *)
Theorem inherited_database_choice (dbAnswer : string) (config : Config) :
  (In (Js.toLowerCase dbAnswer) ["constructor"; "__proto__"] <->
   ~ In (choose_db dbAnswer) ["MySQL"; "PostgreSQL"; "MongoDB"; "None"]) /\
  (In (Js.toLowerCase dbAnswer) ["constructor"; "__proto__"] ->
   useDB config = choose_db dbAnswer ->
   In "src/config/database.js" (template_paths config) /\
   forall driver, In driver ["mysql2"; "pg"; "mongodb"] ->
     ~ In driver (List.map fst (PackageJson.dependencies config)) /\
     ~ In [driver] (planned (install_steps config))).
Proof.
  unfold choose_db, dbMap. generalize (Js.toLowerCase dbAnswer) as key.
  intros key. split.
  - repeat match goal with
           | |- context [String.eqb key ?b] =>
               destruct (String.eqb_spec key b) as [->|?]
           end; cbn; split; intros H; intuition congruence.
  - intros [<-|[<-|[]]]; cbn; intros Hdb;
      unfold template_paths, template_entries, PackageJson.dependencies,
        install_steps, ProjectGenerator.is_ejs; rewrite Hdb;
      destruct (String.eqb (useEjs config) "EJS (Dynamic)"),
        (features_authentication config), (features_linter config);
      cbn; (split; [tauto|]); intros driver Hd;
      split; intros Hin; intuition (subst; discriminate).
Qed.

Lemma inherited_database_choice_witness :
  let config := mkConfig "demo" "Plain HTML (Static)" (choose_db "Constructor")
                         "3000" false false false in
  In "src/config/database.js" (template_paths config) /\
  List.map fst (PackageJson.dependencies config) =
    ["express"; "cors"; "dotenv"; "helmet"; "morgan"].
Proof.
  intros config.
  destruct (inherited_database_choice "Constructor" config) as [_ H].
  destruct H as [H _]; [vm_compute; tauto | reflexivity |].
  split; [exact H | reflexivity].
Defined.

(** ** How a run ends *)

Section WithHost.
Variable E : Env.
Variable P : Probe.

Lemma surjective_pairing_throw {A} (x : Res A * World) e :
  fst x = Throw e -> x = (Throw e, snd x).
Proof. destruct x as [r w']. cbn. by intros ->. Qed.

Lemma postGeneration_ok config w :
  exists w', ProjectGenerator.postGeneration E config w = (Ok tt, w') /\
             createdFiles w' = createdFiles w.
Proof.
  unfold ProjectGenerator.postGeneration, ProjectGenerator.git_init.
  destruct (initGit config); run; [|by eexists].
  destruct (Fs.node_at (disk w) _) as [[|c]|]; run; try by eexists.
  destruct (git_init_fails E); run; by eexists.
Qed.

(** [generate] succeeds when its first three stages do, and otherwise
    fails with their error once [rollback] has run. *)
Lemma generate_cases config w :
  (exists w3, build E config w = (Ok tt, w3) /\
     fst (ProjectGenerator.generate E config w) = Ok (JsBool true) /\
     last (logged (snd (ProjectGenerator.generate E config w))) =
       Some (Log SUCCESS ("Project generated in " +:+ duration E +:+ "s"))) \/
  (exists e w3, build E config w = (Throw e, w3) /\
     fst (ProjectGenerator.generate E config w) = Throw e /\
     snd (ProjectGenerator.generate E config w) =
       snd (FileSystemManager.rollback E
              (set_logged (logged w3 ++ [Log ERROR "Project generation failed"]) w3))).
Proof.
  unfold ProjectGenerator.generate, try_catch. rewrite stages_after_build.
  destruct (build E config w) as [[[]|e] w3].
  - left. exists w3. split; [done|].
    destruct (postGeneration_ok config w3) as (w4 & Hpost & _).
    erewrite bind_run by exact Hpost. run. split; [done|]. apply last_snoc.
  - right. exists e, w3. split; [done|].
    erewrite bind_run by reflexivity.
    match goal with
    | |- context [FileSystemManager.rollback E ?w0] =>
        destruct (rollback_spec E w0) as (w' & lg & Hrb & _)
    end.
    erewrite bind_run by exact Hrb. rewrite Hrb. by split.
Qed.


End WithHost.


Lemma failed_generate_clears (E : Env) (config : Config) (w : World)
    (e : JsError) :
  createdFiles w = [] -> createdDirs w = [] ->
  (forall k, refuses E OpUnlink k = false) ->
  fst (ProjectGenerator.generate E config w) = Throw e ->
  let w' := snd (ProjectGenerator.generate E config w) in
  fst (build E config w) = Throw e /\
  createdFiles w' = rev (createdFiles (snd (build E config w))) /\
  forall p, p ∈ createdFiles w' -> disk w' !! Fs.at_path E p = None.
Proof.
  intros Hf Hd Hun Hthrow. cbv zeta.
  destruct (generate_cases E config w)
    as [(w3 & _ & Hg & _)|(e' & w3 & Hbuild & Hg & Hw)]; [congruence|].
  assert (e' = e) as -> by congruence.
  rewrite Hw, Hbuild. cbn [fst snd]. split; [done|].
  set (w4 := set_logged _ w3).
  assert (Hledger : ledger_on_disk E w4).
  { destruct (build_sound E config w) as [_ Hsound]. rewrite Hbuild in Hsound.
    apply Hsound. split; intros p Hp; [rewrite Hd in Hp|rewrite Hf in Hp];
      by apply elem_of_nil in Hp. }
  destruct (rollback_spec E w4) as (w5 & lg & Hrb & Hfiles & _).
  destruct (rollback_clears E w4) as (_ & _ & Hgone); [intros; apply Hun|].
  rewrite Hrb in *. cbn [snd] in *. split; [exact Hfiles|].
  intros p Hp. apply Hgone; [done|]. rewrite Hfiles in Hp. by apply elem_of_rev_1.
Qed.


(** X18. When [generate] fails on a manager that was new, as the one of
    [Application] is, and no unlink is refused, every file the run has
    recorded is gone from the disk afterwards; the ledger still lists
    them, in reverse. *)
Theorem failed_generate_removes_its_files (E : Env) (config : Config) (w : World)
    (e : JsError) :
  createdFiles w = [] -> createdDirs w = [] ->
  (forall k, refuses E OpUnlink k = false) ->
  fst (ProjectGenerator.generate E config w) = Throw e ->
  let w' := snd (ProjectGenerator.generate E config w) in
  fst (build E config w) = Throw e /\
  createdFiles w' = rev (createdFiles (snd (build E config w))) /\
  forall p, p ∈ createdFiles w' -> disk w' !! Fs.at_path E p = None.
Proof. exact (failed_generate_clears E config w e). Qed.

Lemma failed_generate_removes_its_files_witness :
  let w' := snd (ProjectGenerator.generate (host 1 false) demo home) in
  length (createdFiles w') = 11 /\
  disk w' !! ["home"; "u"; "demo"; "src"; "app.js"] = None.
Proof.
  cbv zeta.
  destruct (failed_generate_removes_its_files (host 1 false) demo home
              (Error "Package installation failed: "))
    as (_ & Hfiles & Hgone);
    [reflexivity | reflexivity | intros k; reflexivity | vm_compute; reflexivity |].
  split; [vm_compute; reflexivity|].
  apply (Hgone "/home/u/demo/src/app.js").
  apply list_elem_of_In. vm_compute. tauto.
Defined.

Lemma ask_name_overwrite (E : Env) name overwrite rest w nd :
  Validators.valid (Validators.validateProjectName name) = true ->
  Fs.at_path E (Path.join (cwd E) name) <> [] ->
  disk w !! Fs.at_path E (Path.join (cwd E) name) = Some nd ->
  Js.toLowerCase overwrite = "yes" ->
  FsRm.refused_below E (disk w) (Fs.at_path E (Path.join (cwd E) name)) = false ->
  ask_name E (name :: overwrite :: rest) w =
  (Ok (Answered name rest),
   mkWorld (filter (fun kv => ~ Fs.at_path E (Path.join (cwd E) name) `prefix_of` fst kv)
                   (disk w))
           (createdFiles w) (createdDirs w) (installedPackages w) (children w)
           (logged w ++
            [Log ERROR ("Directory " +:+ Validators.quote +:+ name +:+
                        Validators.quote +:+ " already exists");
             Log SUCCESS "Existing directory removed"])
           (calls w ++ [ExistsSync (Path.join (cwd E) name)])).
Proof.
  intros Hvalid Hk Hnd Hyes Hfree. cbn [ask_name]. rewrite Hvalid.
  unfold Fs.existsSync, FsRm.rmSync. run.
  destruct (Fs.at_path E (Path.join (cwd E) name)) as [|x k0] eqn:Hkk; [done|].
  cbn [Fs.node_at]. rewrite Hnd, Hyes. cbn [String.eqb Ascii.eqb Bool.eqb].
  run. rewrite Hfree. run. by rewrite <- app_assoc.
Qed.

Lemma getProjectConfiguration_overwrite (E : Env)
    name overwrite ejs db auth linter port git rest w nd :
  Validators.valid (Validators.validateProjectName name) = true ->
  Fs.at_path E (Path.join (cwd E) name) <> [] ->
  disk w !! Fs.at_path E (Path.join (cwd E) name) = Some nd ->
  Js.toLowerCase overwrite = "yes" ->
  FsRm.refused_below E (disk w) (Fs.at_path E (Path.join (cwd E) name)) = false ->
  Validators.validatePort (if String.eqb port EmptyString then "3000" else port) = true ->
  exists config w',
    getProjectConfiguration E
      (name :: overwrite :: ejs :: db :: auth :: linter :: port :: git :: rest) w =
    (Ok (Answered config rest), w') /\
    disk w' = filter (fun kv => ~ Fs.at_path E (Path.join (cwd E) name) `prefix_of` fst kv)
                     (disk w) /\
    createdFiles w' = createdFiles w /\ createdDirs w' = createdDirs w.
Proof.
  intros Hvalid Hk Hnd Hyes Hfree Hport. unfold getProjectConfiguration.
  erewrite bind_run by by apply (ask_name_overwrite E name overwrite _ w nd).
  cbn [ask_port]. rewrite Hport. erewrite bind_run by reflexivity.
  eexists _, _. split; [reflexivity|]. by repeat split.
Qed.

(** X19. Letting the program overwrite an existing directory and then
    declining at the confirmation loses the directory: with a passing
    system check, an accepted name that is taken, the answer [yes] to the
    question whether to overwrite, no refusal to remove, an accepted port
    and [n] at the end, the process exits with code 0, everything at the
    project path and below it is gone, and nothing has been generated. *)
Theorem overwrite_then_decline (E : Env) (P : Probe) (w : World)
    (name overwrite ejs db auth linter port git confirm : string)
    (rest : list string) :
  let k := Fs.at_path E (Path.join (cwd E) name) in
  let r := run E P (name :: overwrite :: ejs :: db :: auth :: linter :: port ::
                    git :: confirm :: rest) w in
  fst (SystemChecker.checkAll P w) = Ok true ->
  Validators.valid (Validators.validateProjectName name) = true ->
  k <> [] -> is_Some (disk w !! k) ->
  Js.toLowerCase overwrite = "yes" ->
  FsRm.refused_below E (disk w) k = false ->
  Validators.validatePort (if String.eqb port EmptyString then "3000" else port) = true ->
  Js.toLowerCase confirm = "n" ->
  fst r = Exit 0 /\
  (forall k', disk (snd r) !! k' =
              if decide (k `prefix_of` k') then None else disk w !! k') /\
  createdFiles (snd r) = createdFiles w /\ createdDirs (snd r) = createdDirs w.
Proof.
  cbv zeta. intros Hcheck Hvalid Hk Hthere Hyes Hfree Hport Hn.
  set (r := run E P _ w).
  assert (Hr : r = run E P (name :: overwrite :: ejs :: db :: auth :: linter ::
                            port :: git :: confirm :: rest) w) by reflexivity.
  clearbody r. unfold run, attempt in Hr.
  destruct (checkAll_run P w) as (_ & Hd & Hf & Hc & _).
  unfold bind at 1 in Hr.
  destruct (SystemChecker.checkAll P w) as [r0 w0]. cbn [fst snd] in *. subst r0.
  cbn [negb] in Hr.
  destruct Hthere as [nd Hnd]. rewrite <- Hd in Hnd, Hfree.
  destruct (getProjectConfiguration_overwrite E name overwrite ejs db auth linter
              port git (confirm :: rest) w0 nd)
    as (config & w1 & Hrun & Hdisk & Hf1 & Hc1); try done.
  erewrite bind_run in Hr by exact Hrun.
  cbn [confirmConfiguration] in Hr. erewrite bind_run in Hr by reflexivity.
  unfold unless_n in Hr. rewrite Hn in Hr. run_in Hr. cbn in Hr.
  subst r. cbn [fst snd disk createdFiles createdDirs].
  split; [done|]. split; [|split; congruence].
  intros k'. rewrite Hdisk, Hd. apply filter_tree_lookup.
Qed.

Lemma overwrite_then_decline_witness :
  let r := run (host 0 false) recent
               ["old"; "yes"; "n"; "none"; "n"; "n"; EmptyString; "n"; "n"] settled_in in
  disk settled_in !! ["home"; "u"; "old"; "index.js"] = Some (File "mine") /\
  fst r = Exit 0 /\
  disk (snd r) !! ["home"; "u"; "old"; "index.js"] = None /\
  disk (snd r) !! ["home"; "u"] = Some Dir.
Proof.
  cbv zeta. split; [reflexivity|].
  destruct (overwrite_then_decline (host 0 false) recent settled_in
              "old" "yes" "n" "none" "n" "n" EmptyString "n" "n" [])
    as (Hexit & Hdisk & _);
    [reflexivity | reflexivity | discriminate | by eexists | reflexivity
    | reflexivity | reflexivity | reflexivity |].
  split; [exact Hexit|].
  split; [exact (Hdisk ["home"; "u"; "old"; "index.js"])
         |exact (Hdisk ["home"; "u"])].
Defined.


(** X24. A run of the application that ends with exit code 1 after a
    passing system check has left none of the files it generated: the
    manager was new, so whatever its ledger lists was written by this
    run, and with no unlink refused every such path is empty again. *)
Theorem failed_run_removes_its_files (E : Env) (P : Probe) (answers : list string)
    (w : World) :
  let r := main E P answers w in
  fst (SystemChecker.checkAll P w) = Ok true ->
  (forall k, refuses E OpUnlink k = false) ->
  fst r = Exit 1 ->
  forall p, p ∈ createdFiles (snd r) -> disk (snd r) !! Fs.at_path E p = None.
Proof.
  cbv zeta. intros Hcheck Hun. unfold main.
  set (wc := snd (construct w)).
  set (r := run E P answers wc).
  assert (Hr : r = run E P answers wc) by reflexivity. clearbody r.
  unfold run, attempt in Hr.
  destruct (checkAll_run P wc) as (Hok & Hd & Hf & Hc & _).
  destruct (checkAll_run P w) as (Hok' & _).
  unfold bind at 1 in Hr.
  destruct (SystemChecker.checkAll P wc) as [r0 w0]. cbn [fst snd] in *.
  rewrite Hok' in Hcheck. injection Hcheck as Hcheck. rewrite Hcheck in Hok.
  subst r0. cbn [negb] in Hr.
  destruct (getProjectConfiguration_run E answers w0)
    as (a & w1 & Hrun & _ & Hf1 & Hc1 & _).
  erewrite bind_run in Hr by exact Hrun.
  destruct a as [config rest|]; [|by subst r].
  destruct rest as [|confirm rest]; [by subst r|].
  cbn [confirmConfiguration] in Hr. erewrite bind_run in Hr by reflexivity.
  destruct (unless_n confirm); [|by subst r].
  destruct (generate_cases E config w1)
    as [(w3 & _ & Hg & _)|(e & w3 & _ & Hg & _)].
  - erewrite bind_run in Hr by (apply pair_of_fst; exact Hg). by subst r.
  - erewrite bind_throw in Hr by (apply surjective_pairing_throw; exact Hg).
    subst r. cbn [fst snd logger set_logged disk createdFiles]. intros _.
    destruct (failed_generate_clears E config w1 e) as (_ & _ & Hgone); try done.
    + by rewrite Hf1, Hf.
    + by rewrite Hc1, Hc.
Qed.

Lemma failed_run_removes_its_files_witness :
  let r := main (host 1 false) recent
                ["demo"; "n"; "none"; "n"; "n"; EmptyString; "n"; "y"] home in
  fst r = Exit 1 /\
  length (createdFiles (snd r)) = 11 /\
  disk (snd r) !! ["home"; "u"; "demo"; "package.json"] = None /\
  disk (snd r) !! ["home"; "u"; "demo"] = Some Dir.
Proof.
  cbv zeta. split; [vm_compute; reflexivity|]. split; [vm_compute; reflexivity|].
  split; [|vm_compute; reflexivity].
  apply (failed_run_removes_its_files (host 1 false) recent
           ["demo"; "n"; "none"; "n"; "n"; EmptyString; "n"; "y"] home
           eq_refl (fun _ => eq_refl) ltac:(vm_compute; reflexivity)
           "/home/u/demo/package.json").
  apply list_elem_of_In. vm_compute. tauto.
Defined.

(** ** Directories made on the way *)

Section WithEnv.
Variable E : Env.

Lemma node_dir_weaken (d d' : gmap (list string) Node) k :
  d ⊆ d' -> Fs.node_at d k = Some Dir -> Fs.node_at d' k = Some Dir.
Proof.
  intros Hsub. destruct k as [|x k]; [done|]. cbn [Fs.node_at].
  intros Hk. by apply (lookup_weaken _ _ _ _ Hk).
Qed.

(** [mkdir -p] leaves a directory at every step of the way. *)
Lemma mkdir_walk_prefixes p rest : forall done d d',
  Fs.node_at d done = Some Dir ->
  Fs.mkdir_walk E p done rest d = (Ok tt, d') ->
  forall i, Fs.node_at d' (done ++ take i rest) = Some Dir.
Proof.
  induction rest as [|name rest IH]; intros done d d' Hd H i; simpl in H.
  - injection H as <-. by rewrite take_nil, app_nil_r.
  - assert (Hstep : forall d1,
      d ⊆ d1 -> Fs.node_at d1 (done ++ [name]) = Some Dir ->
      Fs.mkdir_walk E p (done ++ [name]) rest d1 = (Ok tt, d') ->
      Fs.node_at d' (done ++ take i (name :: rest)) = Some Dir).
    { intros d1 Hsub Hnode Hwalk. destruct i as [|i].
      - cbn [take]. rewrite app_nil_r.
        apply (node_dir_weaken d); [|done].
        etrans; [exact Hsub|]. by apply mkdir_walk_subseteq in Hwalk.
      - cbn [take]. rewrite (cons_middle name), app_assoc.
        by apply (IH _ d1). }
    destruct (d !! (done ++ [name])) as [[|c]|] eqn:Hk; [|done|].
    + apply (Hstep d); [done| |done].
      destruct (done ++ [name]) eqn:Heq; [by destruct done|done].
    + destruct (refuses E OpMkdir (done ++ [name])); [done|].
      apply (Hstep (<[done ++ [name] := Dir]> d)); [by apply insert_subseteq| |done].
      destruct (done ++ [name]) eqn:Heq; [by destruct done|].
      cbn [Fs.node_at]. by rewrite lookup_insert_eq.
Qed.

Lemma createDirectory_mkdir_fails p s recursive w e d' :
  Validator.sanitizePath p = Ok s ->
  Fs.node_at (disk w) (Fs.at_path E s) = None ->
  Fs.mkdir_result E s recursive w = (Throw e, d') ->
  fst (FileSystemManager.createDirectory E p recursive w) =
  Throw (Error ("Directory creation failed: " +:+ message e)).
Proof.
  intros Hs Hn Hm. unfold FileSystemManager.createDirectory. rewrite Hs.
  unfold Fs.existsSync, Fs.mkdirSync. run. rewrite Hn. run.
  assert (Fs.mkdir_result E s recursive
            (mkWorld (disk w) (createdFiles w) (createdDirs w)
               (installedPackages w) (children w) (logged w)
               (calls w ++ [ExistsSync s; MkdirSync s])) = (Throw e, d')) as Hm'
    by exact Hm.
  rewrite <- app_assoc. cbn [app]. rewrite Hm'. by run.
Qed.

End WithEnv.

(** X20. [createDirectory] makes the directories on the way to its path
    and records only the path itself, so [rollback] leaves them behind: on
    a new manager, a directory above the path that was not there before
    the call is there after it, is not in the ledger, and is still there
    after [rollback]. *)
Theorem rollback_leaves_unrecorded_ancestors (E : Env) (p s : string) (w : World)
    (k' : list string) :
  let r := FileSystemManager.createDirectory E p true w in
  let w2 := snd (FileSystemManager.rollback E (snd r)) in
  createdFiles w = [] -> createdDirs w = [] ->
  Validator.sanitizePath p = Ok s ->
  Fs.node_at (disk w) (Fs.at_path E s) = None ->
  fst r = Ok (JsBool true) ->
  k' `prefix_of` Fs.at_path E s -> k' <> Fs.at_path E s ->
  Fs.node_at (disk w) k' = None ->
  createdDirs (snd r) = [s] /\ createdFiles (snd r) = [] /\
  disk (snd r) !! k' = Some Dir /\
  disk w2 !! k' = Some Dir.
Proof.
  cbv zeta. intros Hf Hd Hs Hn Hok [tl Hpre] Hne Hnew.
  destruct (Fs.mkdir_result E s true w) as [[[]|e] d'] eqn:Hm.
  2: { by rewrite (createDirectory_mkdir_fails E p s true w e d' Hs Hn Hm) in Hok. }
  rewrite (createDirectory_absent E p s true w d' Hs Hn Hm).
  cbn [fst snd disk createdFiles createdDirs].
  rewrite Hd, Hf. cbn [app].
  assert (Hk' : d' !! k' = Some Dir).
  { unfold Fs.mkdir_result in Hm.
    pose proof (mkdir_walk_prefixes E s (Fs.at_path E s) [] (disk w) d' eq_refl Hm
                  (length k')) as Hp.
    rewrite Hpre, take_app_length in Hp. cbn [app] in Hp.
    destruct k' as [|x k']; [done|exact Hp]. }
  repeat split; try done.
  rewrite rollback_foreign; [exact Hk'|].
  cbn [createdFiles createdDirs app].
  intros q Hq%list_elem_of_singleton. by subst q.
Qed.

Lemma rollback_leaves_unrecorded_ancestors_witness :
  let r := FileSystemManager.createDirectory (host 0 false) "demo/src/services" true home in
  let w2 := snd (FileSystemManager.rollback (host 0 false) (snd r)) in
  disk home !! ["home"; "u"; "demo"] = None /\
  createdDirs (snd r) = ["demo/src/services"] /\
  disk w2 !! ["home"; "u"; "demo"; "src"; "services"] = None /\
  disk w2 !! ["home"; "u"; "demo"] = Some Dir.
Proof.
  cbv zeta. split; [reflexivity|].
  destruct (rollback_leaves_unrecorded_ancestors (host 0 false)
              "demo/src/services" "demo/src/services" home ["home"; "u"; "demo"])
    as (Hdirs & _ & _ & Hleft);
    [reflexivity | reflexivity | reflexivity | reflexivity | reflexivity
    | by exists ["src"; "services"] | discriminate | reflexivity |].
  split; [exact Hdirs|]. split; [vm_compute; reflexivity|exact Hleft].
Defined.

(** ** The command lines *)

Import PackageManager.

Lemma npm_args_spec deps dev :
  npm_args deps dev =
  "install" :: (if truthy dev then ["--save-dev"] else []) ++
  filter (fun s => s ≠ EmptyString) (packages_of deps).
Proof.
  unfold npm_args. rewrite filter_cons_True by done.
  destruct (truthy dev).
  - by rewrite filter_cons_True.
  - by rewrite filter_cons_False by (intros H; by apply H).
Qed.

Section WithEnv.
Variable E : Env.

Lemma exec_spawned projectDir steps : forall w,
  let r := exec E projectDir steps w in
  exists k,
    k <= length (command_lines steps) /\
    (command_lines steps <> [] -> 1 <= k) /\
    spawned (calls (snd r)) = spawned (calls w) ++ take k (command_lines steps) /\
    (fst r = Ok tt -> k = length (command_lines steps)).
Proof.
  induction steps as [|s steps IH]; intros w.
  - exists 0. cbn. by rewrite app_nil_r.
  - unfold exec in *. cbn [forOf]. destruct s as [l msg|deps dev].
    + erewrite bind_run by reflexivity. apply (IH (set_logged _ w)).
    + destruct (install_spec E projectDir deps dev w) as (w1 & Hrun & Hc & _).
      change (command_lines (Install deps dev :: steps))
        with (npm_args deps dev :: command_lines steps).
      cbn [length].
      destruct (verdict _ _ _) as [v|e].
      * erewrite bind_run; [|erewrite bind_run by exact Hrun; reflexivity].
        destruct (IH w1) as (k & Hle & _ & Hk & Hok). exists (S k).
        split; [lia|]. split; [lia|].
        cbn [take]. rewrite Hk, Hc, spawned_app, <- app_assoc.
        split; [done|]. intros H. rewrite (Hok H). done.
      * erewrite bind_throw; [|erewrite bind_throw by exact Hrun; reflexivity].
        exists 1. cbn [fst snd take]. split; [lia|]. split; [done|].
        rewrite take_0, Hc, spawned_app. by split.
Qed.

End WithEnv.

(** X21. What [npm] is started with.  A command line is [install], then
    [--save-dev] whenever the third argument of
    [PackageManager.installDependencies] is truthy, then the packages that
    are not empty strings.  The installation stage starts [npm] with the
    command lines of its steps, in order, as far as it gets, and always
    with the first: [install --save-dev express cors dotenv helmet
    morgan], the options object handed over for the base packages being
    truthy.  No command line carries [--no-bin-links]. *)
Theorem npm_command_lines (E : Env) (config : Config) (w : World) :
  let r := ProjectGenerator.installDependencies E config w in
  let lines := command_lines (install_steps config) in
  (forall deps dev,
     npm_args deps dev =
     "install" :: (if truthy dev then ["--save-dev"] else []) ++
     filter (fun s => s ≠ EmptyString) (packages_of deps)) /\
  (exists k, 1 <= k <= length lines /\
             spawned (calls (snd r)) = spawned (calls w) ++ take k lines /\
             (fst r = Ok tt -> k = length lines)) /\
  head lines =
    Some ["install"; "--save-dev"; "express"; "cors"; "dotenv"; "helmet"; "morgan"] /\
  Forall (fun line => ("--no-bin-links" ∉ line) /\ head line = Some "install") lines.
Proof.
  cbv zeta. split; [apply npm_args_spec|]. split.
  - rewrite installDependencies_exec.
    destruct (exec_spawned E (Path.join (cwd E) (projectName config))
                (install_steps config) w) as (k & Hle & Hpos & Hk & Hok).
    exists k. repeat split; try done. apply Hpos.
    unfold install_steps. cbn. discriminate.
  - unfold install_steps, ProjectGenerator.is_ejs.
    destruct config as [name ejs db port auth linter git].
    cbn [useEjs useDB features_authentication features_linter].
    split; [reflexivity|].
    destruct (String.eqb ejs "EJS (Dynamic)"), auth, linter,
      (String.eqb db "MySQL"), (String.eqb db "PostgreSQL"),
      (String.eqb db "MongoDB");
      apply (bool_decide_unpack _); vm_compute; reflexivity.
Qed.

(** ** What the two building stages record *)

Section WithEnv.
Variable E : Env.

Lemma sanitizePath_ok p s : Validator.sanitizePath p = Ok s -> s = Path.normalize p.
Proof.
  destruct (sanitizePath_cases p) as [[_ H]|[_ H]]; rewrite H; [done|].
  by intros [= <-].
Qed.

Lemma write_loop (l : list (string * string)) : forall n w n' w',
  forOf l (fun entry completed =>
             FileSystemManager.writeFile E (fst entry) (snd entry) ;;
             ret (S completed)) n w = (Ok n', w') ->
  n' = n + length l /\
  grows w w' /\
  createdFiles w' =
    createdFiles w ++ List.map (fun entry => Path.normalize (fst entry)) l /\
  forall entry, entry ∈ l ->
    exists content,
      disk w' !! Fs.at_path E (Path.normalize (fst entry)) = Some (File content).
Proof.
  induction l as [|[p c] l IH]; intros n w n' w' H.
  - cbn in H. injection H as <- <-. rewrite app_nil_r.
    split; [cbn; lia|]. split; [reflexivity|]. split; [done|].
    intros e He. by apply elem_of_nil in He.
  - cbn [forOf fst snd] in H.
    destruct (writeFile_world E p c w) as (Hg & _ & Hf).
    unfold bind at 1 2 in H.
    destruct (FileSystemManager.writeFile E p c w) as [[v|e] w1]; [|done].
    cbn [fst snd ret] in *.
    destruct Hf as [[_ [e He]]|(s & Hs & _ & Hf & Hfile & _)]; [done|].
    apply sanitizePath_ok in Hs as ->.
    destruct (IH _ _ _ _ H) as (Hn & Hg' & Hf' & Hfiles).
    split; [cbn; lia|]. split; [by etrans|]. split.
    + rewrite Hf', Hf, <- app_assoc. done.
    + intros entry [->|He]%elem_of_cons; [|by apply Hfiles].
      by apply (grows_file w1 w' _ c).
Qed.

Lemma directory_loop root (l : list string) : forall w w',
  forOf l (fun dir _ =>
             FileSystemManager.createDirectory E (Path.join root dir) true ;;
             ret tt) tt w = (Ok tt, w') ->
  createdFiles w' = createdFiles w /\
  (exists made,
     createdDirs w' = createdDirs w ++ made /\
     made `sublist_of` List.map (fun dir => Path.normalize (Path.join root dir)) l) /\
  ((forall dir, dir ∈ l ->
      is_Some (Fs.node_at (disk w)
                 (Fs.at_path E (Path.normalize (Path.join root dir))))) ->
   createdDirs w' = createdDirs w /\ disk w' = disk w).
Proof.
  induction l as [|dir l IH]; intros w w' H.
  - cbn in H. injection H as <-. split; [done|]. split; [|done].
    exists []. by rewrite app_nil_r.
  - cbn [forOf] in H.
    destruct (createDirectory_world E (Path.join root dir) true w) as (Hsub & Hf & Hd).
    unfold bind at 1 2 in H.
    destruct (sanitizePath_cases (Path.join root dir)) as [[_ Hs]|[_ Hs]].
    { rewrite (createDirectory_rejected E _ true _ w Hs) in H. done. }
    destruct (FileSystemManager.createDirectory E (Path.join root dir) true w)
      as [[v|e] w1] eqn:Hrun; [|done].
    cbn [fst snd ret] in *.
    destruct (IH _ _ H) as (Hf' & (made & Hmade & Hsl) & Hall).
    split; [congruence|]. split.
    + destruct Hd as [Hd|(s & Hs' & _ & Hd & _)].
      * exists made. split; [congruence|]. cbn [List.map]. by apply sublist_cons.
      * rewrite Hs in Hs'. injection Hs' as <-.
        exists (Path.normalize (Path.join root dir) :: made).
        split; [rewrite Hmade, Hd, <- app_assoc; done|].
        cbn [List.map]. by apply sublist_skip.
    + intros Hthere.
      assert (Hpresent := Hthere dir ltac:(by left)).
      rewrite (createDirectory_present E _ _ true w Hs Hpresent) in Hrun.
      injection Hrun as _ <-. cbn [disk createdDirs set_calls] in *.
      apply Hall. intros d Hin. apply Hthere. by right.
Qed.

Lemma createStructure_loop config w :
  ProjectGenerator.createStructure E config w =
  (forOf (structure_dirs config)
     (fun dir _ =>
        FileSystemManager.createDirectory E
          (Path.join (Path.join (cwd E) (projectName config)) dir) true ;;
        ret tt) tt ;;
   logger SUCCESS ("Created " +:+ Str.of_nat (length (structure_dirs config)) +:+
                   " directories")) w.
Proof.
  unfold ProjectGenerator.createStructure, structure_dirs.
  by destruct (ProjectGenerator.is_ejs config).
Qed.

End WithEnv.

(** X22. When [generateFiles] succeeds the ledger has gained the template
    paths, joined to the project root and normalized, in the order of
    [getFileTemplates], each of them once; every one of them is a file on
    the disk, nothing that was on the disk has gone, and the number in
    the last line of the log is their number. *)
Theorem generateFiles_records (E : Env) (config : Config) (w w' : World) :
  let root := Path.join (cwd E) (projectName config) in
  let written :=
    List.map (fun rel => Path.normalize (Path.join root rel)) (template_paths config) in
  ProjectGenerator.generateFiles E config w = (Ok tt, w') ->
  createdFiles w' = createdFiles w ++ written /\
  (forall p, p ∈ written ->
     exists content, disk w' !! Fs.at_path E p = Some (File content)) /\
  grows w w' /\
  last (logged w') =
    Some (Log SUCCESS ("Generated " +:+ Str.of_nat (length written) +:+ " files")).
Proof.
  cbv zeta. unfold ProjectGenerator.generateFiles.
  erewrite bind_run by reflexivity. rewrite getFileTemplates_entries.
  set (w0 := set_logged _ w). unfold bind at 1.
  destruct (forOf _ _ 0 w0) as [[n|e] w1] eqn:Hloop; [|done].
  destruct (write_loop E _ _ _ _ _ Hloop) as (Hn & Hg & Hf & Hfiles).
  intros [= <-]. cbn [logger snd logged createdFiles disk set_logged].
  rewrite map_map in Hf. cbn [fst] in Hf.
  unfold template_paths. rewrite map_map, !length_map in *. cbn [Nat.add] in Hn.
  subst n. split; [exact Hf|]. split; [|split; [|apply last_snoc]].
  - intros p (e & -> & He)%(list_elem_of_fmap_1 _).
    pose proof (list_elem_of_fmap_2
      (fun e0 : string * Template =>
         (Path.join (Path.join (cwd E) (projectName config)) (fst e0),
          render E (snd e0) config)) _ _ He) as Hin.
    apply (Hfiles _ Hin).
  - intros k. specialize (Hg k). exact Hg.
Qed.

Lemma generateFiles_records_witness :
  let w' := snd (ProjectGenerator.generateFiles (host 0 false) demo home) in
  length (createdFiles w') = 11 /\
  nth_error (createdFiles w') 2 = Some "/home/u/demo/package.json" /\
  last (logged w') = Some (Log SUCCESS "Generated 11 files").
Proof.
  cbv zeta.
  destruct (generateFiles_records (host 0 false) demo home
              (snd (ProjectGenerator.generateFiles (host 0 false) demo home)))
    as (Hf & _ & _ & Hlast);
    [apply pair_of_fst; vm_compute; reflexivity|].
  rewrite Hf. split; [reflexivity|]. split; [reflexivity|exact Hlast].
Defined.

(** X23. The number [createStructure] reports is the length of its list,
    eleven or fourteen, not the number of directories it made: when it
    succeeds the ledger has gained some of the listed paths, in order,
    and no file; and when all of them were there already it has gained
    nothing and the disk is as it was, with the same report. *)
Theorem createStructure_reports_the_list (E : Env) (config : Config) (w w' : World) :
  let root := Path.join (cwd E) (projectName config) in
  let asked :=
    List.map (fun dir => Path.normalize (Path.join root dir)) (structure_dirs config) in
  ProjectGenerator.createStructure E config w = (Ok tt, w') ->
  last (logged w') =
    Some (Log SUCCESS ("Created " +:+ Str.of_nat (length asked) +:+ " directories")) /\
  length asked = (if ProjectGenerator.is_ejs config then 14 else 11) /\
  (exists made, createdDirs w' = createdDirs w ++ made /\ made `sublist_of` asked) /\
  createdFiles w' = createdFiles w /\
  ((forall p, p ∈ asked -> is_Some (Fs.node_at (disk w) (Fs.at_path E p))) ->
   createdDirs w' = createdDirs w /\ disk w' = disk w).
Proof.
  cbv zeta. rewrite createStructure_loop. unfold bind at 1.
  destruct (forOf _ _ tt w) as [[[]|e] w1] eqn:Hloop; [|done].
  destruct (directory_loop E _ _ _ _ Hloop) as (Hf & Hmade & Hall).
  intros [= <-]. cbn [logger snd logged createdFiles createdDirs disk set_logged].
  rewrite length_map. split; [apply last_snoc|]. split.
  { unfold structure_dirs. by destruct (ProjectGenerator.is_ejs config). }
  split; [exact Hmade|]. split; [exact Hf|].
  intros Hthere. apply Hall. intros dir Hdir. apply Hthere.
  exact (list_elem_of_fmap_2
           (fun dir0 => Path.normalize
                          (Path.join (Path.join (cwd E) (projectName config)) dir0))
           _ _ Hdir).
Qed.

Lemma createStructure_reports_the_list_witness :
  let w1 := snd (ProjectGenerator.createStructure (host 0 false) demo home) in
  let w2 := snd (ProjectGenerator.createStructure (host 0 false) demo w1) in
  length (createdDirs w1) = 11 /\
  createdDirs w2 = createdDirs w1 /\
  last (logged w2) = Some (Log SUCCESS "Created 11 directories").
Proof.
  cbv zeta.
  destruct (createStructure_reports_the_list (host 0 false) demo
              (snd (ProjectGenerator.createStructure (host 0 false) demo home))
              (snd (ProjectGenerator.createStructure (host 0 false) demo
                      (snd (ProjectGenerator.createStructure (host 0 false) demo home)))))
    as (Hlast & _ & _ & _ & Hall);
    [apply pair_of_fst; vm_compute; reflexivity|].
  split; [vm_compute; reflexivity|]. split; [|exact Hlast].
  apply Hall. apply Forall_forall. apply (bool_decide_unpack _). vm_compute. reflexivity.
Defined.
